(** * nilch front end: bang resolution, query dispatch and result rendering

    A shallow embedding of [frontend/script/results.js], the image script
    that follows it, [frontend/script/videos.js] and the script of the home
    page.

    JavaScript strings are sequences of UTF-16 code units; the scripts'
    [length], [slice], regular expression and [encodeURIComponent] all work
    on code units, so a string is a [list N] here.  DOM writes, navigation
    and the network request are recorded, in program order, in a trace of
    effects; an exception ends the computation that raised it and is caught
    by the enclosing [try]/[catch] of the script. *)

From Stdlib Require Import String Ascii Numbers.DecimalString.
From Stdlib Require Import List NArith ZArith Bool Lia.
Import ListNotations.

Set Implicit Arguments.
Set Warnings "-register-all".
Local Open Scope N_scope.
Local Open Scope list_scope.

(** ** Strings *)

Definition jsstring := list N.

(** A string literal of the source (all of them are ASCII). *)
Definition js (s : string) : jsstring :=
  map N_of_ascii (list_ascii_of_string s).

Definition jseq (a b : jsstring) : bool :=
  if list_eq_dec N.eq_dec a b then true else false.

Definition in_range (lo hi c : N) : bool := (lo <=? c) && (c <=? hi).

Definition is_ascii_letter (c : N) : bool :=
  in_range 65 90 c || in_range 97 122 c.

Definition is_digit (c : N) : bool := in_range 48 57 c.

(** LineTerminator: LF, CR, U+2028, U+2029 (what [.] refuses in a regular
    expression without the [s] flag). *)
Definition is_line_terminator (c : N) : bool :=
  (c =? 10) || (c =? 13) || (c =? 8232) || (c =? 8233).

(** WhiteSpace and LineTerminator: the class [\s], and what [trim] strips. *)
Definition is_white_space (c : N) : bool :=
  (c =? 9) || (c =? 11) || (c =? 12) || (c =? 32) || (c =? 160)
  || (c =? 5760) || in_range 8192 8202 c || (c =? 8239) || (c =? 8287)
  || (c =? 12288) || (c =? 65279) || is_line_terminator c.

Fixpoint trimStart (s : jsstring) : jsstring :=
  match s with
  | c :: r => if is_white_space c then trimStart r else s
  | [] => []
  end.

(** [String.prototype.trim]. *)
Definition trim (s : jsstring) : jsstring :=
  rev (trimStart (rev (trimStart s))).

(** [s.slice(0, n)] for a non-negative [n]. *)
Definition slice0 (n : nat) (s : jsstring) : jsstring := firstn n s.

(** ** encodeURIComponent *)

Definition is_lead_surrogate (c : N) : bool := in_range 55296 56319 c.
Definition is_trail_surrogate (c : N) : bool := in_range 56320 57343 c.

(** The characters [encodeURIComponent] leaves alone: ASCII letters, digits
    and [- _ . ! ~ * ' ( )]. *)
Definition uri_unescaped (c : N) : bool :=
  is_ascii_letter c || is_digit c
  || existsb (N.eqb c) [45; 95; 46; 33; 126; 42; 39; 40; 41].

Definition utf8_encode (cp : N) : list N :=
  if cp <? 128 then [cp]
  else if cp <? 2048 then
    [N.lor 192 (N.shiftr cp 6); N.lor 128 (N.land cp 63)]
  else if cp <? 65536 then
    [N.lor 224 (N.shiftr cp 12);
     N.lor 128 (N.land (N.shiftr cp 6) 63);
     N.lor 128 (N.land cp 63)]
  else
    [N.lor 240 (N.shiftr cp 18);
     N.lor 128 (N.land (N.shiftr cp 12) 63);
     N.lor 128 (N.land (N.shiftr cp 6) 63);
     N.lor 128 (N.land cp 63)].

Definition hex_digit (d : N) : N :=
  if d <? 10 then 48 + d else 55 + d.

Definition percent_octet (b : N) : jsstring :=
  [37; hex_digit (N.shiftr b 4); hex_digit (N.land b 15)].

Definition percent_octets (bs : list N) : jsstring :=
  flat_map percent_octet bs.

Definition surrogate_pair (hi lo : N) : N :=
  (hi - 55296) * 1024 + (lo - 56320) + 65536.

(** [None] is the [URIError] thrown at an unpaired surrogate. *)
Fixpoint uri_encode (s : jsstring) : option jsstring :=
  match s with
  | [] => Some []
  | c :: r =>
      if uri_unescaped c then option_map (cons c) (uri_encode r)
      else if is_trail_surrogate c then None
      else if is_lead_surrogate c then
        match r with
        | d :: r' =>
            if is_trail_surrogate d then
              option_map (app (percent_octets (utf8_encode (surrogate_pair c d))))
                         (uri_encode r')
            else None
        | [] => None
        end
      else option_map (app (percent_octets (utf8_encode c))) (uri_encode r)
  end.

(** ** String.prototype.replace with a string pattern *)

Fixpoint is_prefix (p s : jsstring) : bool :=
  match p, s with
  | [], _ => true
  | a :: p', b :: s' => (a =? b) && is_prefix p' s'
  | _ :: _, [] => false
  end.

(** [s.indexOf(pat)]: the first position at which [pat] occurs. *)
Fixpoint indexOf (s pat : jsstring) : option nat :=
  if is_prefix pat s then Some O
  else match s with
       | [] => None
       | _ :: r => option_map S (indexOf r pat)
       end.

(** GetSubstitution for a match without capture groups: in the replacement
    text [$$] is a dollar sign, [$&] the matched text, [$`] the text
    before the match and [$'] the text after it; every other character,
    a dollar sign before anything else included, stands for itself. *)
Fixpoint getSubstitution (matched before after template : jsstring) : jsstring :=
  match template with
  | [] => []
  | c :: r =>
      if c =? 36 then
        match r with
        | d :: r' =>
            if d =? 36 then 36 :: getSubstitution matched before after r'
            else if d =? 38 then matched ++ getSubstitution matched before after r'
            else if d =? 96 then before ++ getSubstitution matched before after r'
            else if d =? 39 then after ++ getSubstitution matched before after r'
            else c :: getSubstitution matched before after r
        | [] => [c]
        end
      else c :: getSubstitution matched before after r
  end.

(** [s.replace(pat, rep)] with both arguments strings: only the first
    occurrence is replaced. *)
Definition replace (s pat rep : jsstring) : jsstring :=
  match indexOf s pat with
  | None => s
  | Some pos =>
      let before := firstn pos s in
      let after := skipn (pos + length pat) s in
      before ++ getSubstitution pat before after rep ++ after
  end.

(** ** The bang pattern [/^!([a-zA-Z]+)(?:\s(.* ))?$/] *)

Fixpoint span_letters (s : jsstring) : jsstring * jsstring :=
  match s with
  | c :: r =>
      if is_ascii_letter c
      then let (a, b) := span_letters r in (c :: a, b)
      else ([], s)
  | [] => ([], [])
  end.

(** [query.match(...)]: [None] when the pattern does not match, otherwise
    group 1 and group 2 (group 2 is [None] when the optional part did not
    take part in the match, that is when the letters end the string). *)
Definition match_bang (query : jsstring) : option (jsstring * option jsstring) :=
  match query with
  | c :: rest =>
      if c =? 33 then
        let (letters, tail) := span_letters rest in
        match letters, tail with
        | [], _ => None
        | _ :: _, [] => Some (letters, None)
        | _ :: _, w :: remainder =>
            if is_white_space w
               && forallb (fun x => negb (is_line_terminator x)) remainder
            then Some (letters, Some remainder)
            else None
        end
      else None
  | [] => None
  end.

(** ** Numbers *)

(** The numbers of the scripts are page indices: integers, or the [NaN] that
    [parseInt] gives for text without digits. *)
Inductive number : Type :=
| NaN
| Num (z : Z).

Definition number_eq (a b : number) : bool :=
  match a, b with
  | Num x, Num y => Z.eqb x y
  | _, _ => false
  end.

Definition string_of_Z (z : Z) : jsstring :=
  js (NilZero.string_of_int (Z.to_int z)).

(** ToString of a number (an integer below 10^21 prints in decimal). *)
Definition number_toString (n : number) : jsstring :=
  match n with
  | NaN => js "NaN"
  | Num z => string_of_Z z
  end.

Definition digit_value (radix : Z) (c : N) : option Z :=
  let v :=
    if is_digit c then Some (Z.of_N c - 48)%Z
    else if in_range 97 122 c then Some (Z.of_N c - 87)%Z
    else if in_range 65 90 c then Some (Z.of_N c - 55)%Z
    else None in
  match v with
  | Some d => if (d <? radix)%Z then Some d else None
  | None => None
  end.

(** The value of the longest prefix of digits, with how many there were. *)
Fixpoint parse_digits (radix : Z) (acc : Z) (count : nat) (s : jsstring) : Z * nat :=
  match s with
  | c :: r =>
      match digit_value radix c with
      | Some d => parse_digits radix (acc * radix + d)%Z (S count) r
      | None => (acc, count)
      end
  | [] => (acc, count)
  end.

Definition max_safe_integer : Z := 9007199254740992%Z.

(** [parseInt(s)] without a radix.  The result is [None] when the digits
    denote an integer beyond 2^53, where JavaScript rounds to a double:
    such a page index is outside this model. *)
Definition parseInt (s : jsstring) : option number :=
  let s1 := trimStart s in
  let (neg, s2) :=
    match s1 with
    | c :: r => if c =? 45 then (true, r) else if c =? 43 then (false, r) else (false, s1)
    | [] => (false, s1)
    end in
  let (radix, s3) :=
    match s2 with
    | z :: x :: r =>
        if (z =? 48) && ((x =? 120) || (x =? 88)) then (16%Z, r) else (10%Z, s2)
    | _ => (10%Z, s2)
    end in
  let (v, count) := parse_digits radix 0%Z O s3 in
  match count with
  | O => Some NaN
  | S _ =>
      if (v <=? max_safe_integer)%Z
      then Some (Num (if neg then (- v)%Z else v))
      else None
  end.

(** ** URLSearchParams *)

(** The code points of a string, an unpaired surrogate read as U+FFFD (the
    conversion to a scalar value string). *)
Fixpoint code_points (s : jsstring) : list N :=
  match s with
  | [] => []
  | c :: r =>
      if is_trail_surrogate c then 65533 :: code_points r
      else if is_lead_surrogate c then
        match r with
        | d :: r' =>
            if is_trail_surrogate d then surrogate_pair c d :: code_points r'
            else 65533 :: code_points r
        | [] => [65533]
        end
      else c :: code_points r
  end.

Definition utf8_bytes (s : jsstring) : list N :=
  flat_map utf8_encode (code_points s).

Definition utf16_encode (cp : N) : jsstring :=
  if cp <? 65536 then [cp]
  else [55296 + N.shiftr (cp - 65536) 10; 56320 + N.land (cp - 65536) 1023].

(** The UTF-8 decoder of the Encoding standard, errors replaced by U+FFFD:
    [needed] continuation bytes are still expected for the code point [cp],
    the next one within [lower..upper]. *)
Fixpoint utf8_decode_from (needed : nat) (cp lower upper : N) (bs : list N) : list N :=
  match bs with
  | [] => match needed with O => [] | S _ => [65533] end
  | b :: r =>
      let start :=
        if b <? 128 then b :: utf8_decode_from 0 0 128 191 r
        else if in_range 194 223 b then utf8_decode_from 1 (N.land b 31) 128 191 r
        else if in_range 224 239 b then
          utf8_decode_from 2 (N.land b 15)
            (if b =? 224 then 160 else 128) (if b =? 237 then 159 else 191) r
        else if in_range 240 244 b then
          utf8_decode_from 3 (N.land b 7)
            (if b =? 240 then 144 else 128) (if b =? 244 then 143 else 191) r
        else 65533 :: utf8_decode_from 0 0 128 191 r in
      match needed with
      | O => start
      | S n =>
          if in_range lower upper b then
            let cp' := N.lor (N.shiftl cp 6) (N.land b 63) in
            match n with
            | O => cp' :: utf8_decode_from 0 0 128 191 r
            | S _ => utf8_decode_from n cp' 128 191 r
            end
          else 65533 :: start
      end
  end.

Definition utf8_decode (bs : list N) : jsstring :=
  flat_map utf16_encode (utf8_decode_from 0 0 128 191 bs).

Definition hex_value (c : N) : option N :=
  if is_digit c then Some (c - 48)
  else if in_range 65 70 c then Some (c - 55)
  else if in_range 97 102 c then Some (c - 87)
  else None.

Fixpoint percent_decode (bs : list N) : list N :=
  match bs with
  | [] => []
  | b :: r =>
      if b =? 37 then
        match r with
        | h :: l :: r' =>
            match hex_value h, hex_value l with
            | Some x, Some y => (16 * x + y) :: percent_decode r'
            | _, _ => b :: percent_decode r
            end
        | _ => b :: percent_decode r
        end
      else b :: percent_decode r
  end.

(** Split at every occurrence of the separator. *)
Fixpoint split_on (sep : N) (s : list N) : list (list N) :=
  match s with
  | [] => [[]]
  | c :: r =>
      if c =? sep then [] :: split_on sep r
      else match split_on sep r with
           | x :: xs => (c :: x) :: xs
           | [] => [[c]]
           end
  end.

(** Split at the first occurrence of the separator, if there is one. *)
Fixpoint split_first (sep : N) (s : list N) : list N * list N :=
  match s with
  | [] => ([], [])
  | c :: r =>
      if c =? sep then ([], r)
      else let (a, b) := split_first sep r in (c :: a, b)
  end.

Definition plus_to_space (bs : list N) : list N :=
  map (fun b => if b =? 43 then 32 else b) bs.

Definition form_decode (bs : list N) : jsstring :=
  utf8_decode (percent_decode (plus_to_space bs)).

Definition URLSearchParams := list (jsstring * jsstring).

(** [new URLSearchParams(init)] for a string: the
    application/x-www-form-urlencoded parser, after one leading [?]. *)
Definition new_URLSearchParams (init : jsstring) : URLSearchParams :=
  let input :=
    match init with
    | c :: r => if c =? 63 then r else init
    | [] => init
    end in
  flat_map
    (fun seq =>
       match seq with
       | [] => []
       | _ :: _ =>
           let (name, value) := split_first 61 seq in
           [(form_decode name, form_decode value)]
       end)
    (split_on 38 (utf8_bytes input)).

(** [params.get(name)]: the first value, or [null]. *)
Fixpoint get (params : URLSearchParams) (name : jsstring) : option jsstring :=
  match params with
  | [] => None
  | (k, v) :: r => if jseq k name then Some v else get r name
  end.

(** [params.set(name, value)]: the first pair of that name takes the value
    and the later ones go; without such a pair, one is appended. *)
Fixpoint set (params : URLSearchParams) (name value : jsstring) : URLSearchParams :=
  match params with
  | [] => [(name, value)]
  | (k, v) :: r =>
      if jseq k name
      then (k, value) :: filter (fun kv => negb (jseq (fst kv) name)) r
      else (k, v) :: set r name value
  end.

Definition form_byte (b : N) : jsstring :=
  if b =? 32 then [43]
  else if is_ascii_letter b || is_digit b
          || existsb (N.eqb b) [42; 45; 46; 95]
  then [b]
  else percent_octet b.

Definition form_encode (s : jsstring) : jsstring :=
  flat_map form_byte (utf8_bytes s).

Fixpoint join (sep : jsstring) (l : list jsstring) : jsstring :=
  match l with
  | [] => []
  | [x] => x
  | x :: r => x ++ sep ++ join sep r
  end.

(** [params.toString()]. *)
Definition URLSearchParams_toString (params : URLSearchParams) : jsstring :=
  join [38] (map (fun kv => form_encode (fst kv) ++ [61] ++ form_encode (snd kv)) params).

(** [a || b] on a value that is a string or [null]: [null] and the empty
    string are falsy. *)
Definition or_else (a : option jsstring) (b : jsstring) : jsstring :=
  match a with
  | Some [] | None => b
  | Some s => s
  end.

(** ToString of a value that is a string or [null]. *)
Definition nullable_toString (a : option jsstring) : jsstring :=
  match a with
  | Some s => s
  | None => js "null"
  end.

(** ** Values and JSON.parse *)

(** The values the scripts meet: what [JSON.parse] builds, and [undefined]
    for a property that is not there.  A number keeps the text of its JSON
    literal: no script computes with a number of the payload. *)
Inductive value : Type :=
| VUndefined
| VNull
| VBool (b : bool)
| VNumber (literal : jsstring)
| VString (s : jsstring)
| VArray (items : list value)
| VObject (members : list (jsstring * value)).

Inductive parsed (A : Type) : Type :=
| Parsed (a : A) (rest : jsstring)
| SyntaxErr
| OutOfFuel.

Arguments SyntaxErr {A}.
Arguments OutOfFuel {A}.

Fixpoint skip_ws (s : jsstring) : jsstring :=
  match s with
  | c :: r =>
      if (c =? 9) || (c =? 10) || (c =? 13) || (c =? 32) then skip_ws r else s
  | [] => []
  end.

Definition json_escape (e : N) : option N :=
  if e =? 34 then Some 34
  else if e =? 92 then Some 92
  else if e =? 47 then Some 47
  else if e =? 98 then Some 8
  else if e =? 102 then Some 12
  else if e =? 110 then Some 10
  else if e =? 114 then Some 13
  else if e =? 116 then Some 9
  else None.

Definition hex4 (a b c d : N) : option N :=
  match hex_value a, hex_value b, hex_value c, hex_value d with
  | Some w, Some x, Some y, Some z => Some (((w * 16 + x) * 16 + y) * 16 + z)
  | _, _, _, _ => None
  end.

Definition parsed_cons (c : N) (p : option (jsstring * jsstring)) :
  option (jsstring * jsstring) :=
  match p with
  | Some (s, rest) => Some (c :: s, rest)
  | None => None
  end.

(** The characters of a JSON string, after its opening quote. *)
Fixpoint json_string (s : jsstring) : option (jsstring * jsstring) :=
  match s with
  | [] => None
  | c :: r =>
      if c =? 34 then Some ([], r)
      else if c =? 92 then
        match r with
        | e :: r' =>
            if e =? 117 then
              match r' with
              | h1 :: h2 :: h3 :: h4 :: r'' =>
                  match hex4 h1 h2 h3 h4 with
                  | Some u => parsed_cons u (json_string r'')
                  | None => None
                  end
              | _ => None
              end
            else
              match json_escape e with
              | Some x => parsed_cons x (json_string r')
              | None => None
              end
        | [] => None
        end
      else if c <? 32 then None
      else parsed_cons c (json_string r)
  end.

Fixpoint span_digits (s : jsstring) : jsstring * jsstring :=
  match s with
  | c :: r =>
      if is_digit c then let (a, b) := span_digits r in (c :: a, b) else ([], s)
  | [] => ([], [])
  end.

(** A JSON number: an optional minus sign, then a zero or a digit from 1 to
    9 followed by digits, then optionally a point with at least one digit,
    then optionally an exponent: e or E, a sign or none, at least one
    digit. *)
Definition json_number (s : jsstring) : option (jsstring * jsstring) :=
  let (sign, s1) :=
    match s with
    | c :: r => if c =? 45 then ([c], r) else ([], s)
    | [] => ([], s)
    end in
  let int_part :=
    match s1 with
    | c :: r =>
        if c =? 48 then Some ([c], r)
        else if in_range 49 57 c then
          let (ds, r') := span_digits r in Some (c :: ds, r')
        else None
    | [] => None
    end in
  match int_part with
  | None => None
  | Some (ip, s2) =>
      let frac :=
        match s2 with
        | c :: r =>
            if c =? 46 then
              match span_digits r with
              | ([], _) => None
              | (ds, r') => Some (c :: ds, r')
              end
            else Some ([], s2)
        | [] => Some ([], s2)
        end in
      match frac with
      | None => None
      | Some (fp, s3) =>
          let exp :=
            match s3 with
            | c :: r =>
                if (c =? 101) || (c =? 69) then
                  let (sg, r1) :=
                    match r with
                    | d :: r0 =>
                        if (d =? 43) || (d =? 45) then ([d], r0) else ([], r)
                    | [] => ([], r)
                    end in
                  match span_digits r1 with
                  | ([], _) => None
                  | (ds, r') => Some (c :: sg ++ ds, r')
                  end
                else Some ([], s3)
            | [] => Some ([], s3)
            end in
          match exp with
          | None => None
          | Some (ep, s4) => Some (sign ++ ip ++ fp ++ ep, s4)
          end
      end
  end.

Inductive json_mode : Type :=
| MValue
| MElements (acc : list value)
| MMembers (acc : list (jsstring * value)).

(** One value ([MValue]), the rest of an array after its bracket
    ([MElements]) or of an object after its brace ([MMembers]).  Every
    call goes down by one unit of fuel, and the text gets shorter at least
    every second call. *)
Fixpoint json_parse (fuel : nat) (m : json_mode) (s : jsstring) : parsed value :=
  match fuel with
  | O => OutOfFuel
  | S f =>
      match m with
      | MValue =>
          match skip_ws s with
          | [] => SyntaxErr
          | c :: r =>
              if c =? 91 then
                match skip_ws r with
                | d :: r' =>
                    if d =? 93 then Parsed (VArray []) r'
                    else json_parse f (MElements []) r
                | [] => SyntaxErr
                end
              else if c =? 123 then
                match skip_ws r with
                | d :: r' =>
                    if d =? 125 then Parsed (VObject []) r'
                    else json_parse f (MMembers []) r
                | [] => SyntaxErr
                end
              else if c =? 34 then
                match json_string r with
                | Some (str, r') => Parsed (VString str) r'
                | None => SyntaxErr
                end
              else if is_prefix (js "true") (c :: r) then Parsed (VBool true) (skipn 4 (c :: r))
              else if is_prefix (js "false") (c :: r) then Parsed (VBool false) (skipn 5 (c :: r))
              else if is_prefix (js "null") (c :: r) then Parsed VNull (skipn 4 (c :: r))
              else
                match json_number (c :: r) with
                | Some (lit, r') => Parsed (VNumber lit) r'
                | None => SyntaxErr
                end
          end
      | MElements acc =>
          match json_parse f MValue s with
          | Parsed v r =>
              match skip_ws r with
              | d :: r' =>
                  if d =? 44 then json_parse f (MElements (v :: acc)) r'
                  else if d =? 93 then Parsed (VArray (rev (v :: acc))) r'
                  else SyntaxErr
              | [] => SyntaxErr
              end
          | SyntaxErr => SyntaxErr
          | OutOfFuel => OutOfFuel
          end
      | MMembers acc =>
          match skip_ws s with
          | q :: r =>
              if q =? 34 then
                match json_string r with
                | Some (key, r1) =>
                    match skip_ws r1 with
                    | colon :: r2 =>
                        if colon =? 58 then
                          match json_parse f MValue r2 with
                          | Parsed v r3 =>
                              match skip_ws r3 with
                              | d :: r4 =>
                                  if d =? 44
                                  then json_parse f (MMembers ((key, v) :: acc)) r4
                                  else if d =? 125
                                  then Parsed (VObject (rev ((key, v) :: acc))) r4
                                  else SyntaxErr
                              | [] => SyntaxErr
                              end
                          | SyntaxErr => SyntaxErr
                          | OutOfFuel => OutOfFuel
                          end
                        else SyntaxErr
                    | [] => SyntaxErr
                    end
                | None => SyntaxErr
                end
              else SyntaxErr
          | [] => SyntaxErr
          end
      end
  end.

(** Fuel that is enough to parse [s] in mode [m]. *)
Definition fuel_needed (m : json_mode) (s : jsstring) : nat :=
  match m with
  | MValue => 2 * length s + 1
  | _ => 2 * length s + 2
  end.

(** The value a member name is bound to: the last binding of the name, as
    [JSON.parse] lets a later duplicate overwrite an earlier one. *)
Fixpoint lookup (members : list (jsstring * value)) (name : jsstring) : option value :=
  match members with
  | [] => None
  | (k, v) :: r =>
      match lookup r name with
      | Some x => Some x
      | None => if jseq k name then Some v else None
      end
  end.

(** ** The page: elements, effects and the computation monad *)

(** An element built with [createElement]: its tag, the properties the
    script assigns (in the order of the assignments) and the children it
    appends. *)
Inductive element : Type :=
| Element (tag : string) (props : list (string * jsstring)) (children : list element).

Inductive exn : Type :=
| SyntaxError (text : jsstring)
| TypeError (reading : string)
| URIError
| NetworkError.

(** What a script does to the world, in program order.  Elements of the page
    are named by their [id]. *)
Inductive effect : Type :=
| Fetch (url : jsstring)
| SetInnerHTML (id : string) (html : jsstring)
| SetInnerText (id : string) (text : jsstring)
| SetDisplay (id : string) (display : jsstring)
| AppendChild (id : string) (child : element)
| InsertAfter (id : string) (sibling : element)
| Navigate (href : jsstring)
| SetLocationProperty (name : string) (v : jsstring)
| Reload
| ConsoleError (label : jsstring) (e : exn)
| PreventDefault.

(** How a computation ends: with a value, with an exception, or outside
    this model ([OffModel]: the payload holds a value of a type the backend
    contract does not give the field, or a page index beyond 2^53). *)
Inductive outcome (A : Type) : Type :=
| Ok (a : A)
| Throw (e : exn)
| OffModel.

Arguments Throw {A}.
Arguments OffModel {A}.

Definition M (A : Type) : Type := (list effect * outcome A)%type.

Definition ret {A} (a : A) : M A := ([], Ok a).

Definition bind {A B} (m : M A) (f : A -> M B) : M B :=
  match m with
  | (t, Ok a) => let (t', o) := f a in (t ++ t', o)
  | (t, Throw e) => (t, Throw e)
  | (t, OffModel) => (t, OffModel)
  end.

Definition emit (e : effect) : M unit := ([e], Ok tt).
Definition throw {A} (e : exn) : M A := ([], Throw e).
Definition off_model {A} : M A := ([], OffModel).

(** [try { body } catch (error) { handler }]. *)
Definition try_catch (body : M unit) (handler : exn -> M unit) : M unit :=
  match body with
  | (t, Throw e) => let (t', o) := handler e in (t ++ t', o)
  | other => other
  end.

Notation "x <- m ;; k" := (bind m (fun x => k))
  (at level 61, m at next level, right associativity).
Notation "m ;; k" := (bind m (fun _ => k))
  (at level 61, right associativity).

Definition trace {A} (m : M A) : list effect := fst m.
Definition result {A} (m : M A) : outcome A := snd m.

(** A loop over the items of an array; an exception ends it. *)
Fixpoint for_each {A} (f : A -> M unit) (l : list A) : M unit :=
  match l with
  | [] => ret tt
  | x :: r => f x ;; for_each f r
  end.

(** [encodeURIComponent(s)]: it throws a [URIError] at an unpaired
    surrogate. *)
Definition encodeURIComponent (s : jsstring) : M jsstring :=
  match uri_encode s with
  | Some e => ret e
  | None => throw URIError
  end.

(** [JSON.parse(text)]: one value between optional white space, a
    [SyntaxError] otherwise. *)
Definition JSON_parse (text : jsstring) : M value :=
  match json_parse (2 * length text + 2) MValue text with
  | Parsed v rest =>
      match skip_ws rest with
      | [] => ret v
      | _ :: _ => throw (SyntaxError text)
      end
  | SyntaxErr => throw (SyntaxError text)
  | OutOfFuel => off_model
  end.

(** [v.name], for the names the scripts read: none of them is a property
    that objects, arrays, strings, numbers or booleans inherit, so that an
    array or a primitive value answers [undefined]. *)
Definition getProp (v : value) (name : string) : M value :=
  match v with
  | VObject members =>
      match lookup members (js name) with
      | Some x => ret x
      | None => ret VUndefined
      end
  | VUndefined | VNull => throw (TypeError name)
  | VBool _ | VNumber _ | VString _ | VArray _ => ret VUndefined
  end.

(** ToBoolean. *)
Definition truthy (v : value) : M bool :=
  match v with
  | VUndefined | VNull => ret false
  | VBool b => ret b
  | VString s => ret (match s with [] => false | _ :: _ => true end)
  | VArray _ | VObject _ => ret true
  | VNumber _ => off_model
  end.

(** ToString of a number, from its JSON literal: an integer literal of at
    most 15 digits prints as it is written (a JSON integer has no leading
    zero), but for the negative zero, which prints without its sign.  The
    literals with a fraction or an exponent, and the longer ones, go through
    the rounding of doubles and are outside this model. *)
Definition integer_toString (literal : jsstring) : option jsstring :=
  let digits :=
    match literal with
    | c :: r => if c =? 45 then r else literal
    | [] => literal
    end in
  match digits with
  | [] => None
  | _ :: _ =>
      if forallb is_digit digits && Nat.leb (length digits) 15
      then Some (if jseq literal (js "-0") then js "0" else literal)
      else None
  end.

(** ToString. *)
Definition toString (v : value) : M jsstring :=
  match v with
  | VString s => ret s
  | VUndefined => ret (js "undefined")
  | VNull => ret (js "null")
  | VBool true => ret (js "true")
  | VBool false => ret (js "false")
  | VNumber literal =>
      match integer_toString literal with
      | Some s => ret s
      | None => off_model
      end
  | VArray _ | VObject _ => off_model
  end.

(** What [element.textContent = v] stores: the property is a nullable
    string, [null] and [undefined] clear the text. *)
Definition toTextContent (v : value) : M jsstring :=
  match v with
  | VUndefined | VNull => ret (js "")
  | _ => toString v
  end.

(** What [element.innerHTML = v] stores: [null] is the empty string. *)
Definition toInnerHTML (v : value) : M jsstring :=
  match v with
  | VNull => ret (js "")
  | _ => toString v
  end.

(** [v == "literal"] for a literal that does not read as a number (the
    scripts compare with [null], [calc], [definition] and [wikipedia]).  An
    object converts to a primitive first: one built by [JSON.parse] converts
    through the [toString] it inherits, unless a member of that name hides
    it, and then the conversion throws. *)
Definition loose_eq (v : value) (literal : string) : M bool :=
  match v with
  | VString s => ret (jseq s (js literal))
  | VUndefined | VNull | VBool _ | VNumber _ => ret false
  | VObject members =>
      match lookup members (js "toString") with
      | None => ret (jseq (js "[object Object]") (js literal))
      | Some _ => throw (TypeError "toString")
      end
  | VArray _ => off_model
  end.

(** [v || fallback] where a string is expected. *)
Definition or_string (v : value) (fallback : jsstring) : M jsstring :=
  t <- truthy v ;;
  if t then toString v else ret fallback.

(** The string whose [length] is read next: reading [length] of
    [undefined] or [null] throws. *)
Definition as_string (v : value) : M jsstring :=
  match v with
  | VString s => ret s
  | VUndefined | VNull => throw (TypeError "length")
  | _ => off_model
  end.

(** What [await getUrlContents(url)] comes back with: the text of the
    response, or a rejected request. *)
Inductive transport : Type :=
| Body (text : jsstring)
| Failure.

Definition getUrlContents (url : jsstring) (response : transport) : M jsstring :=
  emit (Fetch url) ;;
  match response with
  | Body text => ret text
  | Failure => throw NetworkError
  end.

Definition div (className : string) (props : list (string * jsstring))
  (children : list element) : element :=
  Element "div" (("className"%string, js className) :: props) children.

(** An entry of the bang table: trigger, domain and URL template. *)
Record bang : Type := { t : jsstring; d : jsstring; u : jsstring }.

(** [bangs.find(item => item.t === cmd)]. *)
Definition find_bang (bangs : list bang) (cmd : jsstring) : option bang :=
  find (fun item => jseq (t item) cmd) bangs.

(** What the block under [if (query)] assigns: the title of the document,
    the text of the search box and the addresses of the tabs, by the [id]
    of each tab. *)
Record query_assignments : Type :=
  { document_title : jsstring;
    searchInput_value : jsstring;
    tab_hrefs : list (string * jsstring) }.

(** ** results.js *)

Module Results.
Section Script.

(** [window.location.search], the bang table (defined by another script of
    the page), the host name the URL parser finds in an address ([None]
    when [new URL] throws) and the text an error converts to. *)
Variable location_search : jsstring.
Variable bangs : list bang.
Variable hostname : jsstring -> option jsstring.
Variable error_toString : exn -> jsstring.

Definition urlParams : URLSearchParams := new_URLSearchParams location_search.
Definition safeSearch : jsstring := or_else (get urlParams (js "safe")) (js "strict").
Definition query : option jsstring := get urlParams (js "q").
Definition failed : jsstring := or_else (get urlParams (js "failed")) (js "false").
Definition encodedQuery : M jsstring := encodeURIComponent (nullable_toString query).
Definition page : M number :=
  match parseInt (or_else (get urlParams (js "page")) (js "0")) with
  | Some n => ret n
  | None => off_model
  end.
Definition language : jsstring := or_else (get urlParams (js "lang")) (js "en-GB").
Definition engine : jsstring := or_else (get urlParams (js "engine")) (js "duckduckgo").

Definition querySymbol : jsstring := js "{" ++ js "{" ++ js "{s}" ++ js "}" ++ js "}".

Definition matchBang (query : jsstring) : M bool :=
  match match_bang query with
  | Some (cmd, group2) =>
      let search := or_else group2 (js "") in
      match find_bang bangs cmd with
      | Some result =>
          (if jseq search (js "")
           then emit (Navigate (js "https://" ++ d result))
           else
             encoded <- encodeURIComponent search ;;
             emit (Navigate (replace (u result) querySymbol encoded))) ;;
          ret true
      | None => ret false
      end
  | None => ret false
  end.

(** [handleSearch(e)], given the text of the search box. *)
Definition handleSearch (searchInput_value : jsstring) : M bool :=
  emit PreventDefault ;;
  let query := trim searchInput_value in
  match query with
  | _ :: _ =>
      isBang <- matchBang query ;;
      if isBang then ret false
      else
        encoded <- encodeURIComponent query ;;
        emit (Navigate (js "?q=" ++ encoded)) ;;
        ret false
  | [] => ret false
  end.

Definition page_link (currentPage : number) (i : nat) : element :=
  let url := set (new_URLSearchParams location_search) (js "page")
                 (string_of_Z (Z.of_nat i)) in
  Element "li" []
    [Element "a"
       [("href"%string, js "?" ++ URLSearchParams_toString url);
        ("textContent"%string, string_of_Z (Z.of_nat i + 1));
        ("className"%string,
         if number_eq (Num (Z.of_nat i)) currentPage
         then js "page-btn active" else js "page-btn")]
       []].

(** [createPagination(totalPages, currentPage)]; the script calls it
    without arguments, that is with 9 and [page]. *)
Definition createPagination (totalPages : nat) (currentPage : number) : M unit :=
  let list := Element "ul" [("className"%string, js "pagination")]
                (map (page_link currentPage) (seq 0 (S totalPages))) in
  let container := div "pagination-container" [] [list] in
  emit (InsertAfter "results" container).

(** One turn of the loop over [searchResults]. *)
Definition render_result (item : value) : M unit :=
  href <- getProp item "href" ;;
  link_href <- toString href ;;
  rawTitle <- (v <- getProp item "title" ;; as_string v) ;;
  let link := Element "a"
    [("href"%string, link_href);
     ("textContent"%string,
      if Nat.ltb 60 (length rawTitle)
      then slice0 60 rawTitle ++ js "..."
      else rawTitle)] [] in
  let titleDiv := div "result-title" [] [link] in
  host <- match hostname link_href with
          | Some h => ret h
          | None => throw (TypeError "URL")
          end ;;
  let favicon := Element "img"
    [("className"%string, js "result-favicon");
     ("src"%string, js "https://icons.duckduckgo.com/ip3/" ++ host ++ js ".ico")] [] in
  url_text <- toTextContent href ;;
  let urlText := Element "span" [("textContent"%string, url_text)] [] in
  let urlDiv := div "result-url" [] [favicon; urlText] in
  rawDescription <- (v <- getProp item "body" ;; as_string v) ;;
  let snippetDiv := div "result-snippet"
    [("innerHTML"%string,
      if Nat.ltb 300 (length rawDescription)
      then slice0 300 rawDescription ++ js "..."
      else rawDescription)] [] in
  page_age <- getProp item "page_age" ;;
  dated <- truthy page_age ;;
  dateDiv <- (if dated then
                match page_age with
                | VString s =>
                    ret [div "result-date"
                           [("textContent"%string,
                             js "PUBLISHED " ++ fst (split_first 84 s))] []]
                | _ => throw (TypeError "split")
                end
              else ret []) ;;
  emit (AppendChild "results"
          (div "result" [] (dateDiv ++ [titleDiv; urlDiv; snippetDiv]))).

Definition infobox_item (children : list element) : element :=
  div "infobox-item" [] children.

(** The infobox, lines 182 to 233. *)
Definition render_infobox (infoboxData : value) : M unit :=
  shown <- truthy infoboxData ;;
  if shown then
    emit (SetDisplay "infobox" (js "block")) ;;
    infotype <- getProp infoboxData "infotype" ;;
    isCalc <- loose_eq infotype "calc" ;;
    if isCalc then
      emit (SetInnerHTML "infobox-title" (js "Calculator")) ;;
      equ <- (v <- getProp infoboxData "equ" ;; toString v) ;;
      res <- (v <- getProp infoboxData "result" ;; toString v) ;;
      emit (AppendChild "infobox"
              (infobox_item
                 [div "infobox-label" [("innerHTML"%string, equ ++ js " =")] [];
                  Element "div" [("innerHTML"%string, js "<h2>" ++ res ++ js "</h2>")] []]))
    else
      isDefinition <- loose_eq infotype "definition" ;;
      if isDefinition then
        emit (SetInnerHTML "infobox-title" (js "Dictionary")) ;;
        word <- (v <- getProp infoboxData "word" ;; toString v) ;;
        type <- (v <- getProp infoboxData "type" ;; toInnerHTML v) ;;
        definition <- (v <- getProp infoboxData "definition" ;; toInnerHTML v) ;;
        url <- (v <- getProp infoboxData "url" ;; toString v) ;;
        emit (AppendChild "infobox"
                (infobox_item
                   [Element "div" [("innerHTML"%string, js "<h2>" ++ word ++ js "</h2>")] [];
                    div "infobox-label" [("innerHTML"%string, type)] [];
                    Element "div" [("innerHTML"%string, definition)] [];
                    Element "b"
                      [("innerHTML"%string,
                        js "<br>There may be more definitions, see them all at <a href='"
                        ++ url ++ js "'>Wiktionary</a>")] []]))
      else
        isWikipedia <- loose_eq infotype "wikipedia" ;;
        if isWikipedia then
          title <- (v <- getProp infoboxData "title" ;; toInnerHTML v) ;;
          emit (SetInnerHTML "infobox-title" title) ;;
          info <- (v <- getProp infoboxData "info" ;; toInnerHTML v) ;;
          url <- (v <- getProp infoboxData "url" ;; toString v) ;;
          emit (AppendChild "infobox"
                  (infobox_item
                     [Element "div" [("innerHTML"%string, info)] [];
                      Element "div" [("style.marginTop"%string, js "10px")]
                        [Element "a"
                           [("href"%string, url);
                            ("textContent"%string, js "Read more on Wikipedia");
                            ("target"%string, js "_blank")] []]]))
        else ret tt
  else ret tt.

(** [searchResults.length], then the items the loop goes through. *)
Definition as_array (v : value) : M (list value) :=
  match v with
  | VArray items => ret items
  | VUndefined | VNull => throw (TypeError "length")
  | _ => off_model
  end.

(** Lines 125 to 233: what the script does with the parsed payload. *)
Definition render_data (page : number) (resultsData : value) : M unit :=
  searchResults <- getProp resultsData "results" ;;
  infobox <- getProp resultsData "infobox" ;;
  isNull <- loose_eq infobox "null" ;;
  let infoboxData := if isNull then VNull else infobox in
  emit (SetInnerHTML "results" (js "")) ;;
  items <- as_array searchResults ;;
  match items with
  | [] =>
      emit (SetInnerHTML "results"
              (js "There weren't any results found! Maybe try switching to another engine?"))
  | _ :: _ =>
      for_each render_result items ;;
      createPagination 9 page ;;
      render_infobox infoboxData
  end.

(** Lines 124 to 233. *)
Definition render (page : number) (resultsResponse : jsstring) : M unit :=
  resultsData <- JSON_parse resultsResponse ;;
  render_data page resultsData.

(** The address of the request, lines 109 and 110. *)
Definition url (encodedQuery : jsstring) (page : number) : jsstring :=
  js "https://unmappedstack.pythonanywhere.com/api/search?q=" ++ encodedQuery
  ++ js "&safe=" ++ safeSearch ++ js "&page=" ++ number_toString page
  ++ js "&language=" ++ language ++ js "&engine=" ++ engine.

(** The script from its first line to the end of the asynchronous function
    of lines 107 to 238.  The constants of lines 1 to 8 are evaluated
    first, outside the [try]; [response] is what the request comes back
    with. *)
Definition main (response : transport) : M unit :=
  encodedQuery <- encodedQuery ;;
  page <- page ;;
  try_catch
    (let url := url encodedQuery page in
     resultsResponse <- getUrlContents url response ;;
     if jseq resultsResponse (js "noquery") then
       emit (SetInnerHTML "results"
               (js "<p>There was an error, please try again: noquery</p>"))
     else if jseq resultsResponse (js "noresults") then
       if jseq failed (js "true") then
         again <- encodeURIComponent (nullable_toString query) ;;
         emit (SetInnerHTML "results"
                 (js "<h1>Woah!</h1><p>nilch has been getting unexpected amounts of traffic, thousands of searches within an hour or two! Unfortunately, this means API limits have been surpassed. <br><br><b>This should be fixed within one day</b>.</p><br><a href='https://duckduckgo.com/"
                  ++ again
                  ++ js "'>Search the same query on DuckDuckGo</a> until then?"))
       else
         (* window.location.url is not a property of Location: it reads as
            undefined, and the assignment creates a property of that name. *)
         emit (SetLocationProperty "url" (js "undefined" ++ js "&failed=true")) ;;
         render page resultsResponse
     else render page resultsResponse)
    (fun error =>
       emit (ConsoleError (js "Error loading search results:") error) ;;
       emit (SetInnerHTML "results"
               (js "<p>Error loading search results. Please try again.<br>"
                ++ error_toString error ++ js "</p>"))).

(** [window.location.pathname]. *)
Variable location_pathname : jsstring.

(** [changeLanguage()], given the value of the language select. *)
Definition changeLanguage (languageSelect_value : jsstring) : M unit :=
  let newLang := languageSelect_value in
  let urlParams := set (new_URLSearchParams location_search) (js "lang") newLang in
  emit (Navigate (location_pathname ++ js "?" ++ URLSearchParams_toString urlParams)).

(** [changeEngine()], given the value of the engine select. *)
Definition changeEngine (engineSelect_value : jsstring) : M unit :=
  let newEngine := engineSelect_value in
  let urlParams := set (new_URLSearchParams location_search) (js "engine") newEngine in
  emit (Navigate (location_pathname ++ js "?" ++ URLSearchParams_toString urlParams)).

Definition toggleSafeSearch : M unit :=
  let urlParams := new_URLSearchParams location_search in
  let current := or_else (get urlParams (js "safe")) (js "strict") in
  let newValue := if jseq current (js "strict") then js "off" else js "strict" in
  emit (Navigate (location_pathname ++ js "?"
                  ++ URLSearchParams_toString (set urlParams (js "safe") newValue))).

(** The text [updateSafeButton] gives the safe-search button, when the page
    has one. *)
Definition updateSafeButton : jsstring :=
  let urlParams := new_URLSearchParams location_search in
  let safeStatus := or_else (get urlParams (js "safe")) (js "strict") in
  js "Safe Search: " ++ (if jseq safeStatus (js "strict") then js "On" else js "Off").

(** The value [updateLanguageSelect] and [updateEngineSelect] give the two
    selects. *)
Definition updateLanguageSelect : jsstring := language.
Definition updateEngineSelect : jsstring := engine.

(** Lines 240 to 246; [None] when the query is missing or empty. *)
Definition query_block : M (option query_assignments) :=
  match query with
  | Some [] | None => ret None
  | Some query =>
      images <- encodeURIComponent query ;;
      videos <- encodeURIComponent query ;;
      maps <- encodeURIComponent query ;;
      ret (Some {| document_title := query ++ js " | nilch";
                   searchInput_value := query;
                   tab_hrefs :=
                     [("imagesTab"%string, js "images.html?q=" ++ images);
                      ("videosTab"%string, js "videos.html?q=" ++ videos);
                      ("mapsTab"%string, js "https://duck.com/?iaxm=maps&q=" ++ maps)] |})
  end.

End Script.
End Results.

(** ** The image script (the second part of results.js) *)

Module Images.
Section Script.

Variable location_search : jsstring.

Definition urlParams : URLSearchParams := new_URLSearchParams location_search.
Definition safeSearch : jsstring := or_else (get urlParams (js "safe")) (js "strict").
Definition query : option jsstring := get urlParams (js "q").
Definition encodedQuery : M jsstring := encodeURIComponent (nullable_toString query).

(** The values the loop [for (result = 0; result < searchResults.length;
    result++)] goes through: the items of an array, the units of a string,
    none for a value without [length].  An object with a member [length] is
    outside this model. *)
Definition loop_items (searchResults : value) : M (list value) :=
  match searchResults with
  | VArray items => ret items
  | VNull | VUndefined => throw (TypeError "length")
  | VBool _ | VNumber _ => ret []
  | VString s => ret (map (fun c => VString [c]) s)
  | VObject members =>
      match lookup members (js "length") with
      | None => ret []
      | Some _ => off_model
      end
  end.

Definition render_image (item : value) : M unit :=
  image <- (v <- getProp item "image" ;; toString v) ;;
  let img := Element "img" [("src"%string, image)] [] in
  let imageWrapper := div "image-wrapper" [] [img] in
  let link := Element "a" [("href"%string, image)] [imageWrapper] in
  emit (AppendChild "results" (div "image-item" [] [link])).

Definition url (encodedQuery : jsstring) : jsstring :=
  js "https://unmappedstack.pythonanywhere.com/api/images?q=" ++ encodedQuery
  ++ js "&safe=" ++ safeSearch.

(** The script up to the end of its asynchronous function. *)
Definition main (response : transport) : M unit :=
  encodedQuery <- encodedQuery ;;
  try_catch
    (let url := url encodedQuery in
     response <- getUrlContents url response ;;
     if jseq response (js "noquery") then
       emit (SetInnerHTML "results"
               (js "<p>There was an error, please try again: noquery</p>"))
     else if jseq response (js "noresults") then
       emit (SetInnerHTML "results"
               (js "<p>There was an error, please try again: noresults</p>"))
     else
       searchResults <- JSON_parse response ;;
       items <- loop_items searchResults ;;
       for_each render_image items ;;
       emit (SetInnerText "loading" (js "")))
    (fun error =>
       emit (ConsoleError (js "Error loading images:") error) ;;
       emit (SetInnerHTML "results" (js "<p>Error loading images. Please try again.</p>"))).

(** The block under [if (query)] of the image script. *)
Definition query_block : M (option query_assignments) :=
  match query with
  | Some [] | None => ret None
  | Some query =>
      web <- encodeURIComponent query ;;
      videos <- encodeURIComponent query ;;
      maps <- encodeURIComponent query ;;
      ret (Some {| document_title := query ++ js " | nilch";
                   searchInput_value := query;
                   tab_hrefs :=
                     [("webTab"%string, js "results.html?q=" ++ web);
                      ("videosTab"%string, js "videos.html?q=" ++ videos);
                      ("mapsTab"%string, js "https://duck.com/?iaxm=maps&q=" ++ maps)] |})
  end.

(** The bang table, defined by another script of the page. *)
Variable bangs : list bang.

(** [handleSearch(e)] of the image script, with the bang resolution written
    out in its body. *)
Definition handleSearch (searchInput_value : jsstring) : M bool :=
  emit PreventDefault ;;
  let query := trim searchInput_value in
  match query with
  | _ :: _ =>
      match match_bang query with
      | Some (cmd, group2) =>
          let search := or_else group2 (js "") in
          match find_bang bangs cmd with
          | Some result =>
              (if jseq search (js "")
               then emit (Navigate (js "https://" ++ d result))
               else
                 let querySymbol := js "{" ++ js "{" ++ js "{s}" ++ js "}" ++ js "}" in
                 encoded <- encodeURIComponent search ;;
                 emit (Navigate (replace (u result) querySymbol encoded))) ;;
              ret false
          | None =>
              encoded <- encodeURIComponent query ;;
              emit (Navigate (js "?q=" ++ encoded)) ;;
              ret false
          end
      | None =>
          encoded <- encodeURIComponent query ;;
          emit (Navigate (js "?q=" ++ encoded)) ;;
          ret false
      end
  | [] => ret false
  end.

End Script.
End Images.

(** ** videos.js *)

Module Videos.
Section Script.

(** [window.location.href] and the text an error converts to. *)
Variable location_href : jsstring.
Variable error_toString : exn -> jsstring.

Fixpoint from_first (c : N) (s : jsstring) : jsstring :=
  match s with
  | [] => []
  | x :: r => if x =? c then s else from_first c r
  end.

(** [window.location.search]: the query of the address with its question
    mark, empty when the address has no query or an empty one. *)
Definition location_search : jsstring :=
  match from_first 63 (fst (split_first 35 location_href)) with
  | [_] => []
  | q => q
  end.

Definition urlParams : URLSearchParams := new_URLSearchParams location_search.
Definition safeSearch : jsstring := or_else (get urlParams (js "safe")) (js "strict").
Definition query : option jsstring := get urlParams (js "q").
Definition encodedQuery : M jsstring := encodeURIComponent (nullable_toString query).
Definition page : M number :=
  match parseInt (or_else (get urlParams (js "page")) (js "0")) with
  | Some n => ret n
  | None => off_model
  end.

Definition page_link (currentPage : number) (i : nat) : element :=
  Element "li" []
    [Element "a"
       [("href"%string, location_href ++ js "&page=" ++ string_of_Z (Z.of_nat i));
        ("textContent"%string, string_of_Z (Z.of_nat i + 1));
        ("className"%string,
         if number_eq (Num (Z.of_nat i)) currentPage
         then js "page-btn active" else js "page-btn")]
       []].

Definition createPagination (totalPages : nat) (currentPage : number) : M unit :=
  let list := Element "ul" [("className"%string, js "pagination")]
                (map (page_link currentPage) (seq 0 (S totalPages))) in
  let container := div "pagination-container" [] [list] in
  emit (InsertAfter "videoResults" container).

(** The text of the template literal of lines 113 to 116. *)
Definition no_thumbnail_svg : jsstring :=
  js "<svg width='160' height='90' xmlns='http://www.w3.org/2000/svg'>" ++ [10]
    ++ js "                      <rect width='160' height='90' fill='#333'/>" ++ [10]
    ++ js "                      <text x='50%' y='50%' fill='#aaa' font-size='14' text-anchor='middle' dy='.3em'>No Thumbnail</text>" ++ [10]
    ++ js "                   </svg>".

(** The callback of [resultsData.forEach]. *)
Definition render_video (video : value) : M unit :=
  href <- (v <- getProp video "content" ;; or_string v (js "#")) ;;
  images <- getProp video "images" ;;
  large <- getProp images "large" ;;
  hasLarge <- truthy large ;;
  thumbSrc <- (if hasLarge then toString large
               else
                 svg <- encodeURIComponent no_thumbnail_svg ;;
                 ret (js "data:image/svg+xml;charset=UTF-8," ++ svg)) ;;
  let img := Element "img"
    [("className"%string, js "video-thumb"); ("src"%string, thumbSrc)] [] in
  titleText <- (v <- getProp video "title" ;; or_string v (js "Untitled Video")) ;;
  let title := div "video-title" [("textContent"%string, titleText)] [] in
  creator <- (v <- getProp video "uploader" ;; or_string v (js "Unknown Creator")) ;;
  publisher <- (v <- getProp video "publisher" ;; or_string v (js "Unknown Platform")) ;;
  let meta := div "video-meta"
    [("textContent"%string, creator ++ [32; 8226; 32] ++ publisher)] [] in
  let info := div "video-info" [] [title; meta] in
  emit (AppendChild "videoResults"
          (Element "a"
             [("className"%string, js "video-card");
              ("href"%string, href);
              ("target"%string, js "_blank")]
             [img; info])).

(** The receiver of [forEach]: any value but an array has no such method. *)
Definition forEach_items (resultsData : value) : M (list value) :=
  match resultsData with
  | VArray items => ret items
  | _ => throw (TypeError "forEach")
  end.

Definition url (encodedQuery : jsstring) (page : number) : jsstring :=
  js "https://unmappedstack.pythonanywhere.com/api/search?videos=true&q="
  ++ encodedQuery ++ js "&safe=" ++ safeSearch
  ++ js "&page=" ++ number_toString page.

(** The script up to the end of its asynchronous function. *)
Definition main (response : transport) : M unit :=
  encodedQuery <- encodedQuery ;;
  page <- page ;;
  try_catch
    (let url := url encodedQuery page in
     resultsResponse <- getUrlContents url response ;;
     if jseq resultsResponse (js "noquery") then
       emit (SetInnerHTML "results"
               (js "<p>There was an error, please try again: noquery</p>"))
     else
       (if jseq resultsResponse (js "noresults") then emit Reload else ret tt) ;;
       resultsData <- (parsed <- JSON_parse resultsResponse ;; getProp parsed "results") ;;
       emit (SetInnerHTML "videoResults" (js "")) ;;
       items <- forEach_items resultsData ;;
       for_each render_video items ;;
       createPagination 9 page)
    (fun error =>
       emit (ConsoleError (js "Error loading search results:") error) ;;
       emit (SetInnerHTML "results"
               (js "<p>Error loading search results. Please try again.<br>"
                ++ error_toString error ++ js "</p>"))).

End Script.
End Videos.

(** ** The script of the home page (its file name is not known) *)

Module Index.
Section Script.

Variable bangs : list bang.

(** [handleSearch(e)] of the home page: as in the image script, with the
    results page as the target. *)
Definition handleSearch (searchInput_value : jsstring) : M bool :=
  emit PreventDefault ;;
  let query := trim searchInput_value in
  match query with
  | _ :: _ =>
      match match_bang query with
      | Some (cmd, group2) =>
          let search := or_else group2 (js "") in
          match find_bang bangs cmd with
          | Some result =>
              (if jseq search (js "")
               then emit (Navigate (js "https://" ++ d result))
               else
                 let querySymbol := js "{" ++ js "{" ++ js "{s}" ++ js "}" ++ js "}" in
                 encoded <- encodeURIComponent search ;;
                 emit (Navigate (replace (u result) querySymbol encoded))) ;;
              ret false
          | None =>
              encoded <- encodeURIComponent query ;;
              emit (Navigate (js "results.html?q=" ++ encoded)) ;;
              ret false
          end
      | None =>
          encoded <- encodeURIComponent query ;;
          emit (Navigate (js "results.html?q=" ++ encoded)) ;;
          ret false
      end
  | [] => ret false
  end.

End Script.
End Index.

(** ** The theme switch (the same lines open every script) *)

Module Theme.

(** Whether the body carries the class [light-mode], the markup of the
    toggle button, and the [theme] entry of the local storage. *)
Record state : Type :=
  { light_mode : bool; toggle_html : jsstring; stored_theme : option jsstring }.

Definition sun : jsstring := js "<i class=" ++ [34] ++ js "bi bi-sun" ++ [34] ++ js "></i>".
Definition moon : jsstring := js "<i class=" ++ [34] ++ js "bi bi-moon" ++ [34] ++ js "></i>".

Definition toggleTheme (s : state) : state :=
  let light := negb (light_mode s) in
  if light
  then {| light_mode := light; toggle_html := sun; stored_theme := Some (js "light") |}
  else {| light_mode := light; toggle_html := moon; stored_theme := Some (js "dark") |}.

(** The block under [// Load saved theme], given whether the system asks
    for a light colour scheme. *)
Definition load_saved_theme (prefers_light : bool) (s : state) : state :=
  if (match stored_theme s with
      | Some v => jseq v (js "light")
      | None => false
      end) || prefers_light
  then {| light_mode := true; toggle_html := sun; stored_theme := stored_theme s |}
  else s.

End Theme.

(** ** Reading a trace *)

(** The effects that leave the page: an assignment to
    [window.location.href] and a reload. *)
Definition is_navigation (e : effect) : bool :=
  match e with
  | Navigate _ | Reload => true
  | _ => false
  end.

Definition navigations (tr : list effect) : list effect := filter is_navigation tr.

(** The effects on the infobox container and its title. *)
Definition touches_infobox (e : effect) : bool :=
  match e with
  | SetDisplay id _ | SetInnerHTML id _ | SetInnerText id _
  | AppendChild id _ | InsertAfter id _ =>
      String.eqb id "infobox" || String.eqb id "infobox-title"
  | _ => false
  end.

(** ** Well-formed strings *)

(** A Unicode scalar value: a code point that is not a surrogate. *)
Definition is_scalar (cp : N) : bool :=
  (cp <? 1114112) && negb (in_range 55296 57343 cp).

(** What one continuation byte adds to the code point being decoded. *)
Definition continue_with (cp b : N) : N := N.lor (N.shiftl cp 6) (N.land b 63).

(** The states of the UTF-8 decoder from which only scalar values can come
    out: whatever continuation bytes it accepts, the code point it ends on
    is one. *)
Fixpoint decoder_state_ok (needed : nat) (cp lower upper : N) : Prop :=
  match needed with
  | O => True
  | S n =>
      forall b, in_range lower upper b = true ->
        match n with
        | O => is_scalar (continue_with cp b) = true
        | S _ => decoder_state_ok n (continue_with cp b) 128 191
        end
  end.

(** A string without unpaired surrogates (and whose elements are code
    units). *)
Fixpoint is_well_formed (s : jsstring) : bool :=
  match s with
  | [] => true
  | c :: r =>
      if is_trail_surrogate c then false
      else if is_lead_surrogate c then
        match r with
        | d :: r' => is_trail_surrogate d && is_well_formed r'
        | [] => false
        end
      else (c <? 65536) && is_well_formed r
  end.

Definition params_well_formed (params : URLSearchParams) : bool :=
  forallb (fun kv => is_well_formed (fst kv) && is_well_formed (snd kv)) params.

(** The characters that can stand inside a serialized name or value: ASCII,
    and neither the ampersand nor the equals sign. *)
Definition form_safe (c : N) : bool :=
  (c <? 128) && negb (c =? 38) && negb (c =? 61).

(** What [encodeURIComponent] writes for one code point. *)
Definition uri_chunk (cp : N) : jsstring :=
  if uri_unescaped cp then [cp] else percent_octets (utf8_encode cp).

Definition is_fetch (e : effect) : bool :=
  match e with
  | Fetch _ => true
  | _ => false
  end.

(** The effects of a script that stays where it is and asks nothing. *)
Definition quiet (e : effect) : Prop := is_fetch e = false /\ is_navigation e = false.

(** The value the HTML parser reads for an attribute written between
    apostrophes, given the text that follows the opening one: the text up to
    the next apostrophe.  (Character references would be decoded on top of
    this; a percent-encoded address holds no ampersand.) *)
Definition quoted_attribute_value (after_quote : jsstring) : jsstring :=
  fst (split_first 39 after_quote).

(** What an element holds: the markup last assigned to [innerHTML] or the
    text last assigned to [innerText], and the children appended since. *)
Inductive content : Type :=
| Markup (html : jsstring)
| Text (text : jsstring).


(** The quotation mark of JSON texts. *)
Definition quote : jsstring := [34].

(** * Properties *)

Unset Implicit Arguments.

(** ** Strings and the computation monad *)

Lemma jseq_spec (a b : jsstring) : jseq a b = true <-> a = b.
Proof.
  unfold jseq. destruct (list_eq_dec N.eq_dec a b); split; congruence.
Qed.

Lemma jseq_refl (a : jsstring) : jseq a a = true.
Proof. now apply jseq_spec. Qed.

Lemma jseq_neq (a b : jsstring) : a <> b -> jseq a b = false.
Proof.
  intro H. destruct (jseq a b) eqn:E; [|reflexivity].
  apply jseq_spec in E. contradiction.
Qed.

Lemma bind_ok {A B} (tr : list effect) (a : A) (f : A -> M B) :
  bind (tr, Ok a) f = (tr ++ trace (f a), result (f a)).
Proof. unfold bind, trace, result. now destruct (f a). Qed.

Lemma bind_ret {A B} (a : A) (f : A -> M B) : bind (ret a) f = f a.
Proof. unfold bind, ret. now destruct (f a). Qed.

Lemma bind_emit {B} (e : effect) (f : unit -> M B) :
  bind (emit e) f = (e :: trace (f tt), result (f tt)).
Proof. unfold bind, emit, trace, result. now destruct (f tt). Qed.

Lemma bind_throw {A B} (e : exn) (f : A -> M B) : bind (throw e) f = throw e.
Proof. reflexivity. Qed.

Lemma bind_off_model {A B} (f : A -> M B) : bind off_model f = off_model.
Proof. reflexivity. Qed.

Lemma bind_assoc {A B C} (m : M A) (f : A -> M B) (g : B -> M C) :
  bind (bind m f) g = bind m (fun a => bind (f a) g).
Proof.
  destruct m as [tr [a| |]]; try reflexivity.
  unfold bind. destruct (f a) as [tr1 [b| |]]; try reflexivity.
  destruct (g b) as [tr2 o]. now rewrite app_assoc.
Qed.

(** ** Searching and replacing *)

Lemma is_prefix_app (p s : jsstring) : is_prefix p (p ++ s) = true.
Proof.
  induction p as [|a p IH]; simpl; [reflexivity|].
  now rewrite N.eqb_refl, IH.
Qed.

Lemma is_prefix_inv (p s : jsstring) :
  is_prefix p s = true -> s = p ++ skipn (length p) s.
Proof.
  revert s. induction p as [|a p IH]; intros s H; simpl in *; [reflexivity|].
  destruct s as [|b s]; [discriminate|].
  apply andb_true_iff in H. destruct H as [E H].
  apply N.eqb_eq in E. subst b. f_equal. now apply IH.
Qed.

Lemma indexOf_here (s pat : jsstring) :
  is_prefix pat s = true -> indexOf s pat = Some O.
Proof. intro H. destruct s; simpl; now rewrite H. Qed.

Lemma indexOf_found (pat pre post : jsstring) :
  exists n, indexOf (pre ++ pat ++ post) pat = Some n.
Proof.
  induction pre as [|c pre [n IH]].
  - exists O. simpl app. apply indexOf_here, is_prefix_app.
  - simpl. destruct (is_prefix pat (c :: pre ++ pat ++ post)).
    + now exists O.
    + exists (S n). now rewrite IH.
Qed.

Lemma indexOf_split (s pat : jsstring) (n : nat) :
  indexOf s pat = Some n ->
  s = firstn n s ++ pat ++ skipn (n + length pat) s /\ length (firstn n s) = n.
Proof.
  revert n. induction s as [|c s IH]; intros n H.
  - simpl in H. destruct (is_prefix pat []) eqn:P; [|discriminate].
    injection H as <-. split; [|reflexivity].
    now apply is_prefix_inv in P.
  - simpl in H. destruct (is_prefix pat (c :: s)) eqn:P.
    + injection H as <-. split; [|reflexivity]. now apply is_prefix_inv in P.
    + destruct (indexOf s pat) as [m|] eqn:E; [|discriminate].
      injection H as <-. destruct (IH m eq_refl) as [Hs Hl].
      simpl. split; [f_equal; exact Hs | now rewrite Hl].
Qed.

Lemma indexOf_first (pat pre post : jsstring) (n : nat) :
  indexOf (pre ++ pat ++ post) pat = Some n -> (n <= length pre)%nat.
Proof.
  revert n. induction pre as [|c pre IH]; intros n H.
  - simpl app in H. rewrite (indexOf_here _ _ (is_prefix_app pat post)) in H.
    injection H as <-. apply Nat.le_refl.
  - simpl in H. destruct (is_prefix pat (c :: pre ++ pat ++ post)).
    + injection H as <-. apply Nat.le_0_l.
    + destruct (indexOf (pre ++ pat ++ post) pat) as [m|] eqn:E; [|discriminate].
      injection H as <-. simpl. apply le_n_S. now apply IH.
Qed.

Lemma getSubstitution_plain (matched before after template : jsstring) :
  ~ In 36 template -> getSubstitution matched before after template = template.
Proof.
  induction template as [|c r IH]; intro H; simpl; [reflexivity|].
  destruct (c =? 36) eqn:E.
  - apply N.eqb_eq in E. subst c. exfalso. apply H. now left.
  - f_equal. apply IH. intro I. apply H. now right.
Qed.

Lemma replace_first (s pat rep : jsstring) (n : nat) :
  indexOf s pat = Some n -> ~ In 36 rep ->
  replace s pat rep = firstn n s ++ rep ++ skipn (n + length pat) s.
Proof.
  intros H D. unfold replace. rewrite H. now rewrite getSubstitution_plain.
Qed.

(** ** encodeURIComponent never writes a dollar sign *)

Lemma hex_digit_not_dollar (x : N) : hex_digit x <> 36.
Proof. unfold hex_digit. destruct (x <? 10); lia. Qed.

Lemma percent_octets_no_dollar (bs : list N) : ~ In 36 (percent_octets bs).
Proof.
  induction bs as [|b bs IH]; simpl; [tauto|].
  intros [E|[E|[E|I]]]; try discriminate; try (now apply hex_digit_not_dollar in E).
  now apply IH.
Qed.

Lemma uri_encode_no_dollar_bounded (n : nat) :
  forall s e, (length s <= n)%nat -> uri_encode s = Some e -> ~ In 36 e.
Proof.
  induction n as [|n IH]; intros s e L H.
  - destruct s; [|simpl in L; lia]. injection H as <-. tauto.
  - destruct s as [|c r]; [injection H as <-; tauto|].
    simpl in L. simpl in H.
    destruct (uri_unescaped c) eqn:U.
    + destruct (uri_encode r) as [e'|] eqn:E; [|discriminate].
      injection H as <-. intros [C|I].
      * subst c. discriminate.
      * revert I. apply (IH r); [lia | exact E].
    + destruct (is_trail_surrogate c); [discriminate|].
      destruct (is_lead_surrogate c).
      * destruct r as [|d r']; [discriminate|].
        destruct (is_trail_surrogate d); [|discriminate].
        destruct (uri_encode r') as [e'|] eqn:E; [|discriminate].
        injection H as <-. intro I. apply in_app_or in I. destruct I as [I|I].
        -- now apply percent_octets_no_dollar in I.
        -- revert I. apply (IH r'); [simpl in L; lia | exact E].
      * destruct (uri_encode r) as [e'|] eqn:E; [|discriminate].
        injection H as <-. intro I. apply in_app_or in I. destruct I as [I|I].
        -- now apply percent_octets_no_dollar in I.
        -- revert I. apply (IH r); [lia | exact E].
Qed.

Lemma uri_encode_no_dollar (s e : jsstring) : uri_encode s = Some e -> ~ In 36 e.
Proof. apply (uri_encode_no_dollar_bounded (length s)), Nat.le_refl. Qed.

(** ** The bang pattern *)

Lemma white_space_not_letter (w : N) :
  is_white_space w = true -> is_ascii_letter w = false.
Proof.
  intro W. apply not_true_is_false. intro L.
  unfold is_white_space, is_line_terminator, is_ascii_letter, in_range in *.
  rewrite ?orb_true_iff, ?andb_true_iff, ?N.eqb_eq, ?N.leb_le in *. lia.
Qed.

Lemma span_letters_all (l : jsstring) :
  forallb is_ascii_letter l = true -> span_letters l = (l, []).
Proof.
  induction l as [|c l IH]; simpl; [reflexivity|].
  intro H. apply andb_true_iff in H. destruct H as [C H].
  now rewrite C, IH.
Qed.

Lemma span_letters_stop (l : jsstring) (w : N) (r : jsstring) :
  forallb is_ascii_letter l = true -> is_ascii_letter w = false ->
  span_letters (l ++ w :: r) = (l, w :: r).
Proof.
  intros H W. induction l as [|c l IH]; simpl.
  - now rewrite W.
  - simpl in H. apply andb_true_iff in H. destruct H as [C H].
    now rewrite C, IH.
Qed.

Lemma match_bang_search (trigger : jsstring) (w : N) (remainder : jsstring) :
  trigger <> [] -> forallb is_ascii_letter trigger = true ->
  is_white_space w = true ->
  forallb (fun x => negb (is_line_terminator x)) remainder = true ->
  match_bang ([33] ++ trigger ++ [w] ++ remainder) = Some (trigger, Some remainder).
Proof.
  intros NE L W R. simpl.
  rewrite span_letters_stop; [|exact L|now apply white_space_not_letter].
  destruct trigger; [contradiction|]. now rewrite W, R.
Qed.

Lemma match_bang_bare (trigger : jsstring) :
  trigger <> [] -> forallb is_ascii_letter trigger = true ->
  match_bang ([33] ++ trigger) = Some (trigger, None).
Proof.
  intros NE L. simpl. rewrite span_letters_all by exact L.
  now destruct trigger.
Qed.

Lemma find_bang_first (before after : list bang) (entry : bang) (cmd : jsstring) :
  t entry = cmd -> (forall b, In b before -> t b <> cmd) ->
  find_bang (before ++ entry :: after) cmd = Some entry.
Proof.
  intros E H. unfold find_bang. induction before as [|b before IH]; simpl.
  - now rewrite E, jseq_refl.
  - rewrite jseq_neq; [|apply H; now left].
    apply IH. intros b' I. apply H. now right.
Qed.

Lemma find_bang_absent (bangs : list bang) (cmd : jsstring) :
  (forall b, In b bangs -> t b <> cmd) -> find_bang bangs cmd = None.
Proof.
  intro H. unfold find_bang. induction bangs as [|b bangs IH]; simpl; [reflexivity|].
  rewrite jseq_neq; [|apply H; now left].
  apply IH. intros b' I. apply H. now right.
Qed.

Lemma replace_at_first_occurrence (s pat rep pre post : jsstring) :
  s = pre ++ pat ++ post ->
  (forall pre' post', s = pre' ++ pat ++ post' -> (length pre <= length pre')%nat) ->
  ~ In 36 rep ->
  replace s pat rep = pre ++ rep ++ post.
Proof.
  intros E F D.
  destruct (indexOf_found pat pre post) as [n Hn]. rewrite <- E in Hn.
  rewrite (replace_first _ _ _ _ Hn D).
  destruct (indexOf_split _ _ _ Hn) as [Hs Hl].
  assert (n = length pre) as ->.
  { apply Nat.le_antisymm.
    - apply (indexOf_first pat pre post). now rewrite <- E.
    - rewrite <- Hl. now apply (F _ _ Hs). }
  subst s. rewrite firstn_app, Nat.sub_diag, firstn_all. simpl firstn.
  rewrite app_nil_r. rewrite skipn_app, skipn_all2 by lia.
  replace (length pre + length pat - length pre)%nat with (length pat) by lia.
  now rewrite skipn_app, skipn_all, Nat.sub_diag.
Qed.

(** ** Bang resolution *)

(** C1: a query [!<trigger>\s<remainder>] with a non-empty remainder, whose
    trigger is in the bang table (the entry [find] returns is the first one
    with that trigger) and whose template holds the placeholder, makes
    [matchBang] navigate to the template with its (first) placeholder
    replaced by the percent-encoded remainder, and return [true]. *)
Theorem matchBang_redirects_to_template
  (before after : list bang) (entry : bang) (trigger : jsstring) (w : N)
  (remainder encoded pre post : jsstring) :
  trigger <> [] -> forallb is_ascii_letter trigger = true ->
  is_white_space w = true ->
  remainder <> [] ->
  forallb (fun x => negb (is_line_terminator x)) remainder = true ->
  t entry = trigger -> (forall b, In b before -> t b <> trigger) ->
  u entry = pre ++ Results.querySymbol ++ post ->
  (forall pre' post', u entry = pre' ++ Results.querySymbol ++ post' ->
                      (length pre <= length pre')%nat) ->
  uri_encode remainder = Some encoded ->
  Results.matchBang (before ++ entry :: after) ([33] ++ trigger ++ [w] ++ remainder)
  = ([Navigate (pre ++ encoded ++ post)], Ok true).
Proof.
  intros NE L W RNE R T B U F E. unfold Results.matchBang.
  rewrite match_bang_search by assumption.
  rewrite find_bang_first by assumption.
  destruct remainder as [|c r]; [contradiction|].
  unfold or_else, encodeURIComponent. rewrite E.
  change (jseq (c :: r) (js "")) with false. cbv iota.
  rewrite bind_ret.
  rewrite (replace_at_first_occurrence _ _ _ _ _ U F (uri_encode_no_dollar _ _ E)).
  reflexivity.
Qed.

(** The scenario of the claim: [!gh nilch] with the GitHub entry. *)
Lemma matchBang_redirects_to_template_witness :
  Results.matchBang
    [{| t := js "gh"; d := js "github.com";
        u := js "https://github.com/search?q={{{s}}}" |}]
    (js "!gh nilch")
  = ([Navigate (js "https://github.com/search?q=nilch")], Ok true).
Proof.
  apply (matchBang_redirects_to_template [] []
           {| t := js "gh"; d := js "github.com";
              u := js "https://github.com/search?q={{{s}}}" |}
           (js "gh") 32 (js "nilch") (js "nilch")
           (js "https://github.com/search?q=") []).
  - discriminate.
  - reflexivity.
  - reflexivity.
  - discriminate.
  - reflexivity.
  - reflexivity.
  - intros b [].
  - reflexivity.
  - intros pre' post' E.
    apply (indexOf_first Results.querySymbol pre' post').
    rewrite <- E. reflexivity.
  - reflexivity.
Defined.

(** C7: when the trigger of a bang query is not in the table, [matchBang]
    returns [false] without navigating, and [handleSearch] then navigates to
    the search page with the whole query, its exclamation mark included, as
    the percent-encoded value of [q]. *)
Theorem handleSearch_unknown_trigger
  (bangs : list bang) (value trigger tail encoded : jsstring) :
  trim value = [33] ++ trigger ++ tail ->
  trigger <> [] -> forallb is_ascii_letter trigger = true ->
  (tail = [] \/
   exists w remainder, tail = w :: remainder /\ is_white_space w = true /\
     forallb (fun x => negb (is_line_terminator x)) remainder = true) ->
  (forall b, In b bangs -> t b <> trigger) ->
  uri_encode (trim value) = Some encoded ->
  Results.matchBang bangs (trim value) = ([], Ok false) /\
  Results.handleSearch bangs value
  = ([PreventDefault; Navigate (js "?q=" ++ encoded)], Ok false) /\
  exists rest, encoded = 33 :: rest.
Proof.
  intros Q NE L G A E.
  assert (Results.matchBang bangs (trim value) = ([], Ok false)) as MB.
  { unfold Results.matchBang. rewrite Q.
    destruct G as [->|(w & remainder & -> & W & R)].
    - rewrite app_nil_r, match_bang_bare by assumption.
      now rewrite find_bang_absent.
    - change (w :: remainder) with ([w] ++ remainder).
      rewrite match_bang_search by assumption.
      now rewrite find_bang_absent. }
  split; [exact MB|]. split.
  - unfold Results.handleSearch. rewrite bind_emit.
    destruct (trim value) as [|c q] eqn:TV; [discriminate|].
    rewrite MB. change (@nil effect, Ok false) with (ret false).
    rewrite bind_ret. unfold encodeURIComponent. rewrite E. reflexivity.
  - rewrite Q in E. simpl in E.
    destruct (uri_encode (trigger ++ tail)); [|discriminate].
    injection E as <-. eauto.
Qed.

Lemma handleSearch_unknown_trigger_witness :
  Results.matchBang
    [{| t := js "gh"; d := js "github.com";
        u := js "https://github.com/search?q={{{s}}}" |}]
    (trim (js " !zz a b ")) = ([], Ok false) /\
  Results.handleSearch
    [{| t := js "gh"; d := js "github.com";
        u := js "https://github.com/search?q={{{s}}}" |}]
    (js " !zz a b ")
  = ([PreventDefault; Navigate (js "?q=" ++ js "!zz%20a%20b")], Ok false) /\
  exists rest, js "!zz%20a%20b" = 33 :: rest.
Proof.
  apply (handleSearch_unknown_trigger _ (js " !zz a b ") (js "zz") (js " a b")
           (js "!zz%20a%20b")).
  - reflexivity.
  - discriminate.
  - reflexivity.
  - right. exists 32, (js "a b"). repeat split; reflexivity.
  - intros b [<-|[]]. discriminate.
  - reflexivity.
Defined.

(** ** The parameters of an address are well-formed strings

    The values [URLSearchParams] hands out come from the UTF-8 decoder, which
    only produces scalar values; [encodeURIComponent] therefore never throws
    on them, and the constant [encodedQuery] of each script always has a
    value. *)

Ltac Zify.zify_post_hook ::= Z.to_euclidean_division_equations.

Lemma lor_shiftl_low (a x : N) : x < 64 -> N.lor (N.shiftl a 6) x = a * 64 + x.
Proof.
  intro H.
  assert (N.land (N.shiftl a 6) x = 0) as D.
  { apply N.bits_inj_0. intro n. rewrite N.land_spec.
    destruct (N.lt_ge_cases n 6) as [L|G].
    - now rewrite N.shiftl_spec_low.
    - destruct (N.eq_dec x 0) as [->|NZ]; [now rewrite N.bits_0, andb_false_r|].
      rewrite (N.bits_above_log2 x n), andb_false_r; [reflexivity|].
      apply N.lt_le_trans with 6; [|exact G].
      apply N.log2_lt_pow2; [lia|exact H]. }
  rewrite <- N.lxor_lor, <- N.add_nocarry_lxor by exact D.
  now rewrite N.shiftl_mul_pow2.
Qed.

Lemma continue_with_value (cp b : N) : continue_with cp b = cp * 64 + b mod 64.
Proof.
  unfold continue_with. change 63 with (N.ones 6). rewrite N.land_ones.
  apply lor_shiftl_low. change (2 ^ 6) with 64. lia.
Qed.

Lemma in_range_bounds (lo hi c : N) : in_range lo hi c = true <-> lo <= c /\ c <= hi.
Proof. unfold in_range. rewrite andb_true_iff, !N.leb_le. tauto. Qed.

Lemma is_scalar_spec (cp : N) :
  is_scalar cp = true <-> cp < 1114112 /\ (cp < 55296 \/ 57343 < cp).
Proof.
  unfold is_scalar. rewrite andb_true_iff, negb_true_iff, N.ltb_lt.
  destruct (in_range 55296 57343 cp) eqn:E.
  - apply in_range_bounds in E. split; [intros [_ H]; discriminate | lia].
  - split; [intros [H _]|tauto]. split; [exact H|].
    destruct (N.lt_ge_cases cp 55296) as [L|G]; [now left|right].
    destruct (N.lt_ge_cases 57343 cp) as [L'|G']; [exact L'|].
    assert (in_range 55296 57343 cp = true) by (apply in_range_bounds; lia).
    congruence.
Qed.

Lemma two_byte_state (b : N) :
  in_range 194 223 b = true -> decoder_state_ok 1 (N.land b 31) 128 191.
Proof.
  intros B c C. apply in_range_bounds in B, C.
  apply is_scalar_spec. rewrite continue_with_value.
  change 31 with (N.ones 5). rewrite N.land_ones. change (2 ^ 5) with 32. lia.
Qed.

Lemma three_byte_state (b : N) :
  in_range 224 239 b = true ->
  decoder_state_ok 2 (N.land b 15)
    (if b =? 224 then 160 else 128) (if b =? 237 then 159 else 191).
Proof.
  intros B c1 C1 c2 C2. apply in_range_bounds in B, C1, C2.
  apply is_scalar_spec. rewrite !continue_with_value.
  change 15 with (N.ones 4). rewrite N.land_ones. change (2 ^ 4) with 16.
  destruct (N.eqb_spec b 224), (N.eqb_spec b 237); lia.
Qed.

Lemma four_byte_state (b : N) :
  in_range 240 244 b = true ->
  decoder_state_ok 3 (N.land b 7)
    (if b =? 240 then 144 else 128) (if b =? 244 then 143 else 191).
Proof.
  intros B c1 C1 c2 C2 c3 C3. apply in_range_bounds in B, C1, C2, C3.
  apply is_scalar_spec. rewrite !continue_with_value.
  change 7 with (N.ones 3). rewrite N.land_ones. change (2 ^ 3) with 8.
  destruct (N.eqb_spec b 240), (N.eqb_spec b 244); lia.
Qed.

Lemma utf8_decode_from_scalar (bs : list N) :
  forall needed cp lower upper,
    decoder_state_ok needed cp lower upper ->
    Forall (fun c => is_scalar c = true) (utf8_decode_from needed cp lower upper bs).
Proof.
  induction bs as [|b r IH]; intros needed cp lower upper OK.
  - destruct needed; repeat constructor.
  - cbn [utf8_decode_from].
    set (start := if b <? 128 then _ else _).
    assert (Forall (fun c => is_scalar c = true) start) as S.
    { subst start. destruct (N.ltb_spec b 128).
      - constructor; [apply is_scalar_spec; lia | now apply IH].
      - destruct (in_range 194 223 b) eqn:R2; [apply IH, two_byte_state, R2|].
        destruct (in_range 224 239 b) eqn:R3; [apply IH, three_byte_state, R3|].
        destruct (in_range 240 244 b) eqn:R4; [apply IH, four_byte_state, R4|].
        constructor; [reflexivity | now apply IH]. }
    destruct needed as [|n]; [exact S|].
    destruct (in_range lower upper b) eqn:R.
    + specialize (OK b R). fold (continue_with cp b).
      destruct n as [|n]; [constructor; [exact OK | now apply IH] | now apply IH].
    + constructor; [reflexivity | exact S].
Qed.

Lemma uri_unescaped_ascii (c : N) : uri_unescaped c = true -> c < 128.
Proof.
  unfold uri_unescaped, is_ascii_letter, is_digit, in_range. simpl existsb.
  rewrite ?orb_true_iff, ?andb_true_iff, ?N.eqb_eq, ?N.leb_le. lia.
Qed.

Lemma uri_encode_single (c : N) (r : jsstring) :
  is_trail_surrogate c = false -> is_lead_surrogate c = false ->
  uri_encode (c :: r)
  = if uri_unescaped c then option_map (cons c) (uri_encode r)
    else option_map (app (percent_octets (utf8_encode c))) (uri_encode r).
Proof. intros T L. cbn [uri_encode]. now rewrite T, L. Qed.

Lemma uri_encode_pair (hi lo : N) (r : jsstring) :
  uri_unescaped hi = false -> is_trail_surrogate hi = false ->
  is_lead_surrogate hi = true -> is_trail_surrogate lo = true ->
  uri_encode (hi :: lo :: r)
  = option_map (app (percent_octets (utf8_encode (surrogate_pair hi lo)))) (uri_encode r).
Proof. intros U T L T'. cbn [uri_encode]. now rewrite U, T, L, T'. Qed.

Lemma uri_encode_scalars (cps : list N) :
  Forall (fun c => is_scalar c = true) cps ->
  exists e, uri_encode (flat_map utf16_encode cps) = Some e.
Proof.
  induction 1 as [|cp cps S _ [e IH]]; [now exists []|].
  apply is_scalar_spec in S. cbn [flat_map]. unfold utf16_encode at 1.
  destruct (N.ltb_spec cp 65536) as [L|G].
  - cbn [app]. rewrite uri_encode_single, IH.
    + destruct (uri_unescaped cp); simpl; eauto.
    + apply not_true_is_false. intro T. apply in_range_bounds in T. lia.
    + apply not_true_is_false. intro T. apply in_range_bounds in T. lia.
  - set (hi := 55296 + N.shiftr (cp - 65536) 10).
    set (lo := 56320 + N.land (cp - 65536) 1023).
    assert (55296 <= hi <= 56319) as HI.
    { subst hi. rewrite N.shiftr_div_pow2. change (2 ^ 10) with 1024. lia. }
    assert (56320 <= lo <= 57343) as LO.
    { subst lo. change 1023 with (N.ones 10). rewrite N.land_ones.
      change (2 ^ 10) with 1024. lia. }
    cbn [app]. rewrite uri_encode_pair, IH.
    + simpl. eauto.
    + apply not_true_is_false. intro T. apply uri_unescaped_ascii in T. lia.
    + apply not_true_is_false. intro T. apply in_range_bounds in T. lia.
    + apply in_range_bounds. lia.
    + apply in_range_bounds. lia.
Qed.

Lemma form_decode_well_formed (bs : list N) :
  exists e, uri_encode (form_decode bs) = Some e.
Proof.
  unfold form_decode, utf8_decode.
  apply uri_encode_scalars, utf8_decode_from_scalar. exact I.
Qed.

Lemma get_In (params : URLSearchParams) (name v : jsstring) :
  get params name = Some v -> exists k, In (k, v) params.
Proof.
  induction params as [|[k w] params IH]; simpl; [discriminate|].
  destruct (jseq k name).
  - intro H. injection H as ->. exists k. now left.
  - intro H. destruct (IH H) as [k' I]. exists k'. now right.
Qed.

Lemma get_well_formed (init name v : jsstring) :
  get (new_URLSearchParams init) name = Some v -> exists e, uri_encode v = Some e.
Proof.
  intro H. destruct (get_In _ _ _ H) as [k I].
  unfold new_URLSearchParams in I. apply in_flat_map in I.
  destruct I as [sequence [_ I]]. destruct sequence as [|c sequence]; [destruct I|].
  destruct (split_first 61 (c :: sequence)) as [n w]. destruct I as [I|[]].
  injection I as _ <-. apply form_decode_well_formed.
Qed.

Lemma nullable_well_formed (init name : jsstring) :
  exists e, uri_encode (nullable_toString (get (new_URLSearchParams init) name)) = Some e.
Proof.
  destruct (get (new_URLSearchParams init) name) as [v|] eqn:G.
  - exact (get_well_formed _ _ _ G).
  - simpl. eexists. reflexivity.
Qed.

(** Line 5 of each script never throws. *)
Lemma encodedQuery_defined (search : jsstring) :
  exists encoded,
    uri_encode (nullable_toString (Results.query search)) = Some encoded
    /\ Results.encodedQuery search = ret encoded.
Proof.
  destruct (nullable_well_formed search (js "q")) as [e E].
  exists e. split; [exact E|].
  unfold Results.encodedQuery, Results.query, Results.urlParams, encodeURIComponent.
  now rewrite E.
Qed.

Lemma images_encodedQuery_defined (search : jsstring) :
  exists encoded,
    uri_encode (nullable_toString (Images.query search)) = Some encoded
    /\ Images.encodedQuery search = ret encoded.
Proof.
  destruct (nullable_well_formed search (js "q")) as [e E].
  exists e. split; [exact E|].
  unfold Images.encodedQuery, Images.query, Images.urlParams, encodeURIComponent.
  now rewrite E.
Qed.

Lemma videos_encodedQuery_defined (href : jsstring) :
  exists encoded,
    uri_encode (nullable_toString (Videos.query href)) = Some encoded
    /\ Videos.encodedQuery href = ret encoded.
Proof.
  destruct (nullable_well_formed (Videos.location_search href) (js "q")) as [e E].
  exists e. split; [exact E|].
  unfold Videos.encodedQuery, Videos.query, Videos.urlParams, encodeURIComponent.
  now rewrite E.
Qed.

(** ** JSON.parse always answers

    The fuel [JSON_parse] starts with is enough for every text: it returns
    a value or throws, and never leaves the model. *)

Lemma skip_ws_length (s : jsstring) : (length (skip_ws s) <= length s)%nat.
Proof.
  induction s as [|c r IH]; simpl; [lia|].
  destruct ((c =? 9) || (c =? 10) || (c =? 13) || (c =? 32)); simpl; lia.
Qed.

Lemma parsed_cons_length (c : N) (p : option (jsstring * jsstring)) (x r : jsstring) :
  parsed_cons c p = Some (x, r) -> exists x', p = Some (x', r).
Proof.
  destruct p as [[x' r']|]; simpl; [|discriminate].
  intro H. injection H as _ <-. eauto.
Qed.

Lemma json_string_length_bounded (n : nat) :
  forall s x r, (length s <= n)%nat -> json_string s = Some (x, r) ->
                (length r < length s)%nat.
Proof.
  induction n as [|n IH]; intros s x r L H.
  - destruct s; [discriminate | simpl in L; lia].
  - destruct s as [|c s]; [discriminate|]. simpl in L. cbn [json_string] in H.
    destruct (c =? 34); [injection H as _ <-; simpl; lia|].
    destruct (c =? 92).
    + destruct s as [|e s]; [discriminate|].
      destruct (e =? 117).
      * destruct s as [|h1 [|h2 [|h3 [|h4 s]]]]; try discriminate.
        destruct (hex4 h1 h2 h3 h4); [|discriminate].
        apply parsed_cons_length in H. destruct H as [x' H].
        apply IH in H; simpl in *; lia.
      * destruct (json_escape e); [|discriminate].
        apply parsed_cons_length in H. destruct H as [x' H].
        apply IH in H; simpl in *; lia.
    + destruct (c <? 32); [discriminate|].
      apply parsed_cons_length in H. destruct H as [x' H].
      apply IH in H; simpl in *; lia.
Qed.

Lemma json_string_length (s x r : jsstring) :
  json_string s = Some (x, r) -> (length r < length s)%nat.
Proof. apply (json_string_length_bounded (length s)). lia. Qed.

Lemma span_digits_length (s : jsstring) :
  (length (snd (span_digits s)) <= length s)%nat.
Proof.
  induction s as [|c r IH]; simpl; [lia|].
  destruct (is_digit c); [|simpl; lia].
  destruct (span_digits r). simpl in *. lia.
Qed.

Lemma json_number_length (s x r : jsstring) :
  json_number s = Some (x, r) -> (length r < length s)%nat.
Proof.
  unfold json_number. intro H.
  repeat match type of H with
         | context [span_digits ?t] =>
             let E := fresh "E" in
             pose proof (span_digits_length t);
             destruct (span_digits t) as [? ?] eqn:E; cbn [snd] in *
         | context [if ?c then _ else _] => destruct c
         | context [match ?l with [] => _ | _ :: _ => _ end] => destruct l
         | (let (_, _) := ?p in _) = _ => destruct p
         | None = Some _ => discriminate H
         | Some _ = Some _ => injection H as <- <-
         end; simpl in *; try lia; try discriminate.
Qed.

Lemma skipn_length_le {A} (n : nat) (l : list A) : (length (skipn n l) <= length l - n)%nat.
Proof. rewrite length_skipn. lia. Qed.

Lemma json_parse_fuel (fuel : nat) :
  forall m s, (fuel_needed m s <= fuel)%nat ->
    json_parse fuel m s <> OutOfFuel /\
    forall v r, json_parse fuel m s = Parsed v r -> (length r < length s)%nat.
Proof.
  induction fuel as [|fuel IH]; intros m s F.
  - destruct m; simpl in F; lia.
  - destruct m; cbn [json_parse]; unfold fuel_needed in F.
    + pose proof (skip_ws_length s) as W.
      destruct (skip_ws s) as [|c r]; [split; [discriminate|intros; discriminate]|].
      simpl in W.
      destruct (c =? 91).
      { pose proof (skip_ws_length r) as W'.
        destruct (skip_ws r) as [|d r']; [split; [discriminate|intros; discriminate]|].
        simpl in W'.
        destruct (d =? 93).
        - split; [discriminate|]. intros v r0 H. injection H as _ <-. lia.
        - destruct (IH (MElements []) r) as [NF L]; [simpl; lia|].
          split; [exact NF|]. intros v r0 H. apply L in H. lia. }
      destruct (c =? 123).
      { pose proof (skip_ws_length r) as W'.
        destruct (skip_ws r) as [|d r']; [split; [discriminate|intros; discriminate]|].
        simpl in W'.
        destruct (d =? 125).
        - split; [discriminate|]. intros v r0 H. injection H as _ <-. lia.
        - destruct (IH (MMembers []) r) as [NF L]; [simpl; lia|].
          split; [exact NF|]. intros v r0 H. apply L in H. lia. }
      destruct (c =? 34).
      { destruct (json_string r) as [[str r']|] eqn:S;
          [|split; [discriminate|intros; discriminate]].
        apply json_string_length in S.
        split; [discriminate|]. intros v r0 H. injection H as _ <-. lia. }
      destruct (is_prefix (js "true") (c :: r)) eqn:PT.
      { split; [discriminate|]. intros v r0 H. injection H as _ <-.
        pose proof (skipn_length_le 4 (c :: r)). simpl length in *. lia. }
      destruct (is_prefix (js "false") (c :: r)) eqn:PF.
      { split; [discriminate|]. intros v r0 H. injection H as _ <-.
        pose proof (skipn_length_le 5 (c :: r)). simpl length in *. lia. }
      destruct (is_prefix (js "null") (c :: r)) eqn:PN.
      { split; [discriminate|]. intros v r0 H. injection H as _ <-.
        pose proof (skipn_length_le 4 (c :: r)). simpl length in *. lia. }
      destruct (json_number (c :: r)) as [[lit r']|] eqn:S;
        [|split; [discriminate|intros; discriminate]].
      apply json_number_length in S.
      split; [discriminate|]. intros v r0 H. injection H as _ <-. simpl length in *. lia.
    + destruct (IH MValue s) as [NF L]; [simpl; lia|].
      destruct (json_parse fuel MValue s) as [v r| |];
        [|split; [discriminate|intros; discriminate]|contradiction].
      specialize (L v r eq_refl).
      pose proof (skip_ws_length r) as W.
      destruct (skip_ws r) as [|d r']; [split; [discriminate|intros; discriminate]|].
      simpl in W.
      destruct (d =? 44).
      { destruct (IH (MElements (v :: acc)) r') as [NF' L']; [simpl; lia|].
        split; [exact NF'|]. intros v0 r0 H. apply L' in H. lia. }
      destruct (d =? 93); [|split; [discriminate|intros; discriminate]].
      split; [discriminate|]. intros v0 r0 H. injection H as _ <-. lia.
    + pose proof (skip_ws_length s) as W.
      destruct (skip_ws s) as [|q r]; [split; [discriminate|intros; discriminate]|].
      simpl in W.
      destruct (q =? 34); [|split; [discriminate|intros; discriminate]].
      destruct (json_string r) as [[key r1]|] eqn:S;
        [|split; [discriminate|intros; discriminate]].
      apply json_string_length in S.
      pose proof (skip_ws_length r1) as W1.
      destruct (skip_ws r1) as [|colon r2]; [split; [discriminate|intros; discriminate]|].
      simpl in W1.
      destruct (colon =? 58); [|split; [discriminate|intros; discriminate]].
      destruct (IH MValue r2) as [NF L]; [simpl; lia|].
      destruct (json_parse fuel MValue r2) as [v r3| |];
        [|split; [discriminate|intros; discriminate]|contradiction].
      specialize (L v r3 eq_refl).
      pose proof (skip_ws_length r3) as W3.
      destruct (skip_ws r3) as [|d r4]; [split; [discriminate|intros; discriminate]|].
      simpl in W3.
      destruct (d =? 44).
      { destruct (IH (MMembers ((key, v) :: acc)) r4) as [NF' L']; [simpl; lia|].
        split; [exact NF'|]. intros v0 r0 H. apply L' in H. lia. }
      destruct (d =? 125); [|split; [discriminate|intros; discriminate]].
      split; [discriminate|]. intros v0 r0 H. injection H as _ <-. lia.
Qed.

Lemma JSON_parse_on_model (text : jsstring) :
  (exists v, JSON_parse text = ret v) \/ JSON_parse text = throw (SyntaxError text).
Proof.
  unfold JSON_parse.
  destruct (json_parse_fuel (2 * length text + 2) MValue text) as [NF _];
    [simpl; lia|].
  destruct (json_parse (2 * length text + 2) MValue text) as [v r| |];
    [|now right|contradiction].
  destruct (skip_ws r); [left; eauto | now right].
Qed.

(** ** The web script: request and failure handling *)

Lemma trace_try_catch_cons (e : effect) (tr : list effect) (o : outcome unit)
  (handler : exn -> M unit) :
  exists rest, trace (try_catch (e :: tr, o) handler) = e :: rest.
Proof.
  destruct o as [[]|x|]; simpl; eauto.
  destruct (handler x). simpl. eauto.
Qed.

Lemma main_dispatches (search : jsstring) (hostname : jsstring -> option jsstring)
  (error_toString : exn -> jsstring) (response : transport) (encoded : jsstring) (pg : number) :
  Results.encodedQuery search = ret encoded -> Results.page search = ret pg ->
  exists rest,
    trace (Results.main search hostname error_toString response)
    = Fetch (Results.url search encoded pg) :: rest.
Proof.
  intros E P. unfold Results.main. rewrite E, P, !bind_ret.
  unfold getUrlContents. rewrite bind_assoc, bind_emit.
  apply trace_try_catch_cons.
Qed.

Lemma getUrlContents_body (url text : jsstring) :
  getUrlContents url (Body text) = ([Fetch url], Ok text).
Proof. reflexivity. Qed.

Lemma JSON_parse_noresults :
  JSON_parse (js "noresults") = throw (SyntaxError (js "noresults")).
Proof. reflexivity. Qed.

Lemma main_without_marker
  (search : jsstring) (hostname : jsstring -> option jsstring)
  (error_toString : exn -> jsstring) (encoded : jsstring) (pg : number) :
  Results.failed search <> js "true" ->
  Results.encodedQuery search = ret encoded -> Results.page search = ret pg ->
  Results.main search hostname error_toString (Body (js "noresults"))
  = ([Fetch (Results.url search encoded pg);
      SetLocationProperty "url" (js "undefined&failed=true");
      ConsoleError (js "Error loading search results:") (SyntaxError (js "noresults"));
      SetInnerHTML "results"
        (js "<p>Error loading search results. Please try again.<br>"
         ++ error_toString (SyntaxError (js "noresults")) ++ js "</p>")],
     Ok tt)
  /\ navigations (trace (Results.main search hostname error_toString (Body (js "noresults")))) = [].
Proof.
  intros F E P.
  assert (Results.main search hostname error_toString (Body (js "noresults"))
          = ([Fetch (Results.url search encoded pg);
              SetLocationProperty "url" (js "undefined&failed=true");
              ConsoleError (js "Error loading search results:") (SyntaxError (js "noresults"));
              SetInnerHTML "results"
                (js "<p>Error loading search results. Please try again.<br>"
                 ++ error_toString (SyntaxError (js "noresults")) ++ js "</p>")],
             Ok tt)) as H.
  { unfold Results.main. rewrite E, P, !bind_ret.
    rewrite getUrlContents_body, bind_ok.
    change (jseq (js "noresults") (js "noquery")) with false.
    change (jseq (js "noresults") (js "noresults")) with true.
    rewrite (jseq_neq _ _ F). cbv iota.
    unfold Results.render. rewrite JSON_parse_noresults. reflexivity. }
  split; [exact H|]. rewrite H. reflexivity.
Qed.

(** C2, as the code has it: on [noresults] without the retry marker the
    script assigns to [window.location.url], which is no navigation, goes on
    to parse the text, and the [catch] handler renders the error message.
    There is no effect that leaves the page. *)
Theorem noresults_first_attempt
  (search : jsstring) (hostname : jsstring -> option jsstring)
  (error_toString : exn -> jsstring) (pg : number) :
  Results.failed search <> js "true" -> Results.page search = ret pg ->
  exists encoded,
    uri_encode (nullable_toString (Results.query search)) = Some encoded
    /\ Results.main search hostname error_toString (Body (js "noresults"))
       = ([Fetch (Results.url search encoded pg);
           SetLocationProperty "url" (js "undefined&failed=true");
           ConsoleError (js "Error loading search results:")
             (SyntaxError (js "noresults"));
           SetInnerHTML "results"
             (js "<p>Error loading search results. Please try again.<br>"
              ++ error_toString (SyntaxError (js "noresults")) ++ js "</p>")],
          Ok tt)
    /\ navigations
         (trace (Results.main search hostname error_toString (Body (js "noresults"))))
       = [].
Proof.
  intros F P. destruct (encodedQuery_defined search) as (encoded & E & EQ).
  exists encoded. split; [exact E|].
  now apply main_without_marker.
Qed.

Lemma noresults_first_attempt_witness :
  exists encoded,
    uri_encode (nullable_toString (Results.query (js "?q=cats"))) = Some encoded
    /\ Results.main (js "?q=cats") (fun _ => None) (fun _ => js "SyntaxError")
         (Body (js "noresults"))
       = ([Fetch (Results.url (js "?q=cats") encoded (Num 0));
           SetLocationProperty "url" (js "undefined&failed=true");
           ConsoleError (js "Error loading search results:")
             (SyntaxError (js "noresults"));
           SetInnerHTML "results"
             (js "<p>Error loading search results. Please try again.<br>"
              ++ js "SyntaxError" ++ js "</p>")],
          Ok tt)
    /\ navigations
         (trace (Results.main (js "?q=cats") (fun _ => None)
                   (fun _ => js "SyntaxError") (Body (js "noresults"))))
       = [].
Proof.
  apply (noresults_first_attempt (js "?q=cats") (fun _ => None)
           (fun _ => js "SyntaxError") (Num 0)).
  - discriminate.
  - reflexivity.
Defined.

(** The failing input of C2, evaluated. *)
Lemma main_at_cats :
  Results.main (js "?q=cats") (fun _ => None) (fun _ => js "SyntaxError")
    (Body (js "noresults"))
  = ([Fetch (js "https://unmappedstack.pythonanywhere.com/api/search?q=cats&safe=strict&page=0&language=en-GB&engine=duckduckgo");
      SetLocationProperty "url" (js "undefined&failed=true");
      ConsoleError (js "Error loading search results:") (SyntaxError (js "noresults"));
      SetInnerHTML "results"
        (js "<p>Error loading search results. Please try again.<br>SyntaxError</p>")],
     Ok tt).
Proof. reflexivity. Qed.

Lemma main_with_marker
  (search : jsstring) (hostname : jsstring -> option jsstring)
  (error_toString : exn -> jsstring) (encoded : jsstring) (pg : number) :
  get (Results.urlParams search) (js "failed") = Some (js "true") ->
  Results.encodedQuery search = ret encoded -> Results.page search = ret pg ->
  Results.main search hostname error_toString (Body (js "noresults"))
  = ([Fetch (Results.url search encoded pg);
      SetInnerHTML "results"
        (js "<h1>Woah!</h1><p>nilch has been getting unexpected amounts of traffic, thousands of searches within an hour or two! Unfortunately, this means API limits have been surpassed. <br><br><b>This should be fixed within one day</b>.</p><br>"
         ++ js "<a href='https://duckduckgo.com/" ++ encoded
         ++ js "'>Search the same query on DuckDuckGo</a>" ++ js " until then?")],
     Ok tt)
  /\ navigations (trace (Results.main search hostname error_toString (Body (js "noresults")))) = [].
Proof.
  intros F E P.
  assert (Results.main search hostname error_toString (Body (js "noresults"))
  = ([Fetch (Results.url search encoded pg);
      SetInnerHTML "results"
        (js "<h1>Woah!</h1><p>nilch has been getting unexpected amounts of traffic, thousands of searches within an hour or two! Unfortunately, this means API limits have been surpassed. <br><br><b>This should be fixed within one day</b>.</p><br>"
         ++ js "<a href='https://duckduckgo.com/" ++ encoded
         ++ js "'>Search the same query on DuckDuckGo</a>" ++ js " until then?")],
     Ok tt)) as H.
  { unfold Results.main. rewrite E, P, !bind_ret.
    rewrite getUrlContents_body, bind_ok.
    change (jseq (js "noresults") (js "noquery")) with false.
    change (jseq (js "noresults") (js "noresults")) with true.
    unfold Results.failed. rewrite F.
    change (jseq (or_else (Some (js "true")) (js "false")) (js "true")) with true.
    cbv iota. unfold Results.encodedQuery in E. rewrite E, bind_ret.
    reflexivity. }
  split; [exact H|]. rewrite H. reflexivity.
Qed.

Lemma hex_digit_not_apostrophe (x : N) : hex_digit x <> 39.
Proof. unfold hex_digit. destruct (x <? 10); lia. Qed.

Lemma percent_octets_no_apostrophe (bs : list N) : ~ In 39 (percent_octets bs).
Proof.
  induction bs as [|b bs IH]; simpl; [tauto|].
  intros [E|[E|[E|I]]]; try discriminate; try (now apply hex_digit_not_apostrophe in E).
  now apply IH.
Qed.

(** [encodeURIComponent] leaves the apostrophe alone and writes none of its
    own. *)
Lemma uri_encode_apostrophe_bounded (n : nat) :
  forall s e, (length s <= n)%nat -> uri_encode s = Some e -> (In 39 e <-> In 39 s).
Proof.
  induction n as [|n IH]; intros s e L H.
  - destruct s; [|simpl in L; lia]. injection H as <-. tauto.
  - destruct s as [|c r]; [injection H as <-; tauto|].
    simpl in L. simpl in H.
    destruct (uri_unescaped c) eqn:U.
    + destruct (uri_encode r) as [e'|] eqn:E; [|discriminate].
      injection H as <-. simpl. rewrite (IH r e') by (lia || exact E). tauto.
    + assert (c <> 39) as NC by (intros ->; discriminate U).
      destruct (is_trail_surrogate c); [discriminate|].
      destruct (is_lead_surrogate c).
      * destruct r as [|d r']; [discriminate|].
        destruct (is_trail_surrogate d) eqn:D; [|discriminate].
        assert (d <> 39) as ND by (intros ->; discriminate D).
        destruct (uri_encode r') as [e'|] eqn:E; [|discriminate].
        injection H as <-. rewrite in_app_iff.
        rewrite (IH r' e') by (simpl in L; lia || exact E).
        pose proof (percent_octets_no_apostrophe (utf8_encode (surrogate_pair c d))).
        simpl. intuition congruence.
      * destruct (uri_encode r) as [e'|] eqn:E; [|discriminate].
        injection H as <-. rewrite in_app_iff.
        rewrite (IH r e') by (lia || exact E).
        pose proof (percent_octets_no_apostrophe (utf8_encode c)).
        simpl. intuition congruence.
Qed.

Lemma uri_encode_apostrophe (s e : jsstring) :
  uri_encode s = Some e -> (In 39 e <-> In 39 s).
Proof. apply (uri_encode_apostrophe_bounded (length s)), Nat.le_refl. Qed.

Lemma split_first_without (sep : N) (s : list N) : ~ In sep (fst (split_first sep s)).
Proof.
  induction s as [|c r IH]; simpl; [tauto|].
  destruct (N.eqb_spec c sep) as [->|NE]; simpl; [tauto|].
  destruct (split_first sep r) as [a b]. simpl in *. tauto.
Qed.

Lemma split_first_at (sep : N) (a b : list N) :
  ~ In sep a -> split_first sep (a ++ sep :: b) = (a, b).
Proof.
  induction a as [|c a IH]; intro H; cbn [app split_first].
  - now rewrite N.eqb_refl.
  - destruct (N.eqb_spec c sep) as [->|NE]; [exfalso; apply H; now left|].
    rewrite IH; [reflexivity|]. intro I. apply H. now right.
Qed.

(** C9: a parameter that the address does not carry takes its fixed
    default; the request always goes to the search endpoint with exactly
    the parameters [q], [safe], [page], [language] and [engine], holding
    the encoded query and the values of the constants; so with [safe],
    [page], [lang] and [engine] all absent it carries [safe=strict],
    [page=0], [language=en-GB] and [engine=duckduckgo]. *)
Theorem request_defaults (search : jsstring) :
  (get (Results.urlParams search) (js "safe") = None ->
   Results.safeSearch search = js "strict") /\
  (get (Results.urlParams search) (js "page") = None ->
   Results.page search = ret (Num 0)) /\
  (get (Results.urlParams search) (js "lang") = None ->
   Results.language search = js "en-GB") /\
  (get (Results.urlParams search) (js "engine") = None ->
   Results.engine search = js "duckduckgo") /\
  (get (Results.urlParams search) (js "failed") = None ->
   Results.failed search = js "false") /\
  (exists encoded,
     uri_encode (nullable_toString (Results.query search)) = Some encoded /\
     (forall pg hostname error_toString response,
        Results.page search = ret pg ->
        exists rest,
          trace (Results.main search hostname error_toString response)
          = Fetch (js "https://unmappedstack.pythonanywhere.com/api/search?q=" ++ encoded
                   ++ js "&safe=" ++ Results.safeSearch search
                   ++ js "&page=" ++ number_toString pg
                   ++ js "&language=" ++ Results.language search
                   ++ js "&engine=" ++ Results.engine search)
            :: rest) /\
     (get (Results.urlParams search) (js "safe") = None ->
      get (Results.urlParams search) (js "page") = None ->
      get (Results.urlParams search) (js "lang") = None ->
      get (Results.urlParams search) (js "engine") = None ->
      forall hostname error_toString response,
      exists rest,
        trace (Results.main search hostname error_toString response)
        = Fetch (js "https://unmappedstack.pythonanywhere.com/api/search?q=" ++ encoded
                 ++ js "&safe=strict&page=0&language=en-GB&engine=duckduckgo")
          :: rest)).
Proof.
  split; [|split; [|split; [|split; [|split]]]].
  - intro H. unfold Results.safeSearch. now rewrite H.
  - intro H. unfold Results.page. now rewrite H.
  - intro H. unfold Results.language. now rewrite H.
  - intro H. unfold Results.engine. now rewrite H.
  - intro H. unfold Results.failed. now rewrite H.
  - destruct (encodedQuery_defined search) as (encoded & E' & E).
    exists encoded. split; [exact E'|]. split.
    + intros pg hostname error_toString response PG.
      exact (main_dispatches search hostname error_toString response encoded pg E PG).
    + intros S P L G hostname error_toString response.
      assert (Results.page search = ret (Num 0)) as PG
        by (unfold Results.page; now rewrite P).
      destruct (main_dispatches search hostname error_toString response encoded (Num 0) E PG)
        as [rest R].
      exists rest. rewrite R. f_equal. f_equal.
      unfold Results.url, Results.safeSearch, Results.language, Results.engine.
      rewrite S, L, G. reflexivity.
Qed.

Lemma request_defaults_witness :
  Results.safeSearch (js "?q=cats") = js "strict" /\
  Results.page (js "?q=cats") = ret (Num 0) /\
  Results.language (js "?q=cats") = js "en-GB" /\
  Results.engine (js "?q=cats") = js "duckduckgo" /\
  Results.failed (js "?q=cats") = js "false" /\
  exists encoded,
    uri_encode (nullable_toString (Results.query (js "?q=cats"))) = Some encoded /\
    forall hostname error_toString response,
    exists rest,
      trace (Results.main (js "?q=cats") hostname error_toString response)
      = Fetch (js "https://unmappedstack.pythonanywhere.com/api/search?q=" ++ encoded
               ++ js "&safe=strict&page=0&language=en-GB&engine=duckduckgo")
        :: rest.
Proof.
  destruct (request_defaults (js "?q=cats")) as (S & P & L & G & F & encoded & E & _ & U).
  split; [apply S; reflexivity|].
  split; [apply P; reflexivity|].
  split; [apply L; reflexivity|].
  split; [apply G; reflexivity|].
  split; [apply F; reflexivity|].
  exists encoded. split; [exact E|].
  apply U; reflexivity.
Defined.

(** ** The web script: rendering *)

(** C4: one turn of the result loop, for an item whose [title], [href] and
    [body] are strings and whose address parses, appends one card; the text
    of its link is the title when the title has at most 60 code units and
    its first 60 followed by three dots otherwise, and its snippet is the
    body under the same rule with 300. *)
Theorem render_result_truncates
  (hostname : jsstring -> option jsstring)
  (members : list (jsstring * value)) (title href body host : jsstring) :
  lookup members (js "title") = Some (VString title) ->
  lookup members (js "href") = Some (VString href) ->
  lookup members (js "body") = Some (VString body) ->
  (lookup members (js "page_age") = None \/
   exists age, lookup members (js "page_age") = Some (VString age)) ->
  hostname href = Some host ->
  exists date shown_title shown_body,
    Results.render_result hostname (VObject members)
    = ([AppendChild "results"
          (div "result" []
             (date ++
              [div "result-title" []
                 [Element "a" [("href"%string, href);
                               ("textContent"%string, shown_title)] []];
               div "result-url" []
                 [Element "img"
                    [("className"%string, js "result-favicon");
                     ("src"%string,
                      js "https://icons.duckduckgo.com/ip3/" ++ host ++ js ".ico")] [];
                  Element "span" [("textContent"%string, href)] []];
               div "result-snippet" [("innerHTML"%string, shown_body)] []]))],
       Ok tt)
    /\ ((length title <= 60)%nat -> shown_title = title)
    /\ ((60 < length title)%nat -> shown_title = firstn 60 title ++ js "...")
    /\ ((length body <= 300)%nat -> shown_body = body)
    /\ ((300 < length body)%nat -> shown_body = firstn 300 body ++ js "...").
Proof.
  intros T H B A U.
  assert (forall age,
    lookup members (js "page_age") = age ->
    age = None \/ age = Some (VString []) \/
      (exists c r, age = Some (VString (c :: r))) ->
    Results.render_result hostname (VObject members)
    = ([AppendChild "results"
          (div "result" []
             (match age with
              | Some (VString (c :: r)) =>
                  [div "result-date"
                     [("textContent"%string,
                       js "PUBLISHED " ++ fst (split_first 84 (c :: r)))] []]
              | _ => []
              end ++
              [div "result-title" []
                 [Element "a" [("href"%string, href);
                               ("textContent"%string,
                                if Nat.ltb 60 (length title)
                                then slice0 60 title ++ js "..." else title)] []];
               div "result-url" []
                 [Element "img"
                    [("className"%string, js "result-favicon");
                     ("src"%string,
                      js "https://icons.duckduckgo.com/ip3/" ++ host ++ js ".ico")] [];
                  Element "span" [("textContent"%string, href)] []];
               div "result-snippet"
                 [("innerHTML"%string,
                   if Nat.ltb 300 (length body)
                   then slice0 300 body ++ js "..." else body)] []]))],
       Ok tt)) as K.
  { intros age E C. unfold Results.render_result, getProp.
    rewrite T, H, B, E, !bind_ret.
    change (toString (VString href)) with (ret href).
    change (toTextContent (VString href)) with (ret href).
    change (as_string (VString title)) with (ret title).
    change (as_string (VString body)) with (ret body).
    rewrite !bind_ret, U, !bind_ret.
    destruct C as [->|[->|(c & r & ->)]]; reflexivity. }
  eexists. eexists. eexists. split.
  - apply (K _ eq_refl).
    destruct A as [->|[[|c r] ->]]; eauto.
  - unfold slice0.
    destruct (Nat.ltb_spec 60 (length title)), (Nat.ltb_spec 300 (length body));
      repeat split; intros; (reflexivity || lia).
Qed.

Lemma render_result_truncates_witness :
  exists date shown_title shown_body,
    Results.render_result (fun _ => Some (js "example.org"))
      (VObject [(js "title", VString (repeat 97 61));
                (js "href", VString (js "https://example.org/a"));
                (js "body", VString (repeat 98 300))])
    = ([AppendChild "results"
          (div "result" []
             (date ++
              [div "result-title" []
                 [Element "a" [("href"%string, js "https://example.org/a");
                               ("textContent"%string, shown_title)] []];
               div "result-url" []
                 [Element "img"
                    [("className"%string, js "result-favicon");
                     ("src"%string,
                      js "https://icons.duckduckgo.com/ip3/" ++ js "example.org"
                      ++ js ".ico")] [];
                  Element "span" [("textContent"%string, js "https://example.org/a")] []];
               div "result-snippet" [("innerHTML"%string, shown_body)] []]))],
       Ok tt)
    /\ ((length (repeat 97 61) <= 60)%nat -> shown_title = repeat 97 61)
    /\ ((60 < length (repeat 97 61))%nat ->
        shown_title = firstn 60 (repeat 97 61) ++ js "...")
    /\ ((length (repeat 98 300) <= 300)%nat -> shown_body = repeat 98 300)
    /\ ((300 < length (repeat 98 300))%nat ->
        shown_body = firstn 300 (repeat 98 300) ++ js "...").
Proof.
  apply (render_result_truncates (fun _ => Some (js "example.org"))
           [(js "title", VString (repeat 97 61));
            (js "href", VString (js "https://example.org/a"));
            (js "body", VString (repeat 98 300))]
           (repeat 97 61) (js "https://example.org/a") (repeat 98 300)
           (js "example.org")).
  - reflexivity.
  - reflexivity.
  - reflexivity.
  - left. reflexivity.
  - reflexivity.
Defined.

Lemma for_each_singletons {A} (f : A -> M unit) (g : A -> effect) (l : list A) :
  (forall x, In x l -> f x = ([g x], Ok tt)) -> for_each f l = (map g l, Ok tt).
Proof.
  induction l as [|x l IH]; intro H; [reflexivity|].
  change (for_each f (x :: l)) with (f x ;; for_each f l).
  rewrite (H x (or_introl eq_refl)), IH; [reflexivity|].
  intros y I. apply H. now right.
Qed.

Lemma JSON_parse_ok_not_sentinel (text : jsstring) (v : value) :
  JSON_parse text = ret v ->
  jseq text (js "noquery") = false /\ jseq text (js "noresults") = false.
Proof.
  intro H. split.
  - destruct (jseq text (js "noquery")) eqn:E; [|reflexivity].
    apply jseq_spec in E. subst text. discriminate H.
  - destruct (jseq text (js "noresults")) eqn:E; [|reflexivity].
    apply jseq_spec in E. subst text. discriminate H.
Qed.

(** The loop of [main] goes through every item of the payload, in order:
    with each item rendered as a card, the page receives the cards and then
    the pagination. *)
Lemma main_renders_every_item
  (search : jsstring) (hostname : jsstring -> option jsstring)
  (error_toString : exn -> jsstring) (pg : number) (text : jsstring)
  (members : list (jsstring * value)) (items : list value)
  (card : value -> element) :
  Results.page search = ret pg ->
  JSON_parse text = ret (VObject members) ->
  lookup members (js "results") = Some (VArray items) -> items <> [] ->
  lookup members (js "infobox") = None ->
  (forall item, In item items ->
     Results.render_result hostname item = ([AppendChild "results" (card item)], Ok tt)) ->
  exists encoded,
    uri_encode (nullable_toString (Results.query search)) = Some encoded
    /\ Results.main search hostname error_toString (Body text)
       = ([Fetch (Results.url search encoded pg); SetInnerHTML "results" (js "")]
          ++ map (fun item => AppendChild "results" (card item)) items
          ++ trace (Results.createPagination search 9 pg),
          Ok tt).
Proof.
  intros P J R NE I C. destruct (encodedQuery_defined search) as (encoded & E' & E).
  exists encoded. split; [exact E'|].
  destruct (JSON_parse_ok_not_sentinel _ _ J) as [NQ NR].
  unfold Results.main. rewrite E, P, !bind_ret.
  rewrite getUrlContents_body, bind_ok, NQ, NR.
  unfold Results.render. rewrite J, bind_ret.
  unfold Results.render_data, getProp. rewrite R, I, !bind_ret.
  change (loose_eq VUndefined "null") with (ret false).
  rewrite bind_ret, bind_emit. cbv iota.
  change (Results.as_array (VArray items)) with (ret items). rewrite bind_ret.
  destruct items as [|item items]; [contradiction|].
  rewrite (for_each_singletons _ _ _ C).
  unfold bind, try_catch, trace, result, Results.createPagination, emit, ret. simpl.
  reflexivity.
Qed.

(** ** The infobox *)

Section TraceInvariant.

Variable P : effect -> Prop.

Lemma trace_bind_Forall {A B} (m : M A) (f : A -> M B) :
  Forall P (trace m) -> (forall a, Forall P (trace (f a))) ->
  Forall P (trace (bind m f)).
Proof.
  intros Hm Hf. destruct m as [tr [a| |]]; simpl in *; try exact Hm.
  specialize (Hf a). destruct (f a) as [tr' o]. simpl in *.
  apply Forall_app. now split.
Qed.

Lemma trace_for_each_Forall {A} (f : A -> M unit) (l : list A) :
  (forall a, Forall P (trace (f a))) -> Forall P (trace (for_each f l)).
Proof.
  intro Hf. induction l as [|x l IH]; simpl.
  - constructor.
  - apply trace_bind_Forall; [apply Hf | intros _; exact IH].
Qed.

Lemma trace_getProp_Forall (v : value) (name : string) :
  Forall P (trace (getProp v name)).
Proof.
  destruct v; simpl; try constructor.
  destruct (lookup members (js name)); constructor.
Qed.

Lemma trace_toString_Forall (v : value) : Forall P (trace (toString v)).
Proof.
  destruct v as [| |[|]|literal| | |]; try apply Forall_nil.
  unfold toString. destruct (integer_toString literal); apply Forall_nil.
Qed.

Lemma trace_toTextContent_Forall (v : value) : Forall P (trace (toTextContent v)).
Proof.
  destruct v; try apply Forall_nil; apply trace_toString_Forall.
Qed.

Lemma trace_as_string_Forall (v : value) : Forall P (trace (as_string v)).
Proof. destruct v; constructor. Qed.

Lemma trace_truthy_Forall (v : value) : Forall P (trace (truthy v)).
Proof. destruct v; constructor. Qed.

Lemma trace_loose_eq_Forall (v : value) (literal : string) :
  Forall P (trace (loose_eq v literal)).
Proof.
  destruct v; simpl; try constructor.
  destruct (lookup members (js "toString")); constructor.
Qed.

End TraceInvariant.

Lemma render_result_leaves_infobox
  (hostname : jsstring -> option jsstring) (item : value) :
  Forall (fun e => touches_infobox e = false)
         (trace (Results.render_result hostname item)).
Proof.
  unfold Results.render_result.
  apply trace_bind_Forall; [apply trace_getProp_Forall | intro href].
  apply trace_bind_Forall; [apply trace_toString_Forall | intro link_href].
  apply trace_bind_Forall;
    [apply trace_bind_Forall;
     [apply trace_getProp_Forall | intro; apply trace_as_string_Forall]
    | intro rawTitle].
  apply trace_bind_Forall;
    [destruct (hostname link_href); constructor | intro host].
  apply trace_bind_Forall; [apply trace_toTextContent_Forall | intro url_text].
  apply trace_bind_Forall;
    [apply trace_bind_Forall;
     [apply trace_getProp_Forall | intro; apply trace_as_string_Forall]
    | intro rawDescription].
  apply trace_bind_Forall; [apply trace_getProp_Forall | intro page_age].
  apply trace_bind_Forall; [apply trace_truthy_Forall | intro dated].
  apply trace_bind_Forall;
    [destruct dated; [destruct page_age|]; constructor | intro dateDiv].
  repeat constructor.
Qed.

Lemma JSON_parse_empty_payload :
  JSON_parse (js "{" ++ quote ++ js "results" ++ quote ++ js ": [], "
              ++ quote ++ js "infobox" ++ quote ++ js ": "
              ++ quote ++ js "null" ++ quote ++ js "}")
  = ret (VObject [(js "results", VArray []); (js "infobox", VString (js "null"))]).
Proof. reflexivity. Qed.

(** C6: a payload whose [infobox] is the string [null] is rendered exactly
    as the payload with the same results and no [infobox] member, no effect
    of the rendering touches the infobox container or its title, and for
    the payload with no results and the infobox [null] the script shows the
    empty-state message and nothing else. *)
Theorem infobox_null_literal_is_no_infobox
  (search : jsstring) (hostname : jsstring -> option jsstring)
  (error_toString : exn -> jsstring) (pg : number)
  (members members' : list (jsstring * value)) :
  lookup members (js "infobox") = Some (VString (js "null")) ->
  lookup members' (js "infobox") = None ->
  lookup members (js "results") = lookup members' (js "results") ->
  Results.page search = ret pg ->
  Results.render_data search hostname pg (VObject members)
  = Results.render_data search hostname pg (VObject members')
  /\ Forall (fun e => touches_infobox e = false)
            (trace (Results.render_data search hostname pg (VObject members)))
  /\ exists encoded,
       uri_encode (nullable_toString (Results.query search)) = Some encoded
       /\ Results.main search hostname error_toString
            (Body (js "{" ++ quote ++ js "results" ++ quote ++ js ": [], "
                   ++ quote ++ js "infobox" ++ quote ++ js ": "
                   ++ quote ++ js "null" ++ quote ++ js "}"))
          = ([Fetch (Results.url search encoded pg);
              SetInnerHTML "results" (js "");
              SetInnerHTML "results"
                (js "There weren't any results found! Maybe try switching to another engine?")],
             Ok tt).
Proof.
  intros I I' R PG. destruct (encodedQuery_defined search) as (encoded & E' & E).
  split; [|split; [|exists encoded; split; [exact E'|]]].
  - unfold Results.render_data, getProp. rewrite I, I', R.
    destruct (lookup members' (js "results")); reflexivity.
  - unfold Results.render_data, getProp. rewrite I.
    apply trace_bind_Forall;
      [destruct (lookup members (js "results")); constructor | intro searchResults].
    rewrite bind_ret.
    change (loose_eq (VString (js "null")) "null") with (ret true).
    rewrite bind_ret. cbv iota.
    apply trace_bind_Forall; [repeat constructor | intros _].
    apply trace_bind_Forall; [destruct searchResults; constructor | intro items].
    destruct items as [|item items]; [repeat constructor|].
    apply trace_bind_Forall;
      [apply trace_for_each_Forall; intro; apply render_result_leaves_infobox
      | intros _].
    apply trace_bind_Forall; [repeat constructor | intros _].
    constructor.
  - unfold Results.main. rewrite E, PG, !bind_ret.
    rewrite getUrlContents_body, bind_ok.
    unfold Results.render. rewrite JSON_parse_empty_payload. reflexivity.
Qed.

Lemma infobox_null_literal_is_no_infobox_witness :
  Results.render_data (js "?q=cats") (fun _ => Some (js "example.org")) (Num 0)
    (VObject [(js "results",
               VArray [VObject [(js "title", VString (js "Cats"));
                                (js "href", VString (js "https://example.org/cats"));
                                (js "body", VString (js "About cats"))]]);
              (js "infobox", VString (js "null"))])
  = Results.render_data (js "?q=cats") (fun _ => Some (js "example.org")) (Num 0)
      (VObject [(js "results",
                 VArray [VObject [(js "title", VString (js "Cats"));
                                  (js "href", VString (js "https://example.org/cats"));
                                  (js "body", VString (js "About cats"))]])])
  /\ Forall (fun e => touches_infobox e = false)
       (trace (Results.render_data (js "?q=cats") (fun _ => Some (js "example.org")) (Num 0)
                 (VObject [(js "results",
                            VArray [VObject [(js "title", VString (js "Cats"));
                                             (js "href", VString (js "https://example.org/cats"));
                                             (js "body", VString (js "About cats"))]]);
                           (js "infobox", VString (js "null"))])))
  /\ exists encoded,
       uri_encode (nullable_toString (Results.query (js "?q=cats"))) = Some encoded
       /\ Results.main (js "?q=cats") (fun _ => Some (js "example.org")) (fun _ => js "")
            (Body (js "{" ++ quote ++ js "results" ++ quote ++ js ": [], "
                   ++ quote ++ js "infobox" ++ quote ++ js ": "
                   ++ quote ++ js "null" ++ quote ++ js "}"))
          = ([Fetch (Results.url (js "?q=cats") encoded (Num 0));
              SetInnerHTML "results" (js "");
              SetInnerHTML "results"
                (js "There weren't any results found! Maybe try switching to another engine?")],
             Ok tt).
Proof.
  apply (infobox_null_literal_is_no_infobox (js "?q=cats")
           (fun _ => Some (js "example.org")) (fun _ => js "") (Num 0));
    reflexivity.
Defined.

(** ** Pagination *)

Lemma get_filter_other (params : URLSearchParams) (name other : jsstring) :
  other <> name ->
  get (filter (fun kv => negb (jseq (fst kv) name)) params) other = get params other.
Proof.
  intro NE. induction params as [|[k v] params IH]; simpl; [reflexivity|].
  destruct (jseq k name) eqn:E; simpl.
  - apply jseq_spec in E. subst k.
    rewrite (jseq_neq name other) by congruence. exact IH.
  - destruct (jseq k other); [reflexivity | exact IH].
Qed.

Lemma get_set_same (params : URLSearchParams) (name v : jsstring) :
  get (set params name v) name = Some v.
Proof.
  induction params as [|[k w] params IH]; simpl.
  - now rewrite jseq_refl.
  - destruct (jseq k name) eqn:E; simpl; rewrite E; [reflexivity | exact IH].
Qed.

Lemma get_set_other (params : URLSearchParams) (name v other : jsstring) :
  other <> name -> get (set params name v) other = get params other.
Proof.
  intro NE. induction params as [|[k w] params IH]; simpl.
  - now rewrite (jseq_neq name other) by congruence.
  - destruct (jseq k name) eqn:E; simpl.
    + apply jseq_spec in E. subst k.
      rewrite (jseq_neq name other) by congruence. now apply get_filter_other.
    + destruct (jseq k other); [reflexivity | exact IH].
Qed.

Lemma filter_twice {A} (p : A -> bool) (l : list A) :
  filter p (filter p l) = filter p l.
Proof.
  induction l as [|x l IH]; simpl; [reflexivity|].
  destruct (p x) eqn:E; simpl; [rewrite E; f_equal|]; exact IH.
Qed.

(** The parameters other than [name] are the same, in the same order. *)
Lemma set_keeps_others (params : URLSearchParams) (name v : jsstring) :
  filter (fun kv => negb (jseq (fst kv) name)) (set params name v)
  = filter (fun kv => negb (jseq (fst kv) name)) params.
Proof.
  induction params as [|[k w] params IH]; simpl.
  - now rewrite jseq_refl.
  - destruct (jseq k name) eqn:E; simpl; rewrite E; simpl.
    + apply filter_twice.
    + now rewrite IH.
Qed.

Lemma page_link_class (search : jsstring) (k i : nat) :
  Results.page_link search (Num (Z.of_nat k)) i
  = Element "li" []
      [Element "a"
         [("href"%string,
           js "?" ++ URLSearchParams_toString
                       (set (new_URLSearchParams search) (js "page")
                            (string_of_Z (Z.of_nat i))));
          ("textContent"%string, string_of_Z (Z.of_nat i + 1));
          ("className"%string,
           if Nat.eqb i k then js "page-btn active" else js "page-btn")]
         []].
Proof.
  unfold Results.page_link, number_eq.
  replace (Z.of_nat i =? Z.of_nat k)%Z with (Nat.eqb i k); [reflexivity|].
  destruct (Nat.eqb_spec i k) as [->|NE].
  - symmetry. apply Z.eqb_refl.
  - symmetry. apply Z.eqb_neq. lia.
Qed.

(** The pagination of results.js: ten links for the indices 0 to 9, the one
    of the current page marked active, each leading to the parameters of the
    current address with [page] set to its index and nothing else changed. *)
Theorem createPagination_links (search : jsstring) (k : nat) :
  (k <= 9)%nat ->
  exists links,
    Results.createPagination search 9 (Num (Z.of_nat k))
    = ([InsertAfter "results"
          (div "pagination-container" []
             [Element "ul" [("className"%string, js "pagination")] links])],
       Ok tt)
    /\ length links = 10%nat
    /\ forall i, (i <= 9)%nat ->
         let target := set (new_URLSearchParams search) (js "page")
                           (string_of_Z (Z.of_nat i)) in
         nth_error links i
         = Some (Element "li" []
                   [Element "a"
                      [("href"%string, js "?" ++ URLSearchParams_toString target);
                       ("textContent"%string, string_of_Z (Z.of_nat i + 1));
                       ("className"%string,
                        if Nat.eqb i k then js "page-btn active" else js "page-btn")]
                      []])
         /\ get target (js "page") = Some (string_of_Z (Z.of_nat i))
         /\ (forall name, name <> js "page" ->
               get target name = get (new_URLSearchParams search) name)
         /\ filter (fun kv => negb (jseq (fst kv) (js "page"))) target
            = filter (fun kv => negb (jseq (fst kv) (js "page")))
                     (new_URLSearchParams search).
Proof.
  intro K.
  exists (map (Results.page_link search (Num (Z.of_nat k))) (seq 0 10)).
  split; [reflexivity|]. split; [now rewrite length_map, length_seq|].
  intros i I target. split; [|split; [|split]].
  - rewrite nth_error_map, nth_error_seq.
    destruct (Nat.ltb_spec i 10); [|lia]. simpl. now rewrite page_link_class.
  - apply get_set_same.
  - intros name NE. now apply get_set_other.
  - apply set_keeps_others.
Qed.

Lemma createPagination_links_witness :
  exists links,
    Results.createPagination (js "?q=cats&page=2") 9 (Num (Z.of_nat 2))
    = ([InsertAfter "results"
          (div "pagination-container" []
             [Element "ul" [("className"%string, js "pagination")] links])],
       Ok tt)
    /\ length links = 10%nat
    /\ forall i, (i <= 9)%nat ->
         let target := set (new_URLSearchParams (js "?q=cats&page=2")) (js "page")
                           (string_of_Z (Z.of_nat i)) in
         nth_error links i
         = Some (Element "li" []
                   [Element "a"
                      [("href"%string, js "?" ++ URLSearchParams_toString target);
                       ("textContent"%string, string_of_Z (Z.of_nat i + 1));
                       ("className"%string,
                        if Nat.eqb i 2 then js "page-btn active" else js "page-btn")]
                      []])
         /\ get target (js "page") = Some (string_of_Z (Z.of_nat i))
         /\ (forall name, name <> js "page" ->
               get target name = get (new_URLSearchParams (js "?q=cats&page=2")) name)
         /\ filter (fun kv => negb (jseq (fst kv) (js "page"))) target
            = filter (fun kv => negb (jseq (fst kv) (js "page")))
                     (new_URLSearchParams (js "?q=cats&page=2")).
Proof.
  apply (createPagination_links (js "?q=cats&page=2") 2). lia.
Defined.

Lemma results_link_overrides_page :
  URLSearchParams_toString
    (set (new_URLSearchParams (js "?q=cats&page=2")) (js "page") (string_of_Z 5))
  = js "q=cats&page=5"
  /\ Results.page (js "?q=cats&page=5") = ret (Num 5).
Proof. split; reflexivity. Qed.

(** The pagination of videos.js: ten links, the one of the current page
    marked active, each href the current address followed by [&page=i]. *)
Lemma videos_createPagination_links (href : jsstring) (k : nat) :
  (k <= 9)%nat ->
  exists links,
    Videos.createPagination href 9 (Num (Z.of_nat k))
    = ([InsertAfter "videoResults"
          (div "pagination-container" []
             [Element "ul" [("className"%string, js "pagination")] links])],
       Ok tt)
    /\ length links = 10%nat
    /\ forall i, (i <= 9)%nat ->
         nth_error links i
         = Some (Element "li" []
                   [Element "a"
                      [("href"%string,
                        href ++ js "&page=" ++ string_of_Z (Z.of_nat i));
                       ("textContent"%string, string_of_Z (Z.of_nat i + 1));
                       ("className"%string,
                        if Nat.eqb i k then js "page-btn active" else js "page-btn")]
                      []]).
Proof.
  intro K.
  exists (map (Videos.page_link href (Num (Z.of_nat k))) (seq 0 10)).
  split; [reflexivity|]. split; [now rewrite length_map, length_seq|].
  intros i I. rewrite nth_error_map, nth_error_seq.
  destruct (Nat.ltb_spec i 10); [|lia]. simpl.
  unfold Videos.page_link, number_eq.
  replace (Z.of_nat i =? Z.of_nat k)%Z with (Nat.eqb i k); [reflexivity|].
  destruct (Nat.eqb_spec i k) as [->|NE].
  - symmetry. apply Z.eqb_refl.
  - symmetry. apply Z.eqb_neq. lia.
Qed.

(** C5 on videos.js, at the address [videos.html?q=cats&page=2]: the ten
    links are there and the one of index 2 is the active one, but each href
    is the current address with [&page=i] appended, so the [page] the next
    load reads from it is still the first one, 2, whatever the index. *)
Theorem videos_pagination_keeps_first_page :
  exists links,
    Videos.createPagination (js "https://nilch.org/videos.html?q=cats&page=2") 9 (Num 2)
    = ([InsertAfter "videoResults"
          (div "pagination-container" []
             [Element "ul" [("className"%string, js "pagination")] links])],
       Ok tt)
    /\ length links = 10%nat
    /\ forall i, (i <= 9)%nat ->
         nth_error links i
         = Some (Element "li" []
                   [Element "a"
                      [("href"%string,
                        js "https://nilch.org/videos.html?q=cats&page=2&page="
                        ++ string_of_Z (Z.of_nat i));
                       ("textContent"%string, string_of_Z (Z.of_nat i + 1));
                       ("className"%string,
                        if Nat.eqb i 2 then js "page-btn active" else js "page-btn")]
                      []])
         /\ Videos.page (js "https://nilch.org/videos.html?q=cats&page=2&page="
                         ++ string_of_Z (Z.of_nat i))
            = ret (Num 2).
Proof.
  eexists. split; [reflexivity|]. split; [reflexivity|].
  intros i I.
  do 10 (destruct i as [|i]; [split; reflexivity|]). lia.
Qed.

(** ** The image and video scripts *)

Lemma image_and_video_mains
  (search href : jsstring) (error_toString : exn -> jsstring)
  (encoded encoded_v : jsstring) (pg : number) :
  Images.encodedQuery search = ret encoded ->
  Videos.encodedQuery href = ret encoded_v -> Videos.page href = ret pg ->
  Images.main search (Body (js "noresults"))
  = ([Fetch (Images.url search encoded);
      SetInnerHTML "results"
        (js "<p>There was an error, please try again: noresults</p>")],
     Ok tt)
  /\ navigations (trace (Images.main search (Body (js "noresults")))) = []
  /\ Videos.main href error_toString (Body (js "noresults"))
     = ([Fetch (Videos.url href encoded_v pg);
         Reload;
         ConsoleError (js "Error loading search results:") (SyntaxError (js "noresults"));
         SetInnerHTML "results"
           (js "<p>Error loading search results. Please try again.<br>"
            ++ error_toString (SyntaxError (js "noresults")) ++ js "</p>")],
        Ok tt)
  /\ navigations (trace (Videos.main href error_toString (Body (js "noresults"))))
     = [Reload].
Proof.
  intros EI EV PV.
  assert (Images.main search (Body (js "noresults"))
          = ([Fetch (Images.url search encoded);
              SetInnerHTML "results"
                (js "<p>There was an error, please try again: noresults</p>")],
             Ok tt)) as HI.
  { unfold Images.main. rewrite EI, bind_ret.
    rewrite getUrlContents_body, bind_ok. reflexivity. }
  assert (Videos.main href error_toString (Body (js "noresults"))
     = ([Fetch (Videos.url href encoded_v pg);
         Reload;
         ConsoleError (js "Error loading search results:") (SyntaxError (js "noresults"));
         SetInnerHTML "results"
           (js "<p>Error loading search results. Please try again.<br>"
            ++ error_toString (SyntaxError (js "noresults")) ++ js "</p>")],
        Ok tt)) as HV.
  { unfold Videos.main. rewrite EV, PV, !bind_ret.
    rewrite getUrlContents_body, bind_ok.
    change (jseq (js "noresults") (js "noquery")) with false.
    change (jseq (js "noresults") (js "noresults")) with true.
    cbv iota. rewrite JSON_parse_noresults. reflexivity. }
  rewrite HI, HV. repeat split; reflexivity.
Qed.

(** C8: on [noresults] the image script writes its message into the results
    container and stops, with no effect that leaves the page; the video
    script reloads the page, whatever the address holds, never assigns an
    address of its own, and goes on to parse the text, which fails into the
    [catch] handler. *)
Theorem noresults_images_and_videos
  (search href : jsstring) (error_toString : exn -> jsstring) (pg : number) :
  Videos.page href = ret pg ->
  exists encoded encoded_v,
    uri_encode (nullable_toString (Images.query search)) = Some encoded
    /\ uri_encode (nullable_toString (Videos.query href)) = Some encoded_v
    /\ Images.main search (Body (js "noresults"))
       = ([Fetch (Images.url search encoded);
           SetInnerHTML "results"
             (js "<p>There was an error, please try again: noresults</p>")],
          Ok tt)
    /\ navigations (trace (Images.main search (Body (js "noresults")))) = []
    /\ Videos.main href error_toString (Body (js "noresults"))
       = ([Fetch (Videos.url href encoded_v pg);
           Reload;
           ConsoleError (js "Error loading search results:")
             (SyntaxError (js "noresults"));
           SetInnerHTML "results"
             (js "<p>Error loading search results. Please try again.<br>"
              ++ error_toString (SyntaxError (js "noresults")) ++ js "</p>")],
          Ok tt)
    /\ navigations (trace (Videos.main href error_toString (Body (js "noresults"))))
       = [Reload].
Proof.
  intro P.
  destruct (images_encodedQuery_defined search) as (encoded & E' & E).
  destruct (videos_encodedQuery_defined href) as (encoded_v & V' & V).
  exists encoded, encoded_v. split; [exact E'|]. split; [exact V'|].
  now apply image_and_video_mains.
Qed.

Lemma noresults_images_and_videos_witness :
  exists encoded encoded_v,
    uri_encode (nullable_toString (Images.query (js "?q=cats"))) = Some encoded
    /\ uri_encode (nullable_toString
                     (Videos.query (js "https://nilch.org/videos.html?q=cats&failed=true")))
       = Some encoded_v
    /\ Images.main (js "?q=cats") (Body (js "noresults"))
       = ([Fetch (Images.url (js "?q=cats") encoded);
           SetInnerHTML "results"
             (js "<p>There was an error, please try again: noresults</p>")],
          Ok tt)
    /\ navigations (trace (Images.main (js "?q=cats") (Body (js "noresults")))) = []
    /\ Videos.main (js "https://nilch.org/videos.html?q=cats&failed=true")
         (fun _ => js "") (Body (js "noresults"))
       = ([Fetch (Videos.url (js "https://nilch.org/videos.html?q=cats&failed=true")
                    encoded_v (Num 0));
           Reload;
           ConsoleError (js "Error loading search results:")
             (SyntaxError (js "noresults"));
           SetInnerHTML "results"
             (js "<p>Error loading search results. Please try again.<br>"
              ++ js "" ++ js "</p>")],
          Ok tt)
    /\ navigations
         (trace (Videos.main (js "https://nilch.org/videos.html?q=cats&failed=true")
                   (fun _ => js "") (Body (js "noresults"))))
       = [Reload].
Proof.
  apply (noresults_images_and_videos (js "?q=cats")
           (js "https://nilch.org/videos.html?q=cats&failed=true") (fun _ => js "")
           (Num 0)); reflexivity.
Defined.

Lemma for_each_app {A} (f : A -> M unit) (l1 l2 : list A) :
  for_each f (l1 ++ l2) = (for_each f l1 ;; for_each f l2).
Proof.
  induction l1 as [|x l1 IH].
  - change (for_each f []) with (ret tt). now rewrite bind_ret.
  - change (for_each f ((x :: l1) ++ l2)) with (f x ;; for_each f (l1 ++ l2)).
    change (for_each f (x :: l1)) with (f x ;; for_each f l1).
    now rewrite IH, bind_assoc.
Qed.

Lemma or_string_optional (field : option jsstring) (fallback : jsstring) :
  or_string (match field with Some s => VString s | None => VUndefined end) fallback
  = ret (or_else field fallback).
Proof. destruct field as [[|c r]|]; reflexivity. Qed.

Lemma getProp_optional (members : list (jsstring * value)) (name : string)
  (field : option jsstring) :
  lookup members (js name) = option_map VString field ->
  getProp (VObject members) name
  = ret (match field with Some s => VString s | None => VUndefined end).
Proof. intro H. unfold getProp. rewrite H. now destruct field. Qed.

(** C10: in a video item with an [images] object, a missing (or empty)
    [content], [title], [uploader], [publisher] or [images.large] is replaced
    by its fallback ([or_else] is the script's [||]); the fallback of the
    thumbnail is the data URL of the percent-encoded placeholder picture,
    written out below.  An item without
    [images] throws on reading [large], which ends the loop: the cards of
    the items before it stay, nothing is rendered for it or the items after
    it, there is no pagination, and the [catch] handler writes the error
    message into the results container. *)
Theorem render_video_fallbacks_and_missing_images
  (href : jsstring) (error_toString : exn -> jsstring)
  (pg : number)
  (members image_members : list (jsstring * value))
  (content title uploader publisher large : option jsstring)
  (text : jsstring) (payload : value) (before after : list value)
  (bad : list (jsstring * value)) (bad_content : option jsstring)
  (cards : list effect) :
  lookup members (js "images") = Some (VObject image_members) ->
  lookup members (js "content") = option_map VString content ->
  lookup members (js "title") = option_map VString title ->
  lookup members (js "uploader") = option_map VString uploader ->
  lookup members (js "publisher") = option_map VString publisher ->
  lookup image_members (js "large") = option_map VString large ->
  Videos.page href = ret pg ->
  JSON_parse text = ret payload ->
  getProp payload "results" = ret (VArray (before ++ VObject bad :: after)) ->
  for_each Videos.render_video before = (cards, Ok tt) ->
  lookup bad (js "images") = None ->
  lookup bad (js "content") = option_map VString bad_content ->
  Videos.render_video (VObject members)
  = ([AppendChild "videoResults"
        (Element "a"
           [("className"%string, js "video-card");
            ("href"%string, or_else content (js "#"));
            ("target"%string, js "_blank")]
           [Element "img"
              [("className"%string, js "video-thumb");
               ("src"%string,
                or_else large
                  (js "data:image/svg+xml;charset=UTF-8,"
                   ++ js "%3Csvg%20width%3D'160'%20height%3D'90'%20xmlns%3D'http%3A%2F%2Fwww.w3.org%2F2000%2Fsvg'%3E%0A%20%20%20%20%20%20%20%20%20%20%20%20%20%20%20%20%20%20%20%20%20%20%3Crect%20width%3D'160'%20height%3D'90'%20fill%3D'%23333'%2F%3E%0A%20%20%20%20%20%20%20%20%20%20%20%20%20%20%20%20%20%20%20%20%20%20%3Ctext%20x%3D'50%25'%20y%3D'50%25'%20fill%3D'%23aaa'%20font-size%3D'14'%20text-anchor%3D'middle'%20dy%3D'.3em'%3ENo%20Thumbnail%3C%2Ftext%3E%0A%20%20%20%20%20%20%20%20%20%20%20%20%20%20%20%20%20%20%20%3C%2Fsvg%3E"))] [];
            div "video-info" []
              [div "video-title"
                 [("textContent"%string, or_else title (js "Untitled Video"))] [];
               div "video-meta"
                 [("textContent"%string,
                   or_else uploader (js "Unknown Creator") ++ [32; 8226; 32]
                   ++ or_else publisher (js "Unknown Platform"))] []]])],
     Ok tt)
  /\ exists encoded,
       uri_encode (nullable_toString (Videos.query href)) = Some encoded
       /\ Videos.main href error_toString (Body text)
          = ([Fetch (Videos.url href encoded pg); SetInnerHTML "videoResults" (js "")]
             ++ cards
             ++ [ConsoleError (js "Error loading search results:") (TypeError "large");
                 SetInnerHTML "results"
                   (js "<p>Error loading search results. Please try again.<br>"
                    ++ error_toString (TypeError "large") ++ js "</p>")],
             Ok tt).
Proof.
  intros IM C T U P L PG J R B BI BC.
  assert (uri_encode Videos.no_thumbnail_svg
          = Some (js "%3Csvg%20width%3D'160'%20height%3D'90'%20xmlns%3D'http%3A%2F%2Fwww.w3.org%2F2000%2Fsvg'%3E%0A%20%20%20%20%20%20%20%20%20%20%20%20%20%20%20%20%20%20%20%20%20%20%3Crect%20width%3D'160'%20height%3D'90'%20fill%3D'%23333'%2F%3E%0A%20%20%20%20%20%20%20%20%20%20%20%20%20%20%20%20%20%20%20%20%20%20%3Ctext%20x%3D'50%25'%20y%3D'50%25'%20fill%3D'%23aaa'%20font-size%3D'14'%20text-anchor%3D'middle'%20dy%3D'.3em'%3ENo%20Thumbnail%3C%2Ftext%3E%0A%20%20%20%20%20%20%20%20%20%20%20%20%20%20%20%20%20%20%20%3C%2Fsvg%3E")) as SVG.
  { vm_compute. reflexivity. }
  destruct (videos_encodedQuery_defined href) as (encoded & E' & E).
  split; [|exists encoded; split; [exact E'|]].
  - unfold Videos.render_video.
    rewrite (getProp_optional _ "content" content C), bind_ret, or_string_optional, bind_ret.
    unfold getProp at 1. rewrite IM, bind_ret.
    rewrite (getProp_optional _ "large" large L), bind_ret.
    rewrite (getProp_optional _ "title" title T), bind_ret, or_string_optional.
    rewrite (getProp_optional _ "uploader" uploader U), bind_ret, or_string_optional.
    rewrite (getProp_optional _ "publisher" publisher P), bind_ret, or_string_optional.
    unfold encodeURIComponent. rewrite SVG.
    destruct large as [[|c r]|]; reflexivity.
  - destruct (JSON_parse_ok_not_sentinel _ _ J) as [NQ NR].
    unfold Videos.main. rewrite E, PG, !bind_ret.
    rewrite getUrlContents_body, bind_ok, NQ, NR, bind_ret, J, bind_ret, R, bind_ret.
    rewrite bind_emit. unfold Videos.forEach_items. rewrite bind_ret.
    rewrite for_each_app, B. simpl for_each.
    assert (Videos.render_video (VObject bad) = throw (TypeError "large")) as ->.
    { unfold Videos.render_video.
      rewrite (getProp_optional _ "content" bad_content BC), bind_ret,
        or_string_optional, bind_ret.
      unfold getProp at 1. rewrite BI, bind_ret. reflexivity. }
    rewrite bind_throw. unfold bind, throw, try_catch, trace, result, emit. simpl.
    now rewrite app_nil_r.
Qed.

Lemma render_video_fallbacks_and_missing_images_witness :
  let bare := VObject [(js "images", VObject [])] in
  let text := js "{" ++ quote ++ js "results" ++ quote ++ js ":[{"
              ++ quote ++ js "images" ++ quote ++ js ":{}},{"
              ++ quote ++ js "title" ++ quote ++ js ":" ++ quote ++ js "x" ++ quote
              ++ js "},{" ++ quote ++ js "images" ++ quote ++ js ":{}}]}" in
  Videos.render_video bare
  = ([AppendChild "videoResults"
        (Element "a"
           [("className"%string, js "video-card");
            ("href"%string, or_else None (js "#"));
            ("target"%string, js "_blank")]
           [Element "img"
              [("className"%string, js "video-thumb");
               ("src"%string,
                or_else None
                  (js "data:image/svg+xml;charset=UTF-8,"
                   ++ js "%3Csvg%20width%3D'160'%20height%3D'90'%20xmlns%3D'http%3A%2F%2Fwww.w3.org%2F2000%2Fsvg'%3E%0A%20%20%20%20%20%20%20%20%20%20%20%20%20%20%20%20%20%20%20%20%20%20%3Crect%20width%3D'160'%20height%3D'90'%20fill%3D'%23333'%2F%3E%0A%20%20%20%20%20%20%20%20%20%20%20%20%20%20%20%20%20%20%20%20%20%20%3Ctext%20x%3D'50%25'%20y%3D'50%25'%20fill%3D'%23aaa'%20font-size%3D'14'%20text-anchor%3D'middle'%20dy%3D'.3em'%3ENo%20Thumbnail%3C%2Ftext%3E%0A%20%20%20%20%20%20%20%20%20%20%20%20%20%20%20%20%20%20%20%3C%2Fsvg%3E"))] [];
            div "video-info" []
              [div "video-title"
                 [("textContent"%string, or_else None (js "Untitled Video"))] [];
               div "video-meta"
                 [("textContent"%string,
                   or_else None (js "Unknown Creator") ++ [32; 8226; 32]
                   ++ or_else None (js "Unknown Platform"))] []]])],
     Ok tt)
  /\ exists encoded,
       uri_encode (nullable_toString
                     (Videos.query (js "https://nilch.org/videos.html?q=cats")))
       = Some encoded
       /\ Videos.main (js "https://nilch.org/videos.html?q=cats")
            (fun _ => js "TypeError") (Body text)
          = ([Fetch (Videos.url (js "https://nilch.org/videos.html?q=cats") encoded (Num 0));
              SetInnerHTML "videoResults" (js "")]
             ++ trace (Videos.render_video bare)
             ++ [ConsoleError (js "Error loading search results:") (TypeError "large");
                 SetInnerHTML "results"
                   (js "<p>Error loading search results. Please try again.<br>"
                    ++ js "TypeError" ++ js "</p>")],
             Ok tt).
Proof.
  intros bare text.
  apply (render_video_fallbacks_and_missing_images
           (js "https://nilch.org/videos.html?q=cats") (fun _ => js "TypeError")
           (Num 0)
           [(js "images", VObject [])] [] None None None None None
           text
           (VObject [(js "results",
                      VArray [bare; VObject [(js "title", VString (js "x"))]; bare])])
           [bare] [bare] [(js "title", VString (js "x"))] None
           (trace (Videos.render_video bare)));
    reflexivity.
Defined.

(** ** Round trips of the encodings

    Serializing a parameter list and parsing it again, and parsing what
    [encodeURIComponent] wrote, give back the strings if they have no
    unpaired surrogate. *)

Lemma lor_high_low (a x n : N) : x < 2 ^ n -> N.lor (a * 2 ^ n) x = a * 2 ^ n + x.
Proof.
  intro H. rewrite <- N.shiftl_mul_pow2.
  assert (N.land (N.shiftl a n) x = 0) as D.
  { apply N.bits_inj_0. intro m. rewrite N.land_spec.
    destruct (N.lt_ge_cases m n) as [L|G].
    - now rewrite N.shiftl_spec_low.
    - destruct (N.eq_dec x 0) as [->|NZ]; [now rewrite N.bits_0, andb_false_r|].
      rewrite (N.bits_above_log2 x m), andb_false_r; [reflexivity|].
      apply N.lt_le_trans with n; [|exact G].
      apply N.log2_lt_pow2; [lia|exact H]. }
  now rewrite <- N.lxor_lor, <- N.add_nocarry_lxor by exact D.
Qed.

Lemma utf8_encode_value (cp : N) :
  cp < 1114112 ->
  utf8_encode cp =
    if cp <? 128 then [cp]
    else if cp <? 2048 then [192 + cp / 64; 128 + cp mod 64]
    else if cp <? 65536 then [224 + cp / 4096; 128 + (cp / 64) mod 64; 128 + cp mod 64]
    else [240 + cp / 262144; 128 + (cp / 4096) mod 64; 128 + (cp / 64) mod 64;
          128 + cp mod 64].
Proof.
  intro B. unfold utf8_encode.
  change 63 with (N.ones 6). rewrite !N.land_ones, !N.shiftr_div_pow2.
  change (2 ^ 6) with 64. change (2 ^ 12) with 4096. change (2 ^ 18) with 262144.
  assert (forall y, y < 64 -> N.lor 128 y = 128 + y) as L128.
  { intros y Y. apply (lor_high_low 2 y 6). exact Y. }
  assert (forall y, y < 64 -> N.lor 192 y = 192 + y) as L192.
  { intros y Y. apply (lor_high_low 3 y 6). exact Y. }
  assert (forall y, y < 32 -> N.lor 224 y = 224 + y) as L224.
  { intros y Y. apply (lor_high_low 7 y 5). exact Y. }
  assert (forall y, y < 16 -> N.lor 240 y = 240 + y) as L240.
  { intros y Y. apply (lor_high_low 15 y 4). exact Y. }
  destruct (N.ltb_spec cp 128); [reflexivity|].
  destruct (N.ltb_spec cp 2048).
  { rewrite L192, L128 by lia. reflexivity. }
  destruct (N.ltb_spec cp 65536).
  { rewrite L224, !L128 by lia. reflexivity. }
  rewrite L240, !L128 by lia. reflexivity.
Qed.

Lemma decode_ascii (b cp lo up : N) (r : list N) :
  b < 128 ->
  utf8_decode_from 0 cp lo up (b :: r) = b :: utf8_decode_from 0 0 128 191 r.
Proof.
  intro B. cbn [utf8_decode_from].
  destruct (N.ltb_spec b 128); [reflexivity | lia].
Qed.

Lemma decode_lead2 (b cp lo up : N) (r : list N) :
  in_range 194 223 b = true ->
  utf8_decode_from 0 cp lo up (b :: r) = utf8_decode_from 1 (N.land b 31) 128 191 r.
Proof.
  intro B. cbn [utf8_decode_from]. rewrite B.
  apply in_range_bounds in B.
  destruct (N.ltb_spec b 128); [lia | reflexivity].
Qed.

Lemma decode_lead3 (b cp lo up : N) (r : list N) :
  in_range 224 239 b = true ->
  utf8_decode_from 0 cp lo up (b :: r)
  = utf8_decode_from 2 (N.land b 15)
      (if b =? 224 then 160 else 128) (if b =? 237 then 159 else 191) r.
Proof.
  intro B. cbn [utf8_decode_from]. rewrite B.
  apply in_range_bounds in B.
  destruct (N.ltb_spec b 128); [lia|].
  destruct (in_range 194 223 b) eqn:E; [apply in_range_bounds in E; lia | reflexivity].
Qed.

Lemma decode_lead4 (b cp lo up : N) (r : list N) :
  in_range 240 244 b = true ->
  utf8_decode_from 0 cp lo up (b :: r)
  = utf8_decode_from 3 (N.land b 7)
      (if b =? 240 then 144 else 128) (if b =? 244 then 143 else 191) r.
Proof.
  intro B. cbn [utf8_decode_from]. rewrite B.
  apply in_range_bounds in B.
  destruct (N.ltb_spec b 128); [lia|].
  destruct (in_range 194 223 b) eqn:E; [apply in_range_bounds in E; lia|].
  destruct (in_range 224 239 b) eqn:E'; [apply in_range_bounds in E'; lia | reflexivity].
Qed.

Lemma decode_last (b cp lo up : N) (r : list N) :
  in_range lo up b = true ->
  utf8_decode_from 1 cp lo up (b :: r)
  = continue_with cp b :: utf8_decode_from 0 0 128 191 r.
Proof. intro B. cbn [utf8_decode_from]. now rewrite B. Qed.

Lemma decode_more (n : nat) (b cp lo up : N) (r : list N) :
  in_range lo up b = true ->
  utf8_decode_from (S (S n)) cp lo up (b :: r)
  = utf8_decode_from (S n) (continue_with cp b) 128 191 r.
Proof. intro B. cbn [utf8_decode_from]. now rewrite B. Qed.

Lemma utf8_decode_encode (cp : N) (r : list N) :
  is_scalar cp = true ->
  utf8_decode_from 0 0 128 191 (utf8_encode cp ++ r)
  = cp :: utf8_decode_from 0 0 128 191 r.
Proof.
  intro S. apply is_scalar_spec in S. destruct S as [B S].
  rewrite (utf8_encode_value cp B).
  destruct (N.ltb_spec cp 128).
  { cbn [app]. now apply decode_ascii. }
  destruct (N.ltb_spec cp 2048).
  { cbn [app]. rewrite decode_lead2 by (apply in_range_bounds; lia).
    rewrite decode_last by (apply in_range_bounds; lia).
    f_equal. rewrite continue_with_value.
    change 31 with (N.ones 5). rewrite N.land_ones. change (2 ^ 5) with 32. lia. }
  destruct (N.ltb_spec cp 65536).
  { cbn [app]. rewrite decode_lead3 by (apply in_range_bounds; lia).
    rewrite decode_more.
    2:{ apply in_range_bounds.
        destruct (N.eqb_spec (224 + cp / 4096) 224), (N.eqb_spec (224 + cp / 4096) 237); lia. }
    rewrite decode_last by (apply in_range_bounds; lia).
    f_equal. rewrite !continue_with_value.
    change 15 with (N.ones 4). rewrite N.land_ones. change (2 ^ 4) with 16. lia. }
  cbn [app]. rewrite decode_lead4 by (apply in_range_bounds; lia).
  rewrite decode_more.
  2:{ apply in_range_bounds.
      destruct (N.eqb_spec (240 + cp / 262144) 240), (N.eqb_spec (240 + cp / 262144) 244); lia. }
  rewrite decode_more by (apply in_range_bounds; lia).
  rewrite decode_last by (apply in_range_bounds; lia).
  f_equal. rewrite !continue_with_value.
  change 7 with (N.ones 3). rewrite N.land_ones. change (2 ^ 3) with 8. lia.
Qed.

Lemma utf8_decode_encode_all (cps : list N) :
  Forall (fun c => is_scalar c = true) cps ->
  utf8_decode_from 0 0 128 191 (flat_map utf8_encode cps) = cps.
Proof.
  induction 1 as [|cp cps S _ IH]; [reflexivity|].
  cbn [flat_map]. now rewrite utf8_decode_encode, IH.
Qed.

Lemma utf16_encode_pair (c d : N) :
  is_lead_surrogate c = true -> is_trail_surrogate d = true ->
  utf16_encode (surrogate_pair c d) = [c; d] /\ is_scalar (surrogate_pair c d) = true.
Proof.
  intros C D. apply in_range_bounds in C, D.
  unfold utf16_encode, surrogate_pair. split.
  - destruct (N.ltb_spec ((c - 55296) * 1024 + (d - 56320) + 65536) 65536); [lia|].
    rewrite N.shiftr_div_pow2. change 1023 with (N.ones 10). rewrite N.land_ones.
    change (2 ^ 10) with 1024. f_equal; [lia|]. f_equal. lia.
  - apply is_scalar_spec. lia.
Qed.

Lemma code_points_single (c : N) (r : jsstring) :
  is_trail_surrogate c = false -> is_lead_surrogate c = false ->
  code_points (c :: r) = c :: code_points r.
Proof. intros T L. cbn [code_points]. now rewrite T, L. Qed.

Lemma code_points_pair (c d : N) (r : jsstring) :
  is_trail_surrogate c = false -> is_lead_surrogate c = true ->
  is_trail_surrogate d = true ->
  code_points (c :: d :: r) = surrogate_pair c d :: code_points r.
Proof. intros T L D. cbn [code_points]. now rewrite T, L, D. Qed.

Lemma is_well_formed_cons (c : N) (r : jsstring) :
  is_well_formed (c :: r) = true ->
  is_trail_surrogate c = false /\
  ((is_lead_surrogate c = false /\ c < 65536 /\ is_well_formed r = true) \/
   (is_lead_surrogate c = true /\
    exists d r', r = d :: r' /\ is_trail_surrogate d = true /\ is_well_formed r' = true)).
Proof.
  cbn [is_well_formed]. destruct (is_trail_surrogate c); [discriminate|].
  intro W. split; [reflexivity|].
  destruct (is_lead_surrogate c).
  - right. split; [reflexivity|]. destruct r as [|d r']; [discriminate|].
    apply andb_true_iff in W. destruct W. eauto.
  - left. apply andb_true_iff in W. destruct W as [B W]. apply N.ltb_lt in B. auto.
Qed.

Lemma plain_unit_scalar (c : N) :
  is_trail_surrogate c = false -> is_lead_surrogate c = false -> c < 65536 ->
  is_scalar c = true /\ utf16_encode c = [c].
Proof.
  intros T L B. split.
  - apply is_scalar_spec. split; [lia|].
    destruct (N.lt_ge_cases c 55296); [now left|right].
    destruct (N.lt_ge_cases 57343 c); [assumption|].
    assert (in_range 55296 56319 c = true \/ in_range 56320 57343 c = true) as [X|X].
    { rewrite !in_range_bounds. lia. }
    + unfold is_lead_surrogate in L. congruence.
    + unfold is_trail_surrogate in T. congruence.
  - unfold utf16_encode. apply N.ltb_lt in B. now rewrite B.
Qed.

Lemma code_points_well_formed_bounded (n : nat) :
  forall s, (length s <= n)%nat -> is_well_formed s = true ->
  Forall (fun c => is_scalar c = true) (code_points s)
  /\ flat_map utf16_encode (code_points s) = s.
Proof.
  induction n as [|n IH]; intros s L W.
  - destruct s; [split; [constructor|reflexivity] | simpl in L; lia].
  - destruct s as [|c r]; [split; [constructor|reflexivity]|].
    simpl in L.
    destruct (is_well_formed_cons c r W) as [T [(LS & B & W')|(LS & d & r' & -> & D & W')]].
    + destruct (IH r ltac:(lia) W') as [F E].
      destruct (plain_unit_scalar c T LS B) as [S U].
      rewrite code_points_single by assumption.
      split; [constructor; assumption|]. cbn [flat_map]. now rewrite U, E.
    + simpl in L. destruct (IH r' ltac:(lia) W') as [F E].
      destruct (utf16_encode_pair c d LS D) as [P S].
      rewrite code_points_pair by assumption.
      split; [constructor; assumption|]. cbn [flat_map]. now rewrite P, E.
Qed.

Lemma code_points_well_formed (s : jsstring) :
  is_well_formed s = true ->
  Forall (fun c => is_scalar c = true) (code_points s)
  /\ flat_map utf16_encode (code_points s) = s.
Proof. apply (code_points_well_formed_bounded (length s)). lia. Qed.

Lemma utf8_decode_bytes (s : jsstring) :
  is_well_formed s = true -> utf8_decode (utf8_bytes s) = s.
Proof.
  intro W. destruct (code_points_well_formed s W) as [F E].
  unfold utf8_decode, utf8_bytes. now rewrite utf8_decode_encode_all.
Qed.

Lemma percent_decode_plain (b : N) (r : list N) :
  b <> 37 -> percent_decode (b :: r) = b :: percent_decode r.
Proof.
  intro NE. cbn [percent_decode].
  destruct (N.eqb_spec b 37); [contradiction | reflexivity].
Qed.

Lemma percent_decode_escape (h l x y : N) (r : list N) :
  hex_value h = Some x -> hex_value l = Some y ->
  percent_decode (37 :: h :: l :: r) = (16 * x + y) :: percent_decode r.
Proof. intros H L. cbn [percent_decode]. now rewrite N.eqb_refl, H, L. Qed.

Lemma hex_value_digit (x : N) : x < 16 -> hex_value (hex_digit x) = Some x.
Proof.
  intro B. unfold hex_digit, hex_value, is_digit.
  destruct (N.ltb_spec x 10).
  - assert (in_range 48 57 (48 + x) = true) as -> by (apply in_range_bounds; lia).
    f_equal. lia.
  - destruct (in_range 48 57 (55 + x)) eqn:E; [apply in_range_bounds in E; lia|].
    assert (in_range 65 70 (55 + x) = true) as -> by (apply in_range_bounds; lia).
    f_equal. lia.
Qed.

Lemma hex_digit_bounds (x : N) :
  x < 16 -> 48 <= hex_digit x <= 57 \/ 65 <= hex_digit x <= 70.
Proof. intro B. unfold hex_digit. destruct (N.ltb_spec x 10); lia. Qed.

Lemma octet_nibbles (b : N) :
  b < 256 -> N.shiftr b 4 < 16 /\ N.land b 15 < 16
             /\ 16 * N.shiftr b 4 + N.land b 15 = b.
Proof.
  intro B. rewrite N.shiftr_div_pow2. change 15 with (N.ones 4).
  rewrite N.land_ones. change (2 ^ 4) with 16. lia.
Qed.

Lemma percent_decode_octet (b : N) (r : list N) :
  b < 256 ->
  percent_decode (plus_to_space (percent_octet b ++ r))
  = b :: percent_decode (plus_to_space r).
Proof.
  intro B. destruct (octet_nibbles b B) as (H & L & E).
  pose proof (hex_digit_bounds _ H) as BH. pose proof (hex_digit_bounds _ L) as BL.
  unfold percent_octet, plus_to_space. cbn [app map].
  destruct (N.eqb_spec (hex_digit (N.shiftr b 4)) 43); [lia|].
  destruct (N.eqb_spec (hex_digit (N.land b 15)) 43); [lia|].
  change (37 =? 43) with false. cbv iota.
  rewrite (percent_decode_escape _ _ _ _ _ (hex_value_digit _ H) (hex_value_digit _ L)).
  now rewrite E.
Qed.

Lemma form_unreserved_plain (b : N) :
  is_ascii_letter b || is_digit b || existsb (N.eqb b) [42; 45; 46; 95] = true ->
  b <> 43 /\ b <> 37 /\ b <> 38 /\ b <> 61 /\ b < 128.
Proof.
  unfold is_ascii_letter, is_digit, in_range. simpl existsb.
  rewrite ?orb_true_iff, ?andb_true_iff, ?N.eqb_eq, ?N.leb_le. lia.
Qed.

Lemma percent_decode_form_byte (b : N) (r : list N) :
  b < 256 ->
  percent_decode (plus_to_space (form_byte b ++ r))
  = b :: percent_decode (plus_to_space r).
Proof.
  intro B. unfold form_byte.
  destruct (N.eqb_spec b 32) as [->|NS].
  - cbn [app plus_to_space map]. change (43 =? 43) with true. cbv iota.
    now rewrite percent_decode_plain by discriminate.
  - destruct (is_ascii_letter b || is_digit b || existsb (N.eqb b) [42; 45; 46; 95]) eqn:U.
    + apply form_unreserved_plain in U. destruct U as (P & Q & _).
      cbn [app plus_to_space map].
      destruct (N.eqb_spec b 43); [contradiction|].
      now rewrite percent_decode_plain.
    + now apply percent_decode_octet.
Qed.

Lemma percent_decode_form_bytes (bs : list N) :
  Forall (fun b => b < 256) bs ->
  percent_decode (plus_to_space (flat_map form_byte bs)) = bs.
Proof.
  induction 1 as [|b bs B _ IH]; [reflexivity|].
  cbn [flat_map]. now rewrite percent_decode_form_byte, IH.
Qed.

Lemma utf8_encode_octets (cp : N) :
  cp < 1114112 -> Forall (fun b => b < 256) (utf8_encode cp).
Proof.
  intro B. rewrite (utf8_encode_value cp B).
  destruct (N.ltb_spec cp 128); [repeat constructor; lia|].
  destruct (N.ltb_spec cp 2048); [repeat constructor; lia|].
  destruct (N.ltb_spec cp 65536); repeat constructor; lia.
Qed.

Lemma utf8_bytes_octets (s : jsstring) :
  is_well_formed s = true -> Forall (fun b => b < 256) (utf8_bytes s).
Proof.
  intro W. destruct (code_points_well_formed s W) as [F _].
  unfold utf8_bytes. induction F as [|cp cps S _ IH]; [constructor|].
  cbn [flat_map]. apply Forall_app. split; [|exact IH].
  apply utf8_encode_octets. apply is_scalar_spec in S. tauto.
Qed.

(** Decoding what the serializer wrote gives the text back. *)
Lemma form_decode_encode (s : jsstring) :
  is_well_formed s = true -> form_decode (form_encode s) = s.
Proof.
  intro W. unfold form_decode, form_encode.
  rewrite percent_decode_form_bytes by now apply utf8_bytes_octets.
  now apply utf8_decode_bytes.
Qed.

Lemma form_safe_spec (c : N) : form_safe c = true <-> c < 128 /\ c <> 38 /\ c <> 61.
Proof.
  unfold form_safe. rewrite !andb_true_iff, !negb_true_iff, N.ltb_lt, !N.eqb_neq. tauto.
Qed.

Lemma form_byte_safe (b : N) :
  b < 256 -> Forall (fun c => form_safe c = true) (form_byte b).
Proof.
  intro B. unfold form_byte.
  destruct (N.eqb_spec b 32); [repeat constructor|].
  destruct (is_ascii_letter b || is_digit b || existsb (N.eqb b) [42; 45; 46; 95]) eqn:U.
  - apply form_unreserved_plain in U.
    constructor; [apply form_safe_spec; lia | constructor].
  - destruct (octet_nibbles b B) as (H & L & _).
    pose proof (hex_digit_bounds _ H). pose proof (hex_digit_bounds _ L).
    unfold percent_octet.
    constructor; [reflexivity|].
    constructor; [apply form_safe_spec; lia|].
    constructor; [apply form_safe_spec; lia | constructor].
Qed.

Lemma form_encode_safe (s : jsstring) :
  is_well_formed s = true -> Forall (fun c => form_safe c = true) (form_encode s).
Proof.
  intro W. pose proof (utf8_bytes_octets s W) as F. unfold form_encode.
  induction F as [|b bs B _ IH]; [constructor|].
  cbn [flat_map]. apply Forall_app. split; [now apply form_byte_safe | exact IH].
Qed.

Lemma utf8_bytes_ascii (s : jsstring) :
  Forall (fun c => c < 128) s -> utf8_bytes s = s.
Proof.
  unfold utf8_bytes. induction 1 as [|c r C _ IH]; [reflexivity|].
  rewrite code_points_single.
  - cbn [flat_map]. rewrite IH. unfold utf8_encode.
    apply N.ltb_lt in C. now rewrite C.
  - apply not_true_is_false. intro T. apply in_range_bounds in T. lia.
  - apply not_true_is_false. intro T. apply in_range_bounds in T. lia.
Qed.

Lemma split_first_found (sep : N) (a b : list N) :
  Forall (fun c => c <> sep) a -> split_first sep (a ++ sep :: b) = (a, b).
Proof.
  induction 1 as [|c a C _ IH]; cbn [app split_first].
  - now rewrite N.eqb_refl.
  - destruct (N.eqb_spec c sep); [contradiction|]. now rewrite IH.
Qed.

Lemma split_on_none (sep : N) (a : list N) :
  Forall (fun c => c <> sep) a -> split_on sep a = [a].
Proof.
  induction 1 as [|c a C _ IH]; cbn [split_on]; [reflexivity|].
  destruct (N.eqb_spec c sep); [contradiction|]. now rewrite IH.
Qed.

Lemma split_on_app (sep : N) (a b : list N) :
  Forall (fun c => c <> sep) a ->
  split_on sep (a ++ sep :: b) = a :: split_on sep b.
Proof.
  induction 1 as [|c a C _ IH]; cbn [app split_on].
  - now rewrite N.eqb_refl.
  - destruct (N.eqb_spec c sep); [contradiction|]. now rewrite IH.
Qed.

Lemma split_on_join (sep : N) (segs : list (list N)) :
  segs <> [] -> Forall (Forall (fun c => c <> sep)) segs ->
  split_on sep (join [sep] segs) = segs.
Proof.
  intros NE F. induction F as [|x segs X F IH]; [contradiction|].
  destruct segs as [|y segs].
  - cbn [join]. now apply split_on_none.
  - change (join [sep] (x :: y :: segs)) with (x ++ [sep] ++ join [sep] (y :: segs)).
    cbn [app]. rewrite split_on_app by exact X. f_equal. apply IH. discriminate.
Qed.

Lemma form_safe_not (sep : N) (l : list N) :
  sep = 38 \/ sep = 61 ->
  Forall (fun c => form_safe c = true) l -> Forall (fun c => c <> sep) l.
Proof.
  intros S F. induction F as [|c l C _ IH]; constructor; [|exact IH].
  apply form_safe_spec in C. lia.
Qed.

Lemma form_safe_ascii (l : list N) :
  Forall (fun c => form_safe c = true) l -> Forall (fun c => c < 128) l.
Proof.
  intro F. induction F as [|c l C _ IH]; constructor; [|exact IH].
  apply form_safe_spec in C. lia.
Qed.

Lemma join_ascii (sep : N) (segs : list (list N)) :
  sep < 128 -> Forall (Forall (fun c => c < 128)) segs ->
  Forall (fun c => c < 128) (join [sep] segs).
Proof.
  intros S F. induction F as [|x segs X F IH]; [constructor|].
  destruct segs as [|y segs]; [exact X|].
  change (join [sep] (x :: y :: segs)) with (x ++ [sep] ++ join [sep] (y :: segs)).
  apply Forall_app. split; [exact X|]. constructor; [exact S | exact IH].
Qed.

Lemma parse_serialized_pair (k v : jsstring) :
  is_well_formed k = true -> is_well_formed v = true ->
  match form_encode k ++ [61] ++ form_encode v with
  | [] => []
  | _ :: _ =>
      let (name, value) := split_first 61 (form_encode k ++ [61] ++ form_encode v) in
      [(form_decode name, form_decode value)]
  end = [(k, v)].
Proof.
  intros K V.
  change ([61] ++ form_encode v) with (61 :: form_encode v).
  rewrite split_first_found
    by (apply form_safe_not; [now right | now apply form_encode_safe]).
  rewrite !form_decode_encode by assumption.
  now destruct (form_encode k).
Qed.

Lemma URLSearchParams_round_trip (params : URLSearchParams) :
  params_well_formed params = true ->
  new_URLSearchParams (js "?" ++ URLSearchParams_toString params) = params.
Proof.
  intro W. unfold URLSearchParams_toString.
  set (pair_text := fun kv : jsstring * jsstring =>
                      form_encode (fst kv) ++ [61] ++ form_encode (snd kv)).
  assert (Forall (fun kv => is_well_formed (fst kv) = true /\ is_well_formed (snd kv) = true)
                 params) as F.
  { apply Forall_forall. intros kv I.
    unfold params_well_formed in W. rewrite forallb_forall in W.
    apply andb_true_iff. now apply W. }
  assert (Forall (Forall (fun c => c < 128)) (map pair_text params)) as A.
  { clear W. induction F as [|[k v] ps [K V] _ IH]; constructor; [|exact IH].
    unfold pair_text. cbn [fst snd]. apply Forall_app. split.
    - now apply form_safe_ascii, form_encode_safe.
    - constructor; [lia|]. now apply form_safe_ascii, form_encode_safe. }
  assert (Forall (Forall (fun c => c <> 38)) (map pair_text params)) as S.
  { clear W A. induction F as [|[k v] ps [K V] _ IH]; constructor; [|exact IH].
    unfold pair_text. cbn [fst snd]. apply Forall_app. split.
    - apply form_safe_not; [now left | now apply form_encode_safe].
    - constructor; [discriminate|].
      apply form_safe_not; [now left | now apply form_encode_safe]. }
  change (new_URLSearchParams (js "?" ++ join [38] (map pair_text params)))
    with (flat_map
            (fun seq =>
               match seq with
               | [] => []
               | _ :: _ =>
                   let (name, value) := split_first 61 seq in
                   [(form_decode name, form_decode value)]
               end)
            (split_on 38 (utf8_bytes (join [38] (map pair_text params))))).
  rewrite utf8_bytes_ascii by (apply join_ascii; [lia | exact A]).
  destruct params as [|kv params]; [reflexivity|].
  rewrite split_on_join by (try discriminate; exact S).
  clear W A S. induction F as [|[k v] ps [K V] _ IH]; [reflexivity|].
  cbn [map flat_map]. unfold pair_text at 1 2. cbn [fst snd].
  rewrite (parse_serialized_pair k v K V). cbn [app]. f_equal. exact IH.
Qed.

Lemma utf16_encode_all_well_formed (cps : list N) :
  Forall (fun c => is_scalar c = true) cps ->
  is_well_formed (flat_map utf16_encode cps) = true.
Proof.
  induction 1 as [|cp cps S _ IH]; [reflexivity|].
  apply is_scalar_spec in S. cbn [flat_map]. unfold utf16_encode at 1.
  destruct (N.ltb_spec cp 65536) as [L|G].
  - cbn [app is_well_formed].
    assert (is_trail_surrogate cp = false) as ->.
    { apply not_true_is_false. intro T. apply in_range_bounds in T. lia. }
    assert (is_lead_surrogate cp = false) as ->.
    { apply not_true_is_false. intro T. apply in_range_bounds in T. lia. }
    apply N.ltb_lt in L. now rewrite L, IH.
  - set (hi := 55296 + N.shiftr (cp - 65536) 10).
    set (lo := 56320 + N.land (cp - 65536) 1023).
    assert (55296 <= hi <= 56319) as HI.
    { subst hi. rewrite N.shiftr_div_pow2. change (2 ^ 10) with 1024. lia. }
    assert (56320 <= lo <= 57343) as LO.
    { subst lo. change 1023 with (N.ones 10). rewrite N.land_ones.
      change (2 ^ 10) with 1024. lia. }
    cbn [app is_well_formed].
    assert (is_trail_surrogate hi = false) as ->.
    { apply not_true_is_false. intro T. apply in_range_bounds in T. lia. }
    assert (is_lead_surrogate hi = true) as -> by (apply in_range_bounds; lia).
    assert (is_trail_surrogate lo = true) as -> by (apply in_range_bounds; lia).
    now rewrite IH.
Qed.

Lemma form_decode_is_well_formed (bs : list N) : is_well_formed (form_decode bs) = true.
Proof.
  unfold form_decode, utf8_decode.
  apply utf16_encode_all_well_formed, utf8_decode_from_scalar. exact I.
Qed.

Lemma new_URLSearchParams_well_formed (init : jsstring) :
  params_well_formed (new_URLSearchParams init) = true.
Proof.
  unfold params_well_formed. apply forallb_forall. intros [k v] I.
  unfold new_URLSearchParams in I. apply in_flat_map in I.
  destruct I as [sequence [_ I]]. destruct sequence as [|c sequence]; [destruct I|].
  destruct (split_first 61 (c :: sequence)) as [n w]. destruct I as [I|[]].
  injection I as <- <-. cbn [fst snd].
  now rewrite !form_decode_is_well_formed.
Qed.

Lemma set_In (params : URLSearchParams) (name v : jsstring) (kv : jsstring * jsstring) :
  In kv (set params name v) -> In kv params \/ kv = (name, v).
Proof.
  induction params as [|[k w] params IH]; cbn [set].
  - intros [<-|[]]. now right.
  - destruct (jseq k name) eqn:E.
    + apply jseq_spec in E. subst k. intros [<-|I]; [now right|].
      apply filter_In in I. left. right. tauto.
    + intros [<-|I]; [left; now left|].
      destruct (IH I); [left; now right | now right].
Qed.

Lemma set_well_formed (params : URLSearchParams) (name v : jsstring) :
  params_well_formed params = true ->
  is_well_formed name = true -> is_well_formed v = true ->
  params_well_formed (set params name v) = true.
Proof.
  intros W N V. unfold params_well_formed in *.
  rewrite forallb_forall in *. intros kv I.
  destruct (set_In _ _ _ _ I) as [I'| ->]; [now apply W|].
  cbn [fst snd]. now rewrite N, V.
Qed.

Lemma uri_encode_chunks_bounded (n : nat) :
  forall s, (length s <= n)%nat -> is_well_formed s = true ->
  uri_encode s = Some (flat_map uri_chunk (code_points s)).
Proof.
  induction n as [|n IH]; intros s L W.
  - destruct s; [reflexivity | simpl in L; lia].
  - destruct s as [|c r]; [reflexivity|]. simpl in L.
    destruct (is_well_formed_cons c r W) as [T [(LS & B & W')|(LS & d & r' & -> & D & W')]].
    + rewrite uri_encode_single, code_points_single, (IH r) by (assumption || lia).
      cbn [flat_map]. change (uri_chunk c) with
        (if uri_unescaped c then [c] else percent_octets (utf8_encode c)).
      now destruct (uri_unescaped c).
    + simpl in L.
      assert (uri_unescaped c = false) as U.
      { apply not_true_is_false. intro X. apply uri_unescaped_ascii in X.
        apply in_range_bounds in LS. lia. }
      rewrite uri_encode_pair, code_points_pair, (IH r') by (assumption || lia).
      cbn [flat_map option_map].
      change (uri_chunk (surrogate_pair c d)) with
        (if uri_unescaped (surrogate_pair c d) then [surrogate_pair c d]
         else percent_octets (utf8_encode (surrogate_pair c d))).
      assert (uri_unescaped (surrogate_pair c d) = false) as ->; [|reflexivity].
      apply not_true_is_false. intro X. apply uri_unescaped_ascii in X.
      apply in_range_bounds in LS, D. unfold surrogate_pair in X. lia.
Qed.

Lemma uri_encode_chunks (s : jsstring) :
  is_well_formed s = true ->
  uri_encode s = Some (flat_map uri_chunk (code_points s)).
Proof. apply (uri_encode_chunks_bounded (length s)). lia. Qed.

Lemma uri_unescaped_plain (c : N) :
  uri_unescaped c = true ->
  c <> 43 /\ c <> 37 /\ c <> 38 /\ c <> 61 /\ c < 128.
Proof.
  unfold uri_unescaped, is_ascii_letter, is_digit, in_range. simpl existsb.
  rewrite ?orb_true_iff, ?andb_true_iff, ?N.eqb_eq, ?N.leb_le. lia.
Qed.

Lemma percent_decode_octets (bs r : list N) :
  Forall (fun b => b < 256) bs ->
  percent_decode (plus_to_space (percent_octets bs ++ r))
  = bs ++ percent_decode (plus_to_space r).
Proof.
  induction 1 as [|b bs B _ IH]; [reflexivity|].
  unfold percent_octets in *. cbn [flat_map]. rewrite <- app_assoc.
  rewrite percent_decode_octet by exact B. cbn [app]. now rewrite IH.
Qed.

Lemma percent_decode_uri_chunks (cps : list N) :
  Forall (fun c => is_scalar c = true) cps ->
  percent_decode (plus_to_space (flat_map uri_chunk cps)) = flat_map utf8_encode cps.
Proof.
  induction 1 as [|cp cps S _ IH]; [reflexivity|].
  apply is_scalar_spec in S. cbn [flat_map]. unfold uri_chunk at 1.
  destruct (uri_unescaped cp) eqn:U.
  - apply uri_unescaped_plain in U. destruct U as (P & Q & _ & _ & A).
    cbn [app plus_to_space map].
    destruct (N.eqb_spec cp 43); [contradiction|].
    rewrite percent_decode_plain by exact Q.
    unfold plus_to_space in IH. rewrite IH.
    unfold utf8_encode. apply N.ltb_lt in A. now rewrite A.
  - rewrite percent_decode_octets by (apply utf8_encode_octets; tauto).
    now rewrite IH.
Qed.

Lemma uri_chunks_safe (cps : list N) :
  Forall (fun c => is_scalar c = true) cps ->
  Forall (fun c => form_safe c = true) (flat_map uri_chunk cps).
Proof.
  induction 1 as [|cp cps S _ IH]; [constructor|].
  apply is_scalar_spec in S. cbn [flat_map]. apply Forall_app. split; [|exact IH].
  unfold uri_chunk. destruct (uri_unescaped cp) eqn:U.
  - apply uri_unescaped_plain in U. constructor; [apply form_safe_spec; lia | constructor].
  - pose proof (utf8_encode_octets cp (proj1 S)) as O.
    unfold percent_octets. induction O as [|b bs B _ IHb]; [constructor|].
    cbn [flat_map]. apply Forall_app. split; [|exact IHb].
    destruct (octet_nibbles b B) as (H & L & _).
    pose proof (hex_digit_bounds _ H). pose proof (hex_digit_bounds _ L).
    unfold percent_octet.
    constructor; [reflexivity|].
    constructor; [apply form_safe_spec; lia|].
    constructor; [apply form_safe_spec; lia | constructor].
Qed.

(** The component [encodeURIComponent] writes, read back as the value of
    the one parameter [name]. *)
Lemma component_round_trip (name s e : jsstring) :
  Forall (fun c => form_safe c = true) name -> form_decode name = name ->
  name <> [] ->
  is_well_formed s = true -> uri_encode s = Some e ->
  new_URLSearchParams (js "?" ++ name ++ js "=" ++ e) = [(name, s)].
Proof.
  intros NS ND NE W E.
  rewrite (uri_encode_chunks s W) in E. injection E as <-.
  destruct (code_points_well_formed s W) as [F U].
  pose proof (uri_chunks_safe _ F) as SF.
  change (new_URLSearchParams (js "?" ++ name ++ js "=" ++ flat_map uri_chunk (code_points s)))
    with (flat_map
            (fun seq =>
               match seq with
               | [] => []
               | _ :: _ =>
                   let (name, value) := split_first 61 seq in
                   [(form_decode name, form_decode value)]
               end)
            (split_on 38
               (utf8_bytes (name ++ 61 :: flat_map uri_chunk (code_points s))))).
  rewrite utf8_bytes_ascii.
  2:{ apply Forall_app. split; [now apply form_safe_ascii|].
      constructor; [lia | now apply form_safe_ascii]. }
  rewrite split_on_none.
  2:{ apply Forall_app. split; [apply form_safe_not; [now left|assumption]|].
      constructor; [discriminate | apply form_safe_not; [now left|assumption]]. }
  cbn [flat_map]. rewrite app_nil_r.
  rewrite split_first_found by (apply form_safe_not; [now right|assumption]).
  destruct name as [|c name]; [contradiction|]. cbn [app].
  rewrite ND. unfold form_decode at 1.
  rewrite percent_decode_uri_chunks by exact F.
  fold (utf8_bytes s). now rewrite utf8_decode_bytes.
Qed.

(** ** The web script: the exhausted retry *)

(** C3, as the code has it: on [noresults] with [failed=true] in the
    address the script renders the rate-limit message and does nothing
    else; no navigation follows.  The link of the message is written as
    [<a href='] followed by the address of the query [q] of the page on
    DuckDuckGo, percent-encoded, and an apostrophe.  The encoded text
    decodes to [q]; but [encodeURIComponent] leaves an apostrophe of [q] as
    it is, so the address the HTML parser reads from the attribute is the
    one written exactly when [q] holds no apostrophe, and ends before the
    first apostrophe of [q] otherwise: the link then does not carry the
    query. *)
Theorem noresults_retry_exhausted
  (search q : jsstring) (hostname : jsstring -> option jsstring)
  (error_toString : exn -> jsstring) (pg : number) :
  get (Results.urlParams search) (js "q") = Some q ->
  get (Results.urlParams search) (js "failed") = Some (js "true") ->
  Results.page search = ret pg ->
  exists encoded,
    uri_encode q = Some encoded
    /\ Results.urlParams (js "?q=" ++ encoded) = [(js "q", q)]
    /\ Results.main search hostname error_toString (Body (js "noresults"))
       = ([Fetch (Results.url search encoded pg);
           SetInnerHTML "results"
             (js "<h1>Woah!</h1><p>nilch has been getting unexpected amounts of traffic, thousands of searches within an hour or two! Unfortunately, this means API limits have been surpassed. <br><br><b>This should be fixed within one day</b>.</p><br>"
              ++ js "<a href='"
              ++ (js "https://duckduckgo.com/" ++ encoded)
              ++ js "'>Search the same query on DuckDuckGo</a> until then?")],
          Ok tt)
    /\ navigations
         (trace (Results.main search hostname error_toString (Body (js "noresults"))))
       = []
    /\ (~ In 39 q ->
        quoted_attribute_value
          ((js "https://duckduckgo.com/" ++ encoded)
           ++ js "'>Search the same query on DuckDuckGo</a> until then?")
        = js "https://duckduckgo.com/" ++ encoded)
    /\ (In 39 q ->
        quoted_attribute_value
          ((js "https://duckduckgo.com/" ++ encoded)
           ++ js "'>Search the same query on DuckDuckGo</a> until then?")
        <> js "https://duckduckgo.com/" ++ encoded).
Proof.
  intros Q F P. destruct (encodedQuery_defined search) as (encoded & E & EQ).
  unfold Results.query in E. rewrite Q in E. cbn [nullable_toString] in E.
  exists encoded. split; [exact E|].
  assert (is_well_formed q = true) as W.
  { pose proof (new_URLSearchParams_well_formed search) as PW.
    unfold params_well_formed in PW. rewrite forallb_forall in PW.
    destruct (get_In _ _ _ Q) as [k I]. specialize (PW _ I).
    cbn [fst snd] in PW. apply andb_true_iff in PW. tauto. }
  split.
  { apply (component_round_trip (js "q") q encoded); try assumption.
    - repeat constructor.
    - reflexivity.
    - discriminate. }
  destruct (main_with_marker search hostname error_toString encoded pg F EQ P) as [M N].
  split; [|split; [exact N|]].
  { rewrite M. reflexivity. }
  assert (In 39 (js "https://duckduckgo.com/" ++ encoded) <-> In 39 q) as A.
  { rewrite <- (uri_encode_apostrophe q encoded E), in_app_iff.
    split; [|tauto]. intros [I|I]; [|exact I]. exfalso. revert I.
    vm_compute. intuition discriminate. }
  split.
  - intro NA. unfold quoted_attribute_value.
    change (js "'>Search the same query on DuckDuckGo</a> until then?")
      with (39 :: js ">Search the same query on DuckDuckGo</a> until then?").
    rewrite split_first_at; [reflexivity|]. now rewrite A.
  - intros IA H. apply (split_first_without 39
      ((js "https://duckduckgo.com/" ++ encoded)
       ++ js "'>Search the same query on DuckDuckGo</a> until then?")).
    unfold quoted_attribute_value in H. rewrite H. now apply A.
Qed.

Lemma noresults_retry_exhausted_witness :
  (Results.main (js "?q=cats&failed=true") (fun _ => None) (fun _ => js "")
     (Body (js "noresults"))
   = ([Fetch (js "https://unmappedstack.pythonanywhere.com/api/search?q=cats&safe=strict&page=0&language=en-GB&engine=duckduckgo");
       SetInnerHTML "results"
         (js "<h1>Woah!</h1><p>nilch has been getting unexpected amounts of traffic, thousands of searches within an hour or two! Unfortunately, this means API limits have been surpassed. <br><br><b>This should be fixed within one day</b>.</p><br>"
          ++ js "<a href='"
          ++ js "https://duckduckgo.com/cats"
          ++ js "'>Search the same query on DuckDuckGo</a> until then?")],
      Ok tt)
   /\ quoted_attribute_value
        (js "https://duckduckgo.com/cats"
         ++ js "'>Search the same query on DuckDuckGo</a> until then?")
      = js "https://duckduckgo.com/cats")
  /\ Results.main (js "?q=don%27t+panic&failed=true") (fun _ => None) (fun _ => js "")
       (Body (js "noresults"))
     = ([Fetch (js "https://unmappedstack.pythonanywhere.com/api/search?q=don't%20panic&safe=strict&page=0&language=en-GB&engine=duckduckgo");
         SetInnerHTML "results"
           (js "<h1>Woah!</h1><p>nilch has been getting unexpected amounts of traffic, thousands of searches within an hour or two! Unfortunately, this means API limits have been surpassed. <br><br><b>This should be fixed within one day</b>.</p><br>"
            ++ js "<a href='"
            ++ js "https://duckduckgo.com/don't%20panic"
            ++ js "'>Search the same query on DuckDuckGo</a> until then?")],
        Ok tt)
  /\ navigations
       (trace (Results.main (js "?q=don%27t+panic&failed=true") (fun _ => None)
                 (fun _ => js "") (Body (js "noresults"))))
     = []
  /\ quoted_attribute_value
       (js "https://duckduckgo.com/don't%20panic"
        ++ js "'>Search the same query on DuckDuckGo</a> until then?")
     = js "https://duckduckgo.com/don"
  /\ quoted_attribute_value
       (js "https://duckduckgo.com/don't%20panic"
        ++ js "'>Search the same query on DuckDuckGo</a> until then?")
     <> js "https://duckduckgo.com/don't%20panic".
Proof.
  split.
  - destruct (noresults_retry_exhausted (js "?q=cats&failed=true")
                (js "cats") (fun _ => None) (fun _ => js "") (Num 0)
                eq_refl eq_refl eq_refl)
      as (encoded & E & _ & M & _ & A & _).
    vm_compute in E. injection E as <-.
    split; [exact M|]. apply A. vm_compute. intuition discriminate.
  - destruct (noresults_retry_exhausted (js "?q=don%27t+panic&failed=true")
                (js "don't panic") (fun _ => None) (fun _ => js "") (Num 0)
                eq_refl eq_refl eq_refl)
      as (encoded & E & _ & M & N & _ & B).
    vm_compute in E. injection E as <-.
    split; [exact M|]. split; [exact N|]. split; [reflexivity|].
    apply B. vm_compute. tauto.
Defined.

(** ** Following the links the scripts write *)

Lemma reparse_set (search name v : jsstring) :
  is_well_formed name = true -> is_well_formed v = true ->
  new_URLSearchParams
    (js "?" ++ URLSearchParams_toString (set (new_URLSearchParams search) name v))
  = set (new_URLSearchParams search) name v.
Proof.
  intros N V. apply URLSearchParams_round_trip, set_well_formed; try assumption.
  apply new_URLSearchParams_well_formed.
Qed.

Lemma small_index (i : nat) : (i <= 9)%nat ->
  In i [0; 1; 2; 3; 4; 5; 6; 7; 8; 9]%nat.
Proof.
  intro H. do 10 (destruct i as [|i]; [simpl; tauto|]). lia.
Qed.

Lemma small_index_text (i : nat) : (i <= 9)%nat ->
  is_well_formed (string_of_Z (Z.of_nat i)) = true
  /\ parseInt (or_else (Some (string_of_Z (Z.of_nat i))) (js "0")) = Some (Num (Z.of_nat i)).
Proof.
  intro H. apply small_index in H. simpl in H.
  repeat (destruct H as [<-|H]; [split; vm_compute; reflexivity|]). destruct H.
Qed.

(** A pagination link of results.js leads to the page of its index: the
    script loaded from the link's address reads the index as its page, and
    every other parameter as the current address has it. *)
Theorem pagination_link_loads_its_page (search : jsstring) (cur : number) (i : nat) :
  (i <= 9)%nat ->
  exists href rest,
    Results.page_link search cur i
    = Element "li" [] [Element "a" (("href"%string, href) :: rest) []]
    /\ Results.page href = ret (Num (Z.of_nat i))
    /\ forall name, name <> js "page" ->
         get (Results.urlParams href) name = get (Results.urlParams search) name.
Proof.
  intro I. destruct (small_index_text i I) as [W P].
  eexists. eexists. split; [reflexivity|].
  unfold Results.page, Results.urlParams.
  rewrite reparse_set by (exact W || reflexivity).
  split.
  - rewrite get_set_same, P. reflexivity.
  - intros name NE. now apply get_set_other.
Qed.

Lemma pagination_link_loads_its_page_witness :
  exists href rest,
    Results.page_link (js "?q=cats&page=2&lang=fr") (Num 2) 5
    = Element "li" [] [Element "a" (("href"%string, href) :: rest) []]
    /\ Results.page href = ret (Num (Z.of_nat 5))
    /\ forall name, name <> js "page" ->
         get (Results.urlParams href) name
         = get (Results.urlParams (js "?q=cats&page=2&lang=fr")) name.
Proof.
  apply (pagination_link_loads_its_page (js "?q=cats&page=2&lang=fr") (Num 2) 5). lia.
Defined.

(** When the current page is none of the indices 0 to 9 (an address with
    [page=12], or with a page that is not a number), the pagination marks
    no link as the active one. *)
Theorem createPagination_without_active_link (search : jsstring) (cur : number) :
  (forall i, (i <= 9)%nat -> cur <> Num (Z.of_nat i)) ->
  exists links,
    Results.createPagination search 9 cur
    = ([InsertAfter "results"
          (div "pagination-container" []
             [Element "ul" [("className"%string, js "pagination")] links])],
       Ok tt)
    /\ length links = 10%nat
    /\ forall link, In link links ->
         exists href text,
           link = Element "li" []
                    [Element "a"
                       [("href"%string, href); ("textContent"%string, text);
                        ("className"%string, js "page-btn")] []].
Proof.
  intro H. eexists. split; [reflexivity|].
  split; [now rewrite length_map, length_seq|].
  intros link I. apply in_map_iff in I. destruct I as (i & <- & I).
  apply in_seq in I. unfold Results.page_link.
  replace (number_eq (Num (Z.of_nat i)) cur) with false; [now eexists; eexists|].
  symmetry. destruct cur as [|z]; [reflexivity|]. simpl.
  apply Z.eqb_neq. intro E. apply (H i); [lia | now rewrite E].
Qed.

Lemma createPagination_without_active_link_witness :
  Results.page (js "?q=cats&page=last") = ret NaN
  /\ exists links,
    Results.createPagination (js "?q=cats&page=last") 9 NaN
    = ([InsertAfter "results"
          (div "pagination-container" []
             [Element "ul" [("className"%string, js "pagination")] links])],
       Ok tt)
    /\ length links = 10%nat
    /\ forall link, In link links ->
         exists href text,
           link = Element "li" []
                    [Element "a"
                       [("href"%string, href); ("textContent"%string, text);
                        ("className"%string, js "page-btn")] []].
Proof.
  split; [reflexivity|].
  apply (createPagination_without_active_link (js "?q=cats&page=last") NaN).
  discriminate.
Defined.

(** ** The language, engine and safe-search controls *)

Lemma or_else_some (v fallback : jsstring) :
  or_else (Some v) fallback = match v with [] => fallback | _ :: _ => v end.
Proof. now destruct v. Qed.

(** [changeLanguage] leaves for the current path with [lang] set to the
    selected value and every other parameter kept; the page loaded from
    there shows the selected value in its language select, or [en-GB] when
    the selected value is empty. *)
Theorem changeLanguage_sets_only_lang (search pathname newLang : jsstring) :
  is_well_formed newLang = true ->
  exists target,
    Results.changeLanguage search pathname newLang
    = ([Navigate (pathname ++ target)], Ok tt)
    /\ get (Results.urlParams target) (js "lang") = Some newLang
    /\ Results.updateLanguageSelect target
       = match newLang with [] => js "en-GB" | _ :: _ => newLang end
    /\ forall name, name <> js "lang" ->
         get (Results.urlParams target) name = get (Results.urlParams search) name.
Proof.
  intro W. eexists. split; [reflexivity|].
  unfold Results.updateLanguageSelect, Results.language, Results.urlParams.
  rewrite reparse_set by (exact W || reflexivity).
  rewrite get_set_same. split; [reflexivity|]. split; [apply or_else_some|].
  intros name NE. now apply get_set_other.
Qed.

Lemma changeLanguage_sets_only_lang_witness :
  exists target,
    Results.changeLanguage (js "?q=cats&lang=fr&page=2") (js "/results.html") (js "de-DE")
    = ([Navigate (js "/results.html" ++ target)], Ok tt)
    /\ get (Results.urlParams target) (js "lang") = Some (js "de-DE")
    /\ Results.updateLanguageSelect target = js "de-DE"
    /\ forall name, name <> js "lang" ->
         get (Results.urlParams target) name
         = get (Results.urlParams (js "?q=cats&lang=fr&page=2")) name.
Proof.
  apply (changeLanguage_sets_only_lang (js "?q=cats&lang=fr&page=2") (js "/results.html")
           (js "de-DE")).
  reflexivity.
Defined.

(** [changeEngine] does the same with [engine]; an empty selection shows as
    [duckduckgo] after the load. *)
Theorem changeEngine_sets_only_engine (search pathname newEngine : jsstring) :
  is_well_formed newEngine = true ->
  exists target,
    Results.changeEngine search pathname newEngine
    = ([Navigate (pathname ++ target)], Ok tt)
    /\ get (Results.urlParams target) (js "engine") = Some newEngine
    /\ Results.updateEngineSelect target
       = match newEngine with [] => js "duckduckgo" | _ :: _ => newEngine end
    /\ forall name, name <> js "engine" ->
         get (Results.urlParams target) name = get (Results.urlParams search) name.
Proof.
  intro W. eexists. split; [reflexivity|].
  unfold Results.updateEngineSelect, Results.engine, Results.urlParams.
  rewrite reparse_set by (exact W || reflexivity).
  rewrite get_set_same. split; [reflexivity|]. split; [apply or_else_some|].
  intros name NE. now apply get_set_other.
Qed.

Lemma changeEngine_sets_only_engine_witness :
  exists target,
    Results.changeEngine (js "?q=cats&safe=off") (js "/results.html") (js "brave")
    = ([Navigate (js "/results.html" ++ target)], Ok tt)
    /\ get (Results.urlParams target) (js "engine") = Some (js "brave")
    /\ Results.updateEngineSelect target = js "brave"
    /\ forall name, name <> js "engine" ->
         get (Results.urlParams target) name
         = get (Results.urlParams (js "?q=cats&safe=off")) name.
Proof.
  apply (changeEngine_sets_only_engine (js "?q=cats&safe=off") (js "/results.html")
           (js "brave")).
  reflexivity.
Defined.

(** [toggleSafeSearch] leaves for the current path with [safe] switched:
    [off] when safe search was [strict] (also by default), [strict] for any
    other value.  The button of the page loaded from there reads the other
    way round, and every other parameter is kept. *)
Theorem toggleSafeSearch_flips (search pathname : jsstring) :
  exists target,
    Results.toggleSafeSearch search pathname = ([Navigate (pathname ++ target)], Ok tt)
    /\ Results.safeSearch target
       = (if jseq (Results.safeSearch search) (js "strict") then js "off" else js "strict")
    /\ Results.updateSafeButton target
       = (if jseq (Results.updateSafeButton search) (js "Safe Search: On")
          then js "Safe Search: Off" else js "Safe Search: On")
    /\ forall name, name <> js "safe" ->
         get (Results.urlParams target) name = get (Results.urlParams search) name.
Proof.
  eexists. split; [reflexivity|].
  unfold Results.updateSafeButton, Results.safeSearch, Results.urlParams.
  set (current := or_else (get (new_URLSearchParams search) (js "safe")) (js "strict")).
  rewrite reparse_set; [| reflexivity | now destruct (jseq current (js "strict"))].
  rewrite get_set_same. split; [|split].
  - now destruct (jseq current (js "strict")).
  - now destruct (jseq current (js "strict")).
  - intros name NE. now apply get_set_other.
Qed.

(** ** The search box *)

Lemma span_letters_spec (s : jsstring) :
  s = fst (span_letters s) ++ snd (span_letters s)
  /\ forallb is_ascii_letter (fst (span_letters s)) = true.
Proof.
  induction s as [|c r [E L]]; [now split|]. cbn [span_letters].
  destruct (is_ascii_letter c) eqn:C; [|now split].
  destruct (span_letters r) as [a b]. cbn [fst snd] in *. split.
  - now rewrite E at 1.
  - cbn [forallb]. now rewrite C, L.
Qed.

(** What the bang pattern accepts. *)
Lemma match_bang_inv (query cmd : jsstring) (group2 : option jsstring) :
  match_bang query = Some (cmd, group2) ->
  cmd <> [] /\ forallb is_ascii_letter cmd = true
  /\ ((group2 = None /\ query = [33] ++ cmd)
      \/ exists w remainder,
           group2 = Some remainder /\ query = [33] ++ cmd ++ [w] ++ remainder
           /\ is_white_space w = true
           /\ forallb (fun x => negb (is_line_terminator x)) remainder = true).
Proof.
  destruct query as [|c rest]; [discriminate|]. cbn [match_bang].
  destruct (N.eqb_spec c 33) as [->|]; [|discriminate].
  destruct (span_letters_spec rest) as [E L].
  destruct (span_letters rest) as [letters tail]. cbn [fst snd] in *.
  destruct letters as [|l letters]; [discriminate|].
  destruct tail as [|w remainder].
  - intro H. injection H as <- <-. split; [discriminate|]. split; [exact L|].
    left. split; [reflexivity|]. rewrite E. now rewrite app_nil_r.
  - destruct (is_white_space w) eqn:W; [|discriminate].
    destruct (forallb _ remainder) eqn:R; [|discriminate].
    intro H. injection H as <- <-. split; [discriminate|]. split; [exact L|].
    right. exists w, remainder. now rewrite E.
Qed.

Lemma find_bang_some (bangs : list bang) (cmd : jsstring) (entry : bang) :
  find_bang bangs cmd = Some entry -> In entry bangs /\ t entry = cmd.
Proof.
  intro H. apply find_some in H. destruct H as [I E]. split; [exact I|].
  now apply jseq_spec.
Qed.

Lemma white_space_not_surrogate (w : N) :
  is_white_space w = true ->
  is_trail_surrogate w = false /\ is_lead_surrogate w = false /\ w < 65536.
Proof.
  intro W. unfold is_white_space, is_line_terminator, in_range in W.
  rewrite ?orb_true_iff, ?andb_true_iff, ?N.eqb_eq, ?N.leb_le in W.
  unfold is_trail_surrogate, is_lead_surrogate, in_range.
  repeat split; try (apply not_true_is_false; rewrite andb_true_iff, !N.leb_le); lia.
Qed.

Lemma letter_not_surrogate (c : N) :
  is_ascii_letter c = true ->
  is_trail_surrogate c = false /\ is_lead_surrogate c = false /\ c < 65536.
Proof.
  intro W. unfold is_ascii_letter, in_range in W.
  rewrite ?orb_true_iff, ?andb_true_iff, ?N.leb_le in W.
  unfold is_trail_surrogate, is_lead_surrogate, in_range.
  repeat split; try (apply not_true_is_false; rewrite andb_true_iff, !N.leb_le); lia.
Qed.

Lemma is_well_formed_plain (c : N) (r : jsstring) :
  is_trail_surrogate c = false -> is_lead_surrogate c = false ->
  is_well_formed (c :: r) = ((c <? 65536) && is_well_formed r).
Proof. intros T L. cbn [is_well_formed]. now rewrite T, L. Qed.

(** A well-formed string stays so without a prefix of plain units. *)
Lemma is_well_formed_drop (p s : jsstring) :
  Forall (fun c => is_trail_surrogate c = false /\ is_lead_surrogate c = false) p ->
  is_well_formed (p ++ s) = true -> is_well_formed s = true.
Proof.
  induction 1 as [|c p [T L] _ IH]; [trivial|]. cbn [app].
  rewrite is_well_formed_plain by assumption.
  intro H. apply andb_true_iff in H. now apply IH.
Qed.

Lemma is_well_formed_snoc_bounded (n : nat) :
  forall s w, (length s <= n)%nat ->
  is_trail_surrogate w = false -> is_lead_surrogate w = false ->
  is_well_formed (s ++ [w]) = true -> is_well_formed s = true.
Proof.
  induction n as [|n IH]; intros s w L T LS W.
  - destruct s; [reflexivity | simpl in L; lia].
  - destruct s as [|c r]; [reflexivity|]. simpl in L. cbn [app] in W.
    destruct (is_well_formed_cons _ _ W) as [Tc [(Lc & B & W')|(Lc & d & r' & E & D & W')]].
    + rewrite is_well_formed_plain by assumption.
      apply andb_true_iff. split; [now apply N.ltb_lt|].
      apply (IH r w); (assumption || lia).
    + destruct r as [|d' r0].
      * cbn [app] in E. injection E as -> _. congruence.
      * cbn [app] in E. injection E as -> <-. simpl in L.
        cbn [is_well_formed]. rewrite Tc, Lc, D. cbn [andb].
        apply (IH r0 w); (assumption || lia).
Qed.

Lemma is_well_formed_drop_end (s q : jsstring) :
  Forall (fun c => is_trail_surrogate c = false /\ is_lead_surrogate c = false) q ->
  is_well_formed (s ++ q) = true -> is_well_formed s = true.
Proof.
  revert s. induction q as [|w q IH] using rev_ind; intros s F W.
  - now rewrite app_nil_r in W.
  - apply Forall_app in F. destruct F as [F Fw]. inversion Fw as [|? ? [T L] _]. subst.
    apply IH; [exact F|]. rewrite app_assoc in W.
    now apply (is_well_formed_snoc_bounded (length (s ++ q)) (s ++ q) w).
Qed.

Lemma trimStart_split (s : jsstring) :
  exists p, s = p ++ trimStart s /\ Forall (fun c => is_white_space c = true) p.
Proof.
  induction s as [|c r (p & E & F)].
  - now exists [].
  - cbn [trimStart]. destruct (is_white_space c) eqn:W.
    + exists (c :: p). split; [cbn [app]; now rewrite <- E | now constructor].
    + now exists [].
Qed.

Lemma white_space_plain (p : jsstring) :
  Forall (fun c => is_white_space c = true) p ->
  Forall (fun c => is_trail_surrogate c = false /\ is_lead_surrogate c = false) p.
Proof.
  apply Forall_impl. intros c W. destruct (white_space_not_surrogate c W). tauto.
Qed.

(** [trim] keeps a string well formed. *)
Lemma trim_well_formed (s : jsstring) :
  is_well_formed s = true -> is_well_formed (trim s) = true.
Proof.
  intro W. unfold trim.
  destruct (trimStart_split s) as (p & E & F).
  destruct (trimStart_split (rev (trimStart s))) as (q & E' & F').
  rewrite E in W. apply is_well_formed_drop in W; [|now apply white_space_plain].
  apply (f_equal (@rev N)) in E'. rewrite rev_involutive, rev_app_distr in E'.
  rewrite E' in W. apply is_well_formed_drop_end in W; [exact W|].
  apply white_space_plain. now apply Forall_rev.
Qed.

Lemma encodeURIComponent_well_formed (s : jsstring) :
  is_well_formed s = true -> exists e, encodeURIComponent s = ret e /\ uri_encode s = Some e.
Proof.
  intro W. unfold encodeURIComponent. rewrite (uri_encode_chunks s W). eauto.
Qed.

(** The text after the trigger of a well-formed bang query is well formed. *)
Lemma match_bang_well_formed (query cmd remainder : jsstring) :
  is_well_formed query = true -> match_bang query = Some (cmd, Some remainder) ->
  is_well_formed remainder = true.
Proof.
  intros W H. destruct (match_bang_inv _ _ _ H) as (_ & L & [[X _]|(w & r & X & -> & WS & _)]);
    [discriminate|]. injection X as ->.
  apply (is_well_formed_drop ([33] ++ cmd ++ [w])).
  - constructor; [now split|]. apply Forall_app. split.
    + rewrite forallb_forall in L. apply Forall_forall. intros c I.
      destruct (letter_not_surrogate c (L c I)). tauto.
    + constructor; [|constructor]. destruct (white_space_not_surrogate w WS). tauto.
  - now rewrite <- !app_assoc.
Qed.

Lemma matchBang_cases (bangs : list bang) (query : jsstring) :
  is_well_formed query = true ->
  Results.matchBang bangs query = ret false
  \/ exists cmd group2 entry target,
       match_bang query = Some (cmd, group2) /\ find_bang bangs cmd = Some entry
       /\ Results.matchBang bangs query = ([Navigate target], Ok true).
Proof.
  intro W. unfold Results.matchBang.
  destruct (match_bang query) as [[cmd group2]|] eqn:M; [|now left].
  destruct (find_bang bangs cmd) as [entry|] eqn:F; [|now left].
  right. exists cmd, group2, entry.
  destruct group2 as [[|c remainder]|].
  - eexists. split; [first [exact M | reflexivity]|]. split; [first [exact F | reflexivity] | reflexivity].
  - destruct (encodeURIComponent_well_formed (c :: remainder)) as (e & E & _).
    { exact (match_bang_well_formed _ _ _ W M). }
    change (or_else (Some (c :: remainder)) (js "")) with (c :: remainder).
    change (jseq (c :: remainder) (js "")) with false. cbv iota.
    rewrite E, bind_ret. eexists. split; [first [exact M | reflexivity]|]. split; [first [exact F | reflexivity] | reflexivity].
  - eexists. split; [first [exact M | reflexivity]|]. split; [first [exact F | reflexivity] | reflexivity].
Qed.

(** [matchBang] leaves the page for one address and answers [true], or does
    nothing and answers [false]; it leaves only for a query that is an
    exclamation mark, the trigger of an entry of the table and then nothing
    or white space and text. *)
Theorem matchBang_leaves_only_for_known_trigger (bangs : list bang) (query : jsstring) :
  is_well_formed query = true ->
  Results.matchBang bangs query = ret false
  \/ exists target entry tail,
       Results.matchBang bangs query = ([Navigate target], Ok true)
       /\ In entry bangs
       /\ t entry <> [] /\ forallb is_ascii_letter (t entry) = true
       /\ query = js "!" ++ t entry ++ tail
       /\ (tail = [] \/ exists w remainder, tail = w :: remainder /\ is_white_space w = true).
Proof.
  intro W. destruct (matchBang_cases bangs query W) as [H|(cmd & g & entry & target & M & F & H)];
    [now left|].
  right. exists target, entry.
  destruct (find_bang_some _ _ _ F) as [I <-].
  destruct (match_bang_inv _ _ _ M) as (NE & L & [[_ ->]|(w & r & _ & -> & WS & _)]).
  - exists []. rewrite app_nil_r. repeat split; try assumption. now left.
  - exists (w :: r). repeat split; try assumption. right. now exists w, r.
Qed.

Lemma matchBang_leaves_only_for_known_trigger_witness :
  let gh := {| t := js "gh"; d := js "github.com";
               u := js "https://github.com/search?q={{{s}}}" |} in
  Results.matchBang [gh] (js "!gh cats") = ret false
  \/ exists target entry tail,
       Results.matchBang [gh] (js "!gh cats") = ([Navigate target], Ok true)
       /\ In entry [gh]
       /\ t entry <> [] /\ forallb is_ascii_letter (t entry) = true
       /\ js "!gh cats" = js "!" ++ t entry ++ tail
       /\ (tail = [] \/ exists w remainder, tail = w :: remainder /\ is_white_space w = true).
Proof.
  intro gh. apply (matchBang_leaves_only_for_known_trigger [gh] (js "!gh cats")).
  reflexivity.
Defined.

(** A trigger alone, or followed by one white space only, leads to the
    domain of its entry, and through the search box too. *)
Theorem matchBang_bare_trigger_opens_domain
  (bangs : list bang) (entry : bang) (trigger tail value : jsstring) :
  trigger <> [] -> forallb is_ascii_letter trigger = true ->
  find_bang bangs trigger = Some entry ->
  tail = [] \/ (exists w, tail = [w] /\ is_white_space w = true) ->
  trim value = js "!" ++ trigger ->
  Results.matchBang bangs (js "!" ++ trigger ++ tail)
  = ([Navigate (js "https://" ++ d entry)], Ok true)
  /\ Results.handleSearch bangs value
     = ([PreventDefault; Navigate (js "https://" ++ d entry)], Ok false).
Proof.
  intros NE L F T V.
  assert (Results.matchBang bangs (js "!" ++ trigger)
          = ([Navigate (js "https://" ++ d entry)], Ok true)) as B.
  { unfold Results.matchBang. change (js "!") with [33].
    rewrite match_bang_bare by assumption. now rewrite F. }
  split.
  - destruct T as [->|(w & -> & W)]; [now rewrite app_nil_r|].
    unfold Results.matchBang.
    change (js "!" ++ trigger ++ [w]) with ([33] ++ trigger ++ [w] ++ []).
    rewrite (match_bang_search trigger w [] NE L W eq_refl). now rewrite F.
  - unfold Results.handleSearch. rewrite V.
    change (js "!" ++ trigger) with (33 :: trigger) at 1. cbv iota.
    now rewrite B.
Qed.

Lemma matchBang_bare_trigger_opens_domain_witness :
  let gh := {| t := js "gh"; d := js "github.com";
               u := js "https://github.com/search?q={{{s}}}" |} in
  Results.matchBang [gh] (js "!" ++ js "gh" ++ js " ")
  = ([Navigate (js "https://" ++ d gh)], Ok true)
  /\ Results.handleSearch [gh] (js "  !gh ")
     = ([PreventDefault; Navigate (js "https://" ++ d gh)], Ok false).
Proof.
  intro gh.
  apply (matchBang_bare_trigger_opens_domain [gh] gh (js "gh") (js " ") (js "  !gh ")).
  - discriminate.
  - reflexivity.
  - reflexivity.
  - right. exists 32. split; reflexivity.
  - reflexivity.
Defined.

(** [handleSearch] always cancels the submission and answers [false]; it
    leaves the page exactly once, unless the box holds white space only,
    and then it does nothing else. *)
Theorem handleSearch_leaves_once (bangs : list bang) (value : jsstring) :
  is_well_formed value = true ->
  (trim value = [] /\ Results.handleSearch bangs value = ([PreventDefault], Ok false))
  \/ (trim value <> [] /\
      exists target,
        Results.handleSearch bangs value = ([PreventDefault; Navigate target], Ok false)).
Proof.
  intro W. apply trim_well_formed in W. unfold Results.handleSearch.
  destruct (trim value) as [|c q] eqn:T; [left; now split|].
  right. split; [discriminate|].
  destruct (matchBang_cases bangs (c :: q) W) as [H|(_ & _ & _ & target & _ & _ & H)];
    rewrite H.
  - destruct (encodeURIComponent_well_formed (c :: q) W) as (e & E & _).
    rewrite bind_ret, E. eexists. reflexivity.
  - eexists. reflexivity.
Qed.

Lemma handleSearch_leaves_once_witness :
  (trim (js "   ") = [] /\ Results.handleSearch [] (js "   ") = ([PreventDefault], Ok false))
  \/ (trim (js "   ") <> [] /\
      exists target,
        Results.handleSearch [] (js "   ") = ([PreventDefault; Navigate target], Ok false)).
Proof.
  apply (handleSearch_leaves_once [] (js "   ")). reflexivity.
Defined.

(** The results page reads back what the search box sent: for a query that
    is no bang, [handleSearch] leaves for an address whose one parameter
    [q] is the trimmed text of the box. *)
Theorem handleSearch_query_round_trip (bangs : list bang) (value : jsstring) :
  is_well_formed value = true -> trim value <> [] ->
  Results.matchBang bangs (trim value) = ret false ->
  exists target,
    Results.handleSearch bangs value = ([PreventDefault; Navigate target], Ok false)
    /\ Results.urlParams target = [(js "q", trim value)]
    /\ Results.query target = Some (trim value)
    /\ Results.page target = ret (Num 0).
Proof.
  intros W NE B. apply trim_well_formed in W. unfold Results.handleSearch.
  destruct (trim value) as [|c q] eqn:T; [contradiction|].
  destruct (encodeURIComponent_well_formed (c :: q) W) as (e & E & U).
  rewrite B, bind_ret, E. exists (js "?q=" ++ e). split; [reflexivity|].
  assert (Results.urlParams (js "?q=" ++ e) = [(js "q", c :: q)]) as P.
  { apply (component_round_trip (js "q") (c :: q) e); try assumption.
    - repeat constructor.
    - reflexivity.
    - discriminate. }
  unfold Results.query, Results.page. rewrite P. repeat split.
Qed.

Lemma handleSearch_query_round_trip_witness :
  exists target,
    Results.handleSearch [] (js " tom & jerry? ")
    = ([PreventDefault; Navigate target], Ok false)
    /\ Results.urlParams target = [(js "q", trim (js " tom & jerry? "))]
    /\ Results.query target = Some (trim (js " tom & jerry? "))
    /\ Results.page target = ret (Num 0).
Proof.
  apply (handleSearch_query_round_trip [] (js " tom & jerry? ")).
  - reflexivity.
  - discriminate.
  - reflexivity.
Defined.

(** The search boxes of the three pages resolve a query the same way: the
    image script's copy of the code does what [handleSearch] of results.js
    does, and the home page differs only in sending a plain query to
    [results.html]. *)
Theorem search_boxes_agree (bangs : list bang) (value : jsstring) :
  Images.handleSearch bangs value = Results.handleSearch bangs value
  /\ (Index.handleSearch bangs value = Results.handleSearch bangs value
      \/ exists encoded,
           encodeURIComponent (trim value) = ret encoded
           /\ Results.matchBang bangs (trim value) = ret false
           /\ Results.handleSearch bangs value
              = ([PreventDefault; Navigate (js "?q=" ++ encoded)], Ok false)
           /\ Index.handleSearch bangs value
              = ([PreventDefault; Navigate (js "results.html?q=" ++ encoded)], Ok false)).
Proof.
  unfold Images.handleSearch, Index.handleSearch, Results.handleSearch, Results.matchBang.
  destruct (trim value) as [|c q]; [split; [reflexivity | now left]|].
  set (query := c :: q).
  destruct (match_bang query) as [[cmd group2]|].
  - destruct (find_bang bangs cmd) as [entry|].
    + destruct (jseq (or_else group2 (js "")) (js "")).
      * split; [reflexivity | now left].
      * unfold encodeURIComponent.
        destruct (uri_encode (or_else group2 (js ""))); split; try reflexivity; now left.
    + rewrite bind_ret. unfold encodeURIComponent.
      destruct (uri_encode query) as [e|]; [|split; [reflexivity | now left]].
      split; [reflexivity|]. right. exists e. repeat split.
  - rewrite bind_ret. unfold encodeURIComponent.
    destruct (uri_encode query) as [e|]; [|split; [reflexivity | now left]].
    split; [reflexivity|]. right. exists e. repeat split.
Qed.

(** ** What the scripts do with every answer *)

Lemma getUrlContents_failure (url : jsstring) :
  getUrlContents url Failure = ([Fetch url], Throw NetworkError).
Proof. reflexivity. Qed.

(** The backend's [noquery] is shown as an error by the three scripts, and
    nothing else happens. *)
Theorem noquery_message
  (search href : jsstring) (hostname : jsstring -> option jsstring)
  (error_toString : exn -> jsstring) (pg vpg : number) :
  Results.page search = ret pg -> Videos.page href = ret vpg ->
  let message :=
    SetInnerHTML "results" (js "<p>There was an error, please try again: noquery</p>") in
  exists encoded image_encoded video_encoded,
    Results.main search hostname error_toString (Body (js "noquery"))
    = ([Fetch (Results.url search encoded pg); message], Ok tt)
    /\ Images.main search (Body (js "noquery"))
       = ([Fetch (Images.url search image_encoded); message], Ok tt)
    /\ Videos.main href error_toString (Body (js "noquery"))
       = ([Fetch (Videos.url href video_encoded vpg); message], Ok tt).
Proof.
  intros P VP message.
  destruct (encodedQuery_defined search) as (e & _ & E).
  destruct (images_encodedQuery_defined search) as (ie & _ & IE).
  destruct (videos_encodedQuery_defined href) as (ve & _ & VE).
  exists e, ie, ve. split; [|split].
  - unfold Results.main. rewrite E, P, !bind_ret. reflexivity.
  - unfold Images.main. rewrite IE, !bind_ret. reflexivity.
  - unfold Videos.main. rewrite VE, VP, !bind_ret. reflexivity.
Qed.

Lemma noquery_message_witness :
  let message :=
    SetInnerHTML "results" (js "<p>There was an error, please try again: noquery</p>") in
  exists encoded image_encoded video_encoded,
    Results.main (js "?q=") (fun _ => None) (fun _ => js "") (Body (js "noquery"))
    = ([Fetch (Results.url (js "?q=") encoded (Num 0)); message], Ok tt)
    /\ Images.main (js "?q=") (Body (js "noquery"))
       = ([Fetch (Images.url (js "?q=") image_encoded); message], Ok tt)
    /\ Videos.main (js "https://nilch.org/videos.html?q=") (fun _ => js "")
         (Body (js "noquery"))
       = ([Fetch (Videos.url (js "https://nilch.org/videos.html?q=") video_encoded (Num 0));
           message], Ok tt).
Proof.
  apply (noquery_message (js "?q=") (js "https://nilch.org/videos.html?q=")
           (fun _ => None) (fun _ => js "") (Num 0) (Num 0)); reflexivity.
Defined.

(** A request that fails is reported on the console and as an error on the
    page: with the text of the error by the web and video scripts, with a
    fixed message by the image script. *)
Theorem request_failure_message
  (search href : jsstring) (hostname : jsstring -> option jsstring)
  (error_toString : exn -> jsstring) (pg vpg : number) :
  Results.page search = ret pg -> Videos.page href = ret vpg ->
  let report :=
    [ConsoleError (js "Error loading search results:") NetworkError;
     SetInnerHTML "results"
       (js "<p>Error loading search results. Please try again.<br>"
        ++ error_toString NetworkError ++ js "</p>")] in
  exists encoded image_encoded video_encoded,
    Results.main search hostname error_toString Failure
    = (Fetch (Results.url search encoded pg) :: report, Ok tt)
    /\ Images.main search Failure
       = ([Fetch (Images.url search image_encoded);
           ConsoleError (js "Error loading images:") NetworkError;
           SetInnerHTML "results" (js "<p>Error loading images. Please try again.</p>")],
          Ok tt)
    /\ Videos.main href error_toString Failure
       = (Fetch (Videos.url href video_encoded vpg) :: report, Ok tt).
Proof.
  intros P VP report.
  destruct (encodedQuery_defined search) as (e & _ & E).
  destruct (images_encodedQuery_defined search) as (ie & _ & IE).
  destruct (videos_encodedQuery_defined href) as (ve & _ & VE).
  exists e, ie, ve. split; [|split].
  - unfold Results.main. rewrite E, P, !bind_ret. reflexivity.
  - unfold Images.main. rewrite IE, !bind_ret. reflexivity.
  - unfold Videos.main. rewrite VE, VP, !bind_ret. reflexivity.
Qed.

Lemma request_failure_message_witness :
  let report :=
    [ConsoleError (js "Error loading search results:") NetworkError;
     SetInnerHTML "results"
       (js "<p>Error loading search results. Please try again.<br>"
        ++ js "TypeError: Failed to fetch" ++ js "</p>")] in
  exists encoded image_encoded video_encoded,
    Results.main (js "?q=cats") (fun _ => None) (fun _ => js "TypeError: Failed to fetch")
      Failure
    = (Fetch (Results.url (js "?q=cats") encoded (Num 0)) :: report, Ok tt)
    /\ Images.main (js "?q=cats") Failure
       = ([Fetch (Images.url (js "?q=cats") image_encoded);
           ConsoleError (js "Error loading images:") NetworkError;
           SetInnerHTML "results" (js "<p>Error loading images. Please try again.</p>")],
          Ok tt)
    /\ Videos.main (js "https://nilch.org/videos.html?q=cats")
         (fun _ => js "TypeError: Failed to fetch") Failure
       = (Fetch (Videos.url (js "https://nilch.org/videos.html?q=cats") video_encoded (Num 0))
            :: report, Ok tt).
Proof.
  apply (request_failure_message (js "?q=cats") (js "https://nilch.org/videos.html?q=cats")
           (fun _ => None) (fun _ => js "TypeError: Failed to fetch") (Num 0) (Num 0));
    reflexivity.
Defined.

(** An answer that is neither a sentinel nor JSON (the page of a gateway
    error, say) ends in the same reports, with the syntax error. *)
Theorem unparseable_answer_message
  (search href text : jsstring) (hostname : jsstring -> option jsstring)
  (error_toString : exn -> jsstring) (pg vpg : number) :
  Results.page search = ret pg -> Videos.page href = ret vpg ->
  JSON_parse text = throw (SyntaxError text) ->
  text <> js "noquery" -> text <> js "noresults" ->
  let report :=
    [ConsoleError (js "Error loading search results:") (SyntaxError text);
     SetInnerHTML "results"
       (js "<p>Error loading search results. Please try again.<br>"
        ++ error_toString (SyntaxError text) ++ js "</p>")] in
  exists encoded image_encoded video_encoded,
    Results.main search hostname error_toString (Body text)
    = (Fetch (Results.url search encoded pg) :: report, Ok tt)
    /\ Images.main search (Body text)
       = ([Fetch (Images.url search image_encoded);
           ConsoleError (js "Error loading images:") (SyntaxError text);
           SetInnerHTML "results" (js "<p>Error loading images. Please try again.</p>")],
          Ok tt)
    /\ Videos.main href error_toString (Body text)
       = (Fetch (Videos.url href video_encoded vpg) :: report, Ok tt).
Proof.
  intros P VP J NQ NR report.
  destruct (encodedQuery_defined search) as (e & _ & E).
  destruct (images_encodedQuery_defined search) as (ie & _ & IE).
  destruct (videos_encodedQuery_defined href) as (ve & _ & VE).
  apply jseq_neq in NQ, NR.
  exists e, ie, ve. split; [|split].
  - unfold Results.main. rewrite E, P, !bind_ret.
    rewrite getUrlContents_body, bind_ok, NQ, NR.
    unfold Results.render. rewrite J. reflexivity.
  - unfold Images.main. rewrite IE, !bind_ret.
    rewrite getUrlContents_body, bind_ok, NQ, NR, J. reflexivity.
  - unfold Videos.main. rewrite VE, VP, !bind_ret.
    rewrite getUrlContents_body, bind_ok, NQ, NR, bind_ret, J. reflexivity.
Qed.

Lemma unparseable_answer_message_witness :
  let text := js "<html>502 Bad Gateway</html>" in
  let report :=
    [ConsoleError (js "Error loading search results:") (SyntaxError text);
     SetInnerHTML "results"
       (js "<p>Error loading search results. Please try again.<br>"
        ++ js "SyntaxError" ++ js "</p>")] in
  exists encoded image_encoded video_encoded,
    Results.main (js "?q=cats") (fun _ => None) (fun _ => js "SyntaxError") (Body text)
    = (Fetch (Results.url (js "?q=cats") encoded (Num 0)) :: report, Ok tt)
    /\ Images.main (js "?q=cats") (Body text)
       = ([Fetch (Images.url (js "?q=cats") image_encoded);
           ConsoleError (js "Error loading images:") (SyntaxError text);
           SetInnerHTML "results" (js "<p>Error loading images. Please try again.</p>")],
          Ok tt)
    /\ Videos.main (js "https://nilch.org/videos.html?q=cats") (fun _ => js "SyntaxError")
         (Body text)
       = (Fetch (Videos.url (js "https://nilch.org/videos.html?q=cats") video_encoded (Num 0))
            :: report, Ok tt).
Proof.
  intros text.
  apply (unparseable_answer_message (js "?q=cats") (js "https://nilch.org/videos.html?q=cats")
           text (fun _ => None) (fun _ => js "SyntaxError") (Num 0) (Num 0));
    try reflexivity; discriminate.
Defined.

(** ** One request, and no way out of the page *)

Section MoreTraceInvariants.

Variable P : effect -> Prop.

Lemma trace_toInnerHTML_Forall (v : value) : Forall P (trace (toInnerHTML v)).
Proof.
  destruct v; try apply Forall_nil; apply trace_toString_Forall.
Qed.

Lemma trace_or_string_Forall (v : value) (fallback : jsstring) :
  Forall P (trace (or_string v fallback)).
Proof.
  unfold or_string. apply trace_bind_Forall; [apply trace_truthy_Forall|].
  intros [|]; [apply trace_toString_Forall | constructor].
Qed.

Lemma trace_encodeURIComponent_Forall (s : jsstring) :
  Forall P (trace (encodeURIComponent s)).
Proof. unfold encodeURIComponent. destruct (uri_encode s); constructor. Qed.

Lemma trace_JSON_parse_Forall (text : jsstring) : Forall P (trace (JSON_parse text)).
Proof.
  unfold JSON_parse. destruct (json_parse _ _ _) as [v rest| |]; try constructor.
  destruct (skip_ws rest); constructor.
Qed.

Lemma trace_try_catch_Forall (body : M unit) (handler : exn -> M unit) :
  Forall P (trace body) -> (forall x, Forall P (trace (handler x))) ->
  Forall P (trace (try_catch body handler)).
Proof.
  intros B H. destruct body as [tr [[]|x|]]; try exact B. simpl in *.
  specialize (H x). destruct (handler x) as [tr' o]. simpl in *.
  apply Forall_app. now split.
Qed.

(** A request inside [try]: the trace begins with the request, and an
    exception ends in the handler. *)
Lemma guarded_request (url : jsstring) (response : transport)
  (body : jsstring -> M unit) (handler : exn -> M unit) :
  (forall text, response = Body text -> Forall P (trace (body text))) ->
  (forall x, Forall P (trace (handler x))) ->
  exists rest,
    trace (try_catch (bind (getUrlContents url response) body) handler) = Fetch url :: rest
    /\ Forall P rest.
Proof.
  intros B H. destruct response as [text|].
  - rewrite getUrlContents_body, bind_ok. specialize (B text eq_refl).
    destruct (body text) as [tr [[]|x|]]; simpl in *; try (eexists; split; [reflexivity|exact B]).
    specialize (H x). destruct (handler x) as [tr' o]. simpl in *.
    eexists. split; [reflexivity|]. apply Forall_app. now split.
  - rewrite getUrlContents_failure. specialize (H NetworkError).
    unfold bind, try_catch. destruct (handler NetworkError) as [tr' o]. simpl in *.
    eexists. split; [reflexivity | exact H].
Qed.

End MoreTraceInvariants.

Lemma try_catch_no_throw (body : M unit) (handler : exn -> M unit) (x : exn) :
  (forall y, result (handler y) <> Throw x) -> result (try_catch body handler) <> Throw x.
Proof.
  intro H. destruct body as [tr [[]|y|]]; simpl; try discriminate.
  specialize (H y). destruct (handler y) as [tr' o]. exact H.
Qed.

Ltac quiet_effect := constructor; [split; reflexivity | try constructor].

Ltac quiet_step :=
  lazymatch goal with
  | |- Forall _ (trace (bind _ _)) => apply trace_bind_Forall; [|intro]
  | |- Forall _ (trace (getProp _ _)) => apply trace_getProp_Forall
  | |- Forall _ (trace (toString _)) => apply trace_toString_Forall
  | |- Forall _ (trace (toTextContent _)) => apply trace_toTextContent_Forall
  | |- Forall _ (trace (toInnerHTML _)) => apply trace_toInnerHTML_Forall
  | |- Forall _ (trace (as_string _)) => apply trace_as_string_Forall
  | |- Forall _ (trace (truthy _)) => apply trace_truthy_Forall
  | |- Forall _ (trace (loose_eq _ _)) => apply trace_loose_eq_Forall
  | |- Forall _ (trace (or_string _ _)) => apply trace_or_string_Forall
  | |- Forall _ (trace (encodeURIComponent _)) => apply trace_encodeURIComponent_Forall
  | |- Forall _ (trace (JSON_parse _)) => apply trace_JSON_parse_Forall
  | |- Forall _ (trace (emit _)) => quiet_effect
  | |- Forall _ (trace (ret _)) => constructor
  | |- Forall _ (trace (throw _)) => constructor
  | |- Forall _ (trace off_model) => constructor
  | |- Forall _ (trace (if ?b then _ else _)) => destruct b
  | |- Forall _ (trace (match ?x with _ => _ end)) => destruct x
  end.

Lemma render_result_quiet (hostname : jsstring -> option jsstring) (item : value) :
  Forall quiet (trace (Results.render_result hostname item)).
Proof. unfold Results.render_result. repeat quiet_step. Qed.

Lemma render_infobox_quiet (infoboxData : value) :
  Forall quiet (trace (Results.render_infobox infoboxData)).
Proof. unfold Results.render_infobox. repeat quiet_step. Qed.

Lemma render_quiet (search : jsstring) (hostname : jsstring -> option jsstring)
  (pg : number) (text : jsstring) :
  Forall quiet (trace (Results.render search hostname pg text)).
Proof.
  unfold Results.render, Results.render_data, Results.as_array, Results.createPagination.
  repeat quiet_step.
  - apply trace_for_each_Forall. intro. apply render_result_quiet.
  - apply render_infobox_quiet.
Qed.

Lemma ends_normally (m : M unit) :
  (forall x, result m <> Throw x) -> result m <> OffModel -> result m = Ok tt.
Proof.
  destruct m as [tr [[]|x|]]; simpl; intros T O; [reflexivity | | contradiction].
  now destruct (T x).
Qed.

(** The asynchronous function of the web script (lines 107 to 238), on
    every answer that the model follows to its end (a payload whose fields
    hold values it covers): it sends exactly one request, first of all,
    assigns no address and does not reload, and ends normally, since what is
    thrown after the request is caught by the handler, which does not
    throw.  So it is for an array where the payload should be an object: the
    results are cleared, reading the length of [undefined] throws, and the
    error is reported. *)
Theorem main_stays_on_page
  (search : jsstring) (hostname : jsstring -> option jsstring)
  (error_toString : exn -> jsstring) (response : transport) (pg : number) :
  Results.page search = ret pg ->
  result (Results.main search hostname error_toString response) <> OffModel ->
  exists encoded rest,
    uri_encode (nullable_toString (Results.query search)) = Some encoded
    /\ trace (Results.main search hostname error_toString response)
       = Fetch (Results.url search encoded pg) :: rest
    /\ Forall quiet rest
    /\ result (Results.main search hostname error_toString response) = Ok tt.
Proof.
  intros P O. destruct (encodedQuery_defined search) as (encoded & E' & E).
  apply ends_normally in O.
  2:{ intro x. unfold Results.main. rewrite E, P, !bind_ret.
      apply try_catch_no_throw. discriminate. }
  revert O. unfold Results.main. rewrite E, P, !bind_ret. intro O.
  match goal with
  | |- context [try_catch (bind (getUrlContents ?u response) ?body) ?handler] =>
      destruct (guarded_request quiet u response body handler) as (rest & T & Q)
  end.
  - intros text _. repeat quiet_step; apply render_quiet.
  - intro x. repeat quiet_step.
  - exists encoded, rest. split; [exact E'|]. split; [exact T|]. split; [exact Q|].
    exact O.
Qed.

Lemma main_stays_on_page_witness :
  exists encoded rest,
    uri_encode (nullable_toString (Results.query (js "?q=cats&page=3"))) = Some encoded
    /\ trace (Results.main (js "?q=cats&page=3") (fun _ => None) (fun _ => js "TypeError")
                (Body (js "[1, 2]")))
       = Fetch (Results.url (js "?q=cats&page=3") encoded (Num 3)) :: rest
    /\ Forall quiet rest
    /\ result (Results.main (js "?q=cats&page=3") (fun _ => None) (fun _ => js "TypeError")
                 (Body (js "[1, 2]"))) = Ok tt.
Proof.
  apply (main_stays_on_page (js "?q=cats&page=3") (fun _ => None) (fun _ => js "TypeError")
           (Body (js "[1, 2]")) (Num 3)).
  - reflexivity.
  - vm_compute. discriminate.
Defined.

(** What the run of the witness is, effect by effect. *)
Lemma main_on_array_payload :
  Results.main (js "?q=cats&page=3") (fun _ => None) (fun _ => js "TypeError")
    (Body (js "[1, 2]"))
  = ([Fetch (js "https://unmappedstack.pythonanywhere.com/api/search?q=cats&safe=strict&page=3&language=en-GB&engine=duckduckgo");
      SetInnerHTML "results" (js "");
      ConsoleError (js "Error loading search results:") (TypeError "length");
      SetInnerHTML "results"
        (js "<p>Error loading search results. Please try again.<br>TypeError</p>")],
     Ok tt).
Proof. reflexivity. Qed.

Lemma render_video_quiet (video : value) :
  Forall quiet (trace (Videos.render_video video)).
Proof. unfold Videos.render_video. repeat quiet_step. Qed.

Lemma render_image_quiet (item : value) :
  Forall quiet (trace (Images.render_image item)).
Proof. unfold Images.render_image. repeat quiet_step. Qed.

(** The asynchronous function of the image script, on every answer that
    the model follows to its end: one request, first of all, no address
    assigned, no reload, and a normal end.  So it is for an empty object
    where the payload should be an array: it has no [length], the loop does
    not run, and the loading text is cleared. *)
Theorem image_script_stays_on_page (search : jsstring) (response : transport) :
  result (Images.main search response) <> OffModel ->
  exists encoded rest,
    uri_encode (nullable_toString (Images.query search)) = Some encoded
    /\ trace (Images.main search response) = Fetch (Images.url search encoded) :: rest
    /\ Forall quiet rest
    /\ result (Images.main search response) = Ok tt.
Proof.
  intro O. destruct (images_encodedQuery_defined search) as (encoded & E' & E).
  apply ends_normally in O.
  2:{ intro x. unfold Images.main. rewrite E, !bind_ret.
      apply try_catch_no_throw. discriminate. }
  revert O. unfold Images.main. rewrite E, !bind_ret. intro O.
  match goal with
  | |- context [try_catch (bind (getUrlContents ?u response) ?body) ?handler] =>
      destruct (guarded_request quiet u response body handler) as (rest & T & Q)
  end.
  - intros text _. unfold Images.loop_items. repeat quiet_step;
      apply trace_for_each_Forall; intro; apply render_image_quiet.
  - intro x. repeat quiet_step.
  - exists encoded, rest. split; [exact E'|]. split; [exact T|]. split; [exact Q|].
    exact O.
Qed.

Lemma image_script_stays_on_page_witness :
  exists encoded rest,
    uri_encode (nullable_toString (Images.query (js "?q=cats"))) = Some encoded
    /\ trace (Images.main (js "?q=cats") (Body (js "{}")))
       = Fetch (Images.url (js "?q=cats") encoded) :: rest
    /\ Forall quiet rest
    /\ result (Images.main (js "?q=cats") (Body (js "{}"))) = Ok tt.
Proof.
  apply (image_script_stays_on_page (js "?q=cats") (Body (js "{}"))).
  vm_compute. discriminate.
Defined.

Lemma images_main_on_empty_object :
  Images.main (js "?q=cats") (Body (js "{}"))
  = ([Fetch (js "https://unmappedstack.pythonanywhere.com/api/images?q=cats&safe=strict");
      SetInnerText "loading" (js "")],
     Ok tt).
Proof. reflexivity. Qed.

(** The asynchronous function of the video script, on every answer other
    than [noresults] (on which it reloads) that the model follows to its
    end: one request, first of all, no address assigned, no reload, and a
    normal end. *)
Theorem video_script_stays_on_page
  (href : jsstring) (error_toString : exn -> jsstring)
  (response : transport) (pg : number) :
  Videos.page href = ret pg -> response <> Body (js "noresults") ->
  result (Videos.main href error_toString response) <> OffModel ->
  exists encoded rest,
    uri_encode (nullable_toString (Videos.query href)) = Some encoded
    /\ trace (Videos.main href error_toString response)
       = Fetch (Videos.url href encoded pg) :: rest
    /\ Forall quiet rest
    /\ result (Videos.main href error_toString response) = Ok tt.
Proof.
  intros P NR O. destruct (videos_encodedQuery_defined href) as (encoded & E' & E).
  apply ends_normally in O.
  2:{ intro x. unfold Videos.main. rewrite E, P, !bind_ret.
      apply try_catch_no_throw. discriminate. }
  revert O. unfold Videos.main. rewrite E, P, !bind_ret. intro O.
  match goal with
  | |- context [try_catch (bind (getUrlContents ?u response) ?body) ?handler] =>
      destruct (guarded_request quiet u response body handler) as (rest & T & Q)
  end.
  - intros text ->.
    assert (jseq text (js "noresults") = false) as ->.
    { apply jseq_neq. congruence. }
    unfold Videos.forEach_items, Videos.createPagination. repeat quiet_step.
    apply trace_for_each_Forall. intro. apply render_video_quiet.
  - intro x. repeat quiet_step.
  - exists encoded, rest. split; [exact E'|]. split; [exact T|]. split; [exact Q|].
    exact O.
Qed.

Lemma video_script_stays_on_page_witness :
  let text := js "{" ++ quote ++ js "results" ++ quote ++ js ":[{}]}" in
  exists encoded rest,
    uri_encode (nullable_toString (Videos.query (js "https://nilch.org/videos.html?q=cats")))
    = Some encoded
    /\ trace (Videos.main (js "https://nilch.org/videos.html?q=cats") (fun _ => js "TypeError")
                (Body text))
       = Fetch (Videos.url (js "https://nilch.org/videos.html?q=cats") encoded (Num 0)) :: rest
    /\ Forall quiet rest
    /\ result (Videos.main (js "https://nilch.org/videos.html?q=cats")
                 (fun _ => js "TypeError") (Body text)) = Ok tt.
Proof.
  intro text.
  apply (video_script_stays_on_page (js "https://nilch.org/videos.html?q=cats")
           (fun _ => js "TypeError") (Body text) (Num 0)).
  - reflexivity.
  - discriminate.
  - vm_compute. discriminate.
Defined.

Lemma videos_main_on_item_without_images :
  Videos.main (js "https://nilch.org/videos.html?q=cats") (fun _ => js "TypeError")
    (Body (js "{" ++ quote ++ js "results" ++ quote ++ js ":[{}]}"))
  = ([Fetch (js "https://unmappedstack.pythonanywhere.com/api/search?videos=true&q=cats&safe=strict&page=0");
      SetInnerHTML "videoResults" (js "");
      ConsoleError (js "Error loading search results:") (TypeError "large");
      SetInnerHTML "results"
        (js "<p>Error loading search results. Please try again.<br>TypeError</p>")],
     Ok tt).
Proof. reflexivity. Qed.

(** ** Rendering: edges of the loops *)

(** A payload without results shows the message only: the infobox that
    comes with it stays hidden, and there is no pagination. *)
Theorem empty_results_hide_infobox
  (search text : jsstring) (hostname : jsstring -> option jsstring)
  (error_toString : exn -> jsstring) (pg : number)
  (members infobox : list (jsstring * value)) :
  Results.page search = ret pg ->
  JSON_parse text = ret (VObject members) ->
  lookup members (js "results") = Some (VArray []) ->
  lookup members (js "infobox") = Some (VObject infobox) ->
  lookup infobox (js "toString") = None ->
  exists encoded,
    Results.main search hostname error_toString (Body text)
    = ([Fetch (Results.url search encoded pg);
        SetInnerHTML "results" (js "");
        SetInnerHTML "results"
          (js "There weren't any results found! Maybe try switching to another engine?")],
       Ok tt).
Proof.
  intros P J R I TS. destruct (encodedQuery_defined search) as (encoded & _ & E).
  exists encoded. destruct (JSON_parse_ok_not_sentinel _ _ J) as [NQ NR].
  unfold Results.main. rewrite E, P, !bind_ret.
  rewrite getUrlContents_body, bind_ok, NQ, NR.
  unfold Results.render. rewrite J, bind_ret.
  unfold Results.render_data, getProp. rewrite R, I, !bind_ret.
  unfold loose_eq. rewrite TS. reflexivity.
Qed.

Lemma empty_results_hide_infobox_witness :
  let text := js "{" ++ quote ++ js "results" ++ quote ++ js ":[],"
              ++ quote ++ js "infobox" ++ quote ++ js ":{"
              ++ quote ++ js "infotype" ++ quote ++ js ":"
              ++ quote ++ js "calc" ++ quote ++ js "}}" in
  exists encoded,
    Results.main (js "?q=1%2B1") (fun _ => None) (fun _ => js "") (Body text)
    = ([Fetch (Results.url (js "?q=1%2B1") encoded (Num 0));
        SetInnerHTML "results" (js "");
        SetInnerHTML "results"
          (js "There weren't any results found! Maybe try switching to another engine?")],
       Ok tt).
Proof.
  intro text.
  apply (empty_results_hide_infobox (js "?q=1%2B1") text (fun _ => None) (fun _ => js "")
           (Num 0)
           [(js "results", VArray []);
            (js "infobox", VObject [(js "infotype", VString (js "calc"))])]
           [(js "infotype", VString (js "calc"))]);
    reflexivity.
Defined.

Lemma bind_emit_eq {B} (e : effect) (f : unit -> M B) (tr : list effect) (o : outcome B) :
  f tt = (tr, o) -> bind (emit e) f = (e :: tr, o).
Proof. intro H. rewrite bind_emit, H. reflexivity. Qed.

Lemma string_member (members : list (jsstring * value)) (name : string) :
  (forall key v, lookup members key = Some v -> exists s, v = VString s) ->
  exists s,
    (v <- getProp (VObject members) name ;; toString v) = ret s
    /\ (v <- getProp (VObject members) name ;; toInnerHTML v) = ret s
    /\ s = match lookup members (js name) with
           | Some (VString x) => x
           | _ => js "undefined"
           end.
Proof.
  intro H. unfold getProp. destruct (lookup members (js name)) as [v|] eqn:L.
  - destruct (H _ _ L) as [s ->]. exists s. repeat split.
  - exists (js "undefined"). repeat split.
Qed.

(** The infobox is shown for any payload that has one; its title is
    [Calculator] for the type [calc], [Dictionary] for [definition], the
    title of the payload for [wikipedia], and one item is appended.  Any
    other type shows the container and leaves it empty. *)
Theorem infobox_title_by_type (members : list (jsstring * value)) (infotype : jsstring) :
  (forall key v, lookup members key = Some v -> exists s, v = VString s) ->
  lookup members (js "infotype") = Some (VString infotype) ->
  let title :=
    if jseq infotype (js "calc") then Some (js "Calculator")
    else if jseq infotype (js "definition") then Some (js "Dictionary")
    else if jseq infotype (js "wikipedia")
         then Some (match lookup members (js "title") with
                    | Some (VString x) => x
                    | _ => js "undefined"
                    end)
         else None in
  match title with
  | Some shown =>
      exists item,
        Results.render_infobox (VObject members)
        = ([SetDisplay "infobox" (js "block");
            SetInnerHTML "infobox-title" shown;
            AppendChild "infobox" item], Ok tt)
  | None =>
      Results.render_infobox (VObject members) = ([SetDisplay "infobox" (js "block")], Ok tt)
  end.
Proof.
  intros S T. cbv zeta. unfold Results.render_infobox.
  change (truthy (VObject members)) with (ret true). rewrite bind_ret, bind_emit.
  cbv beta.
  assert (getProp (VObject members) "infotype" = ret (VString infotype)) as ->.
  { unfold getProp. now rewrite T. }
  rewrite !bind_ret.
  change (loose_eq (VString infotype) "calc") with (ret (jseq infotype (js "calc"))).
  change (loose_eq (VString infotype) "definition")
    with (ret (jseq infotype (js "definition"))).
  change (loose_eq (VString infotype) "wikipedia")
    with (ret (jseq infotype (js "wikipedia"))).
  rewrite !bind_ret.
  destruct (jseq infotype (js "calc")).
  { destruct (string_member members "equ" S) as (equ & -> & _ & _).
    destruct (string_member members "result" S) as (res & -> & _ & _).
    rewrite !bind_ret. eexists. reflexivity. }
  rewrite ?bind_ret. destruct (jseq infotype (js "definition")).
  { destruct (string_member members "word" S) as (word & -> & _ & _).
    destruct (string_member members "type" S) as (type & _ & -> & _).
    destruct (string_member members "definition" S) as (def & _ & -> & _).
    destruct (string_member members "url" S) as (url & -> & _ & _).
    rewrite !bind_ret. eexists. reflexivity. }
  rewrite ?bind_ret. destruct (jseq infotype (js "wikipedia")); [|reflexivity].
  destruct (string_member members "title" S) as (title & _ & -> & <-).
  destruct (string_member members "info" S) as (info & _ & -> & _).
  destruct (string_member members "url" S) as (url & -> & _ & _).
  rewrite !bind_ret. eexists. reflexivity.
Qed.

Lemma infobox_title_by_type_witness :
  let members := [(js "infotype", VString (js "wikipedia"));
                  (js "title", VString (js "Cat"));
                  (js "info", VString (js "The cat is a small mammal."));
                  (js "url", VString (js "https://en.wikipedia.org/wiki/Cat"))] in
  exists item,
    Results.render_infobox (VObject members)
    = ([SetDisplay "infobox" (js "block");
        SetInnerHTML "infobox-title" (js "Cat");
        AppendChild "infobox" item], Ok tt).
Proof.
  intro members.
  apply (infobox_title_by_type members (js "wikipedia")).
  - intros key v. unfold members. cbn [lookup].
    repeat (destruct (jseq _ key); [intro H; injection H as <-; eauto|]).
    discriminate.
  - reflexivity.
Defined.





Lemma split_first_none (sep : N) (a : list N) :
  Forall (fun c => c <> sep) a -> split_first sep a = (a, []).
Proof.
  induction 1 as [|c a C _ IH]; cbn [split_first]; [reflexivity|].
  destruct (N.eqb_spec c sep); [contradiction|]. now rewrite IH.
Qed.

(** The date of a card is the [page_age] of the item up to its first
    capital T (all of it when it has none), after the word PUBLISHED; the
    date comes first in the card. *)
Theorem render_result_date
  (hostname : jsstring -> option jsstring)
  (members : list (jsstring * value)) (title href body host date rest : jsstring) :
  lookup members (js "title") = Some (VString title) ->
  lookup members (js "href") = Some (VString href) ->
  lookup members (js "body") = Some (VString body) ->
  hostname href = Some host ->
  lookup members (js "page_age") = Some (VString (date ++ rest)) ->
  Forall (fun c => c <> 84) date ->
  (rest = [] /\ date <> []) \/ (exists time, rest = 84 :: time) ->
  exists others,
    Results.render_result hostname (VObject members)
    = ([AppendChild "results"
          (div "result" []
             (div "result-date" [("textContent"%string, js "PUBLISHED " ++ date)] []
              :: others))],
       Ok tt)
    /\ length others = 3%nat.
Proof.
  intros T H B U A D R.
  assert (exists c r, date ++ rest = c :: r /\ fst (split_first 84 (c :: r)) = date)
    as (c & r & E & S).
  { destruct R as [[-> NE]|[time ->]].
    - rewrite app_nil_r. destruct date as [|c r]; [contradiction|].
      exists c, r. split; [reflexivity|]. now rewrite split_first_none.
    - destruct (date ++ 84 :: time) as [|c r] eqn:E; [now destruct date|].
      exists c, r. split; [reflexivity|]. rewrite <- E. now rewrite split_first_found. }
  rewrite E in A.
  unfold Results.render_result, getProp. rewrite T, H, B, A, !bind_ret.
  change (toString (VString href)) with (ret href).
  change (toTextContent (VString href)) with (ret href).
  change (as_string (VString title)) with (ret title).
  change (as_string (VString body)) with (ret body).
  rewrite !bind_ret, U, !bind_ret.
  change (truthy (VString (c :: r))) with (ret true). rewrite !bind_ret.
  rewrite S. eexists. split; reflexivity.
Qed.

Lemma render_result_date_witness :
  exists others,
    Results.render_result (fun _ => Some (js "example.org"))
      (VObject [(js "title", VString (js "a"));
                (js "href", VString (js "https://example.org/a"));
                (js "body", VString (js "b"));
                (js "page_age", VString (js "2024-05-01" ++ js "T10:00:00"))])
    = ([AppendChild "results"
          (div "result" []
             (div "result-date"
                [("textContent"%string, js "PUBLISHED " ++ js "2024-05-01")] []
              :: others))],
       Ok tt)
    /\ length others = 3%nat.
Proof.
  apply (render_result_date (fun _ => Some (js "example.org"))
           [(js "title", VString (js "a"));
            (js "href", VString (js "https://example.org/a"));
            (js "body", VString (js "b"));
            (js "page_age", VString (js "2024-05-01" ++ js "T10:00:00"))]
           (js "a") (js "https://example.org/a") (js "b") (js "example.org")
           (js "2024-05-01") (js "T10:00:00")).
  - reflexivity.
  - reflexivity.
  - reflexivity.
  - reflexivity.
  - reflexivity.
  - repeat constructor; discriminate.
  - right. now exists (js "10:00:00").
Defined.

(** The image script renders one linked image for each item of the array,
    in order, and then clears the loading text; for an empty array that is
    all it does. *)
Theorem image_script_renders_every_item
  (search text : jsstring) (items : list value) (image_of : value -> jsstring) :
  JSON_parse text = ret (VArray items) ->
  (forall item, In item items ->
     exists members,
       item = VObject members
       /\ lookup members (js "image") = Some (VString (image_of item))) ->
  exists encoded,
    Images.main search (Body text)
    = ([Fetch (Images.url search encoded)]
       ++ map (fun item =>
                 AppendChild "results"
                   (div "image-item" []
                      [Element "a" [("href"%string, image_of item)]
                         [div "image-wrapper" []
                            [Element "img" [("src"%string, image_of item)] []]]]))
              items
       ++ [SetInnerText "loading" (js "")],
       Ok tt).
Proof.
  intros J I. destruct (images_encodedQuery_defined search) as (encoded & _ & E).
  exists encoded. destruct (JSON_parse_ok_not_sentinel _ _ J) as [NQ NR].
  unfold Images.main. rewrite E, !bind_ret.
  rewrite getUrlContents_body, bind_ok, NQ, NR, J, bind_ret.
  change (Images.loop_items (VArray items)) with (ret items). rewrite bind_ret.
  erewrite for_each_singletons.
  2:{ intros item IN. destruct (I item IN) as (members & -> & L).
      unfold Images.render_image, getProp. rewrite L, !bind_ret.
      change (toString (VString (image_of (VObject members))))
        with (ret (image_of (VObject members))).
      rewrite bind_ret. unfold emit. f_equal. f_equal.
      instantiate (1 := fun item =>
        AppendChild "results"
          (div "image-item" []
             [Element "a" [("href"%string, image_of item)]
                [div "image-wrapper" []
                   [Element "img" [("src"%string, image_of item)] []]]])).
      reflexivity. }
  unfold bind, try_catch, trace, result, emit. simpl. reflexivity.
Qed.

Lemma image_script_renders_every_item_witness :
  let text := js "[{" ++ quote ++ js "image" ++ quote ++ js ":" ++ quote
              ++ js "https://example.org/cat.png" ++ quote ++ js "}]" in
  let image_of := fun _ : value => js "https://example.org/cat.png" in
  exists encoded,
    Images.main (js "?q=cats") (Body text)
    = ([Fetch (Images.url (js "?q=cats") encoded)]
       ++ map (fun item =>
                 AppendChild "results"
                   (div "image-item" []
                      [Element "a" [("href"%string, image_of item)]
                         [div "image-wrapper" []
                            [Element "img" [("src"%string, image_of item)] []]]]))
              [VObject [(js "image", VString (js "https://example.org/cat.png"))]]
       ++ [SetInnerText "loading" (js "")],
       Ok tt).
Proof.
  intros text image_of.
  apply (image_script_renders_every_item (js "?q=cats") text
           [VObject [(js "image", VString (js "https://example.org/cat.png"))]] image_of).
  - reflexivity.
  - intros item [<-|[]]. eexists. split; reflexivity.
Defined.

(** The video script renders a card for each item, in order, and then the
    pagination; with no items the pagination is all it adds. *)
Theorem video_script_renders_every_item
  (href text : jsstring) (error_toString : exn -> jsstring) (pg : number)
  (members : list (jsstring * value)) (items : list value) (card : value -> element) :
  Videos.page href = ret pg ->
  JSON_parse text = ret (VObject members) ->
  lookup members (js "results") = Some (VArray items) ->
  (forall item, In item items ->
     Videos.render_video item = ([AppendChild "videoResults" (card item)], Ok tt)) ->
  exists encoded,
    Videos.main href error_toString (Body text)
    = ([Fetch (Videos.url href encoded pg); SetInnerHTML "videoResults" (js "")]
       ++ map (fun item => AppendChild "videoResults" (card item)) items
       ++ trace (Videos.createPagination href 9 pg),
       Ok tt).
Proof.
  intros P J R C. destruct (videos_encodedQuery_defined href) as (encoded & _ & E).
  exists encoded. destruct (JSON_parse_ok_not_sentinel _ _ J) as [NQ NR].
  unfold Videos.main. rewrite E, P, !bind_ret.
  rewrite getUrlContents_body, bind_ok, NQ, NR, bind_ret, J, bind_ret.
  unfold getProp. rewrite R, bind_ret, bind_emit.
  change (Videos.forEach_items (VArray items)) with (ret items). rewrite bind_ret.
  rewrite (for_each_singletons _ _ _ C).
  unfold bind, try_catch, trace, result, Videos.createPagination, emit. simpl.
  reflexivity.
Qed.

Lemma video_script_renders_every_item_witness :
  let text := js "{" ++ quote ++ js "results" ++ quote ++ js ":[]}" in
  exists encoded,
    Videos.main (js "https://nilch.org/videos.html?q=cats") (fun _ => js "") (Body text)
    = ([Fetch (Videos.url (js "https://nilch.org/videos.html?q=cats") encoded (Num 0));
        SetInnerHTML "videoResults" (js "")]
       ++ map (fun item : value => AppendChild "videoResults" (Element "a" [] [])) []
       ++ trace (Videos.createPagination (js "https://nilch.org/videos.html?q=cats") 9
                   (Num 0)),
       Ok tt).
Proof.
  intro text.
  apply (video_script_renders_every_item (js "https://nilch.org/videos.html?q=cats") text
           (fun _ => js "") (Num 0) [(js "results", VArray [])] []
           (fun _ => Element "a" [] [])).
  - reflexivity.
  - reflexivity.
  - reflexivity.
  - intros item [].
Defined.

(** ** The query of the request *)

Lemma get_is_well_formed (init name v : jsstring) :
  get (new_URLSearchParams init) name = Some v -> is_well_formed v = true.
Proof.
  intro G. destruct (get_In _ _ _ G) as [k I].
  pose proof (new_URLSearchParams_well_formed init) as W.
  unfold params_well_formed in W. rewrite forallb_forall in W.
  specialize (W _ I). cbn [fst snd] in W. apply andb_true_iff in W. tauto.
Qed.

(** The first lines of the web and image scripts never throw.  What they
    put in the request reads back as the query of the address; an address
    without [q] asks for the text [null], one with an empty [q] for
    nothing. *)
Theorem request_carries_query (search : jsstring) :
  exists encoded,
    Results.encodedQuery search = ret encoded
    /\ Images.encodedQuery search = ret encoded
    /\ (Results.query search = None -> encoded = js "null")
    /\ (Results.query search = Some [] -> encoded = [])
    /\ forall q, Results.query search = Some q ->
         Results.urlParams (js "?q=" ++ encoded) = [(js "q", q)].
Proof.
  destruct (encodedQuery_defined search) as (encoded & U & E).
  destruct (images_encodedQuery_defined search) as (encoded' & U' & E').
  assert (encoded' = encoded) as -> by (unfold Images.query, Images.urlParams in U';
    unfold Results.query, Results.urlParams in U; congruence).
  exists encoded. split; [exact E|]. split; [exact E'|].
  split; [|split].
  - intro Q. rewrite Q in U. now injection U as <-.
  - intro Q. rewrite Q in U. now injection U as <-.
  - intros q Q. rewrite Q in U. cbn [nullable_toString] in U.
    apply (component_round_trip (js "q") q encoded); try assumption.
    + repeat constructor.
    + reflexivity.
    + discriminate.
    + exact (get_is_well_formed _ _ _ Q).
Qed.

(** ** The theme switch *)

(** [toggleTheme] switches the class of the body, shows the matching icon
    and stores the choice; two calls restore the class.  The next page
    load (its markup is dark) is light when the stored choice is light, and
    also whenever the system asks for a light scheme: a stored dark choice
    does not hold against it. *)
Theorem theme_choice_persists (s : Theme.state) (markup : jsstring) (prefers_light : bool) :
  let chosen := Theme.toggleTheme s in
  Theme.light_mode chosen = negb (Theme.light_mode s)
  /\ Theme.stored_theme chosen
     = Some (if Theme.light_mode chosen then js "light" else js "dark")
  /\ Theme.toggle_html chosen
     = (if Theme.light_mode chosen then Theme.sun else Theme.moon)
  /\ Theme.light_mode (Theme.toggleTheme chosen) = Theme.light_mode s
  /\ let loaded :=
       Theme.load_saved_theme prefers_light
         {| Theme.light_mode := false; Theme.toggle_html := markup;
            Theme.stored_theme := Theme.stored_theme chosen |} in
     Theme.light_mode loaded = Theme.light_mode chosen || prefers_light
     /\ Theme.toggle_html loaded
        = (if Theme.light_mode loaded then Theme.sun else markup)
     /\ Theme.stored_theme loaded = Theme.stored_theme chosen.
Proof.
  destruct s as [[|] html stored]; destruct prefers_light; repeat split.
Qed.

(** ** The loop of the web script on a payload of one item *)

Lemma main_renders_every_item_witness :
  let item := VObject [(js "title", VString (js "a"));
                       (js "href", VString (js "https://example.org/a"));
                       (js "body", VString (js "b"))] in
  let text := js "{" ++ quote ++ js "results" ++ quote ++ js ":[{"
              ++ quote ++ js "title" ++ quote ++ js ":" ++ quote ++ js "a" ++ quote ++ js ","
              ++ quote ++ js "href" ++ quote ++ js ":" ++ quote
              ++ js "https://example.org/a" ++ quote ++ js ","
              ++ quote ++ js "body" ++ quote ++ js ":" ++ quote ++ js "b" ++ quote
              ++ js "}]}" in
  let hostname := fun _ : jsstring => Some (js "example.org") in
  let card := fun v : value =>
                match trace (Results.render_result hostname v) with
                | [AppendChild _ c] => c
                | _ => Element "div" [] []
                end in
  exists encoded,
    uri_encode (nullable_toString (Results.query (js "?q=cats"))) = Some encoded
    /\ Results.main (js "?q=cats") hostname (fun _ => js "") (Body text)
       = ([Fetch (Results.url (js "?q=cats") encoded (Num 0)); SetInnerHTML "results" (js "")]
          ++ map (fun item => AppendChild "results" (card item)) [item]
          ++ trace (Results.createPagination (js "?q=cats") 9 (Num 0)),
          Ok tt).
Proof.
  intros item text hostname card.
  apply (main_renders_every_item (js "?q=cats") hostname (fun _ => js "") (Num 0) text
           [(js "results", VArray [item])] [item] card).
  - reflexivity.
  - reflexivity.
  - reflexivity.
  - discriminate.
  - reflexivity.
  - intros v [<-|[]]. reflexivity.
Defined.

(** ** The tabs *)

(** The tabs carry the query to the other pages, and only the query: the
    page a tab leads to reads the same query and starts from the defaults
    for safe search and the page number, whatever the current address
    says. *)
Theorem tabs_carry_only_the_query (search q : jsstring) :
  Results.query search = Some q -> q <> [] ->
  exists encoded,
    Results.query_block search
    = ret (Some {| document_title := q ++ js " | nilch";
                   searchInput_value := q;
                   tab_hrefs :=
                     [("imagesTab"%string, js "images.html" ++ js "?q=" ++ encoded);
                      ("videosTab"%string, js "videos.html" ++ js "?q=" ++ encoded);
                      ("mapsTab"%string, js "https://duck.com/?iaxm=maps&q=" ++ encoded)] |})
    /\ Images.query_block search
       = ret (Some {| document_title := q ++ js " | nilch";
                      searchInput_value := q;
                      tab_hrefs :=
                        [("webTab"%string, js "results.html" ++ js "?q=" ++ encoded);
                         ("videosTab"%string, js "videos.html" ++ js "?q=" ++ encoded);
                         ("mapsTab"%string,
                          js "https://duck.com/?iaxm=maps&q=" ++ encoded)] |})
    /\ Images.query (js "?q=" ++ encoded) = Some q
    /\ Images.safeSearch (js "?q=" ++ encoded) = js "strict"
    /\ Results.query (js "?q=" ++ encoded) = Some q
    /\ Results.safeSearch (js "?q=" ++ encoded) = js "strict"
    /\ Results.page (js "?q=" ++ encoded) = ret (Num 0).
Proof.
  intros Q NE. pose proof (get_is_well_formed _ _ _ Q) as W.
  destruct (encodeURIComponent_well_formed q W) as (e & E & U).
  exists e.
  assert (new_URLSearchParams (js "?q=" ++ e) = [(js "q", q)]) as P.
  { apply (component_round_trip (js "q") q e); try assumption.
    - repeat constructor.
    - reflexivity.
    - discriminate. }
  unfold Results.query_block, Images.query_block, Images.query, Images.urlParams,
    Images.safeSearch, Results.safeSearch, Results.page, Results.urlParams in *.
  unfold Results.query, Results.urlParams in Q |- *.
  unfold Images.urlParams. rewrite Q, P. destruct q as [|c r]; [contradiction|].
  rewrite E, !bind_ret. repeat (split; [reflexivity|]). reflexivity.
Qed.

Lemma tabs_carry_only_the_query_witness :
  exists encoded,
    Results.query_block (js "?q=tom+%26+jerry&safe=off&page=4")
    = ret (Some {| document_title := js "tom & jerry" ++ js " | nilch";
                   searchInput_value := js "tom & jerry";
                   tab_hrefs :=
                     [("imagesTab"%string, js "images.html" ++ js "?q=" ++ encoded);
                      ("videosTab"%string, js "videos.html" ++ js "?q=" ++ encoded);
                      ("mapsTab"%string, js "https://duck.com/?iaxm=maps&q=" ++ encoded)] |})
    /\ Images.query_block (js "?q=tom+%26+jerry&safe=off&page=4")
       = ret (Some {| document_title := js "tom & jerry" ++ js " | nilch";
                      searchInput_value := js "tom & jerry";
                      tab_hrefs :=
                        [("webTab"%string, js "results.html" ++ js "?q=" ++ encoded);
                         ("videosTab"%string, js "videos.html" ++ js "?q=" ++ encoded);
                         ("mapsTab"%string,
                          js "https://duck.com/?iaxm=maps&q=" ++ encoded)] |})
    /\ Images.query (js "?q=" ++ encoded) = Some (js "tom & jerry")
    /\ Images.safeSearch (js "?q=" ++ encoded) = js "strict"
    /\ Results.query (js "?q=" ++ encoded) = Some (js "tom & jerry")
    /\ Results.safeSearch (js "?q=" ++ encoded) = js "strict"
    /\ Results.page (js "?q=" ++ encoded) = ret (Num 0).
Proof.
  apply (tabs_carry_only_the_query (js "?q=tom+%26+jerry&safe=off&page=4")
           (js "tom & jerry")).
  - reflexivity.
  - discriminate.
Defined.

(** ** What the backend is asked *)

(** What [encodeURIComponent] wrote decodes to the string it was given. *)
Lemma form_decode_component (s e : jsstring) :
  is_well_formed s = true -> uri_encode s = Some e ->
  form_decode e = s /\ Forall (fun c => form_safe c = true) e.
Proof.
  intros W E. rewrite (uri_encode_chunks s W) in E. injection E as <-.
  destruct (code_points_well_formed s W) as [F U]. split.
  - unfold form_decode. rewrite percent_decode_uri_chunks by exact F.
    fold (utf8_bytes s). now apply utf8_decode_bytes.
  - now apply uri_chunks_safe.
Qed.

(** A string of unreserved characters is its own encoding. *)
Lemma uri_encode_plain (v : jsstring) :
  forallb uri_unescaped v = true -> uri_encode v = Some v /\ is_well_formed v = true.
Proof.
  induction v as [|c v IH]; [now split|]. cbn [forallb].
  intro H. apply andb_true_iff in H. destruct H as [C H].
  destruct (IH H) as [E W]. pose proof (uri_unescaped_ascii c C) as A.
  assert (is_trail_surrogate c = false /\ is_lead_surrogate c = false) as [T L].
  { unfold is_trail_surrogate, is_lead_surrogate, in_range.
    split; apply not_true_is_false; rewrite andb_true_iff, !N.leb_le; lia. }
  split.
  - now rewrite uri_encode_single, C, E by assumption.
  - rewrite is_well_formed_plain by assumption. rewrite W.
    apply andb_true_iff. split; [apply N.ltb_lt; lia | reflexivity].
Qed.

Lemma string_of_uint_plain (u : Decimal.uint) :
  forallb uri_unescaped (js (NilEmpty.string_of_uint u)) = true.
Proof.
  induction u as [|u IH|u IH|u IH|u IH|u IH|u IH|u IH|u IH|u IH|u IH];
    [reflexivity | ..];
    cbn [NilEmpty.string_of_uint];
    match goal with
    | |- forallb _ (js (String ?c ?s)) = true =>
        change (js (String c s)) with (N_of_ascii c :: js s)
    end;
    cbn [forallb]; rewrite IH; reflexivity.
Qed.

Lemma number_toString_plain (n : number) :
  forallb uri_unescaped (number_toString n) = true.
Proof.
  destruct n as [|z]; [reflexivity|]. unfold number_toString, string_of_Z.
  destruct (Z.to_int z) as [u|u]; cbn [NilZero.string_of_int].
  - destruct u; first [reflexivity | apply string_of_uint_plain].
  - change (js (String "-" ?s)) with (45 :: js s). cbn [forallb].
    destruct u; first [reflexivity | apply string_of_uint_plain].
Qed.

(** One pair of a query string, parsed. *)
Lemma parse_pair (name value decoded : jsstring) :
  name <> [] -> Forall (fun c => form_safe c = true) name -> form_decode name = name ->
  form_decode value = decoded ->
  match name ++ 61 :: value with
  | [] => []
  | _ :: _ =>
      let (n, v) := split_first 61 (name ++ 61 :: value) in
      [(form_decode n, form_decode v)]
  end = [(name, decoded)].
Proof.
  intros NE S N V.
  rewrite split_first_found by (apply form_safe_not; [now right | exact S]).
  destruct name; [contradiction|]. cbn [app]. now rewrite N, V.
Qed.

Lemma pair_text_ok (name value : jsstring) :
  Forall (fun c => form_safe c = true) name -> Forall (fun c => form_safe c = true) value ->
  Forall (fun c => c <> 38) (name ++ 61 :: value)
  /\ Forall (fun c => c < 128) (name ++ 61 :: value).
Proof.
  intros N V. split; apply Forall_app; split.
  - apply form_safe_not; [now left | exact N].
  - constructor; [discriminate | apply form_safe_not; [now left | exact V]].
  - now apply form_safe_ascii.
  - constructor; [lia | now apply form_safe_ascii].
Qed.

Lemma plain_component (v : jsstring) :
  forallb uri_unescaped v = true ->
  form_decode v = v /\ Forall (fun c => form_safe c = true) v.
Proof.
  intro H. destruct (uri_encode_plain v H) as [E W].
  exact (form_decode_component v v W E).
Qed.

Lemma digit_value_bounds (radix : Z) (c : N) (d : Z) :
  digit_value radix c = Some d -> (0 <= d < radix)%Z.
Proof.
  unfold digit_value, is_digit, in_range.
  destruct ((48 <=? c) && (c <=? 57)) eqn:D.
  - apply andb_true_iff in D. rewrite !N.leb_le in D.
    destruct (Z.ltb_spec (Z.of_N c - 48) radix); [|discriminate].
    intro X. injection X as <-. lia.
  - destruct ((97 <=? c) && (c <=? 122)) eqn:L.
    + apply andb_true_iff in L. rewrite !N.leb_le in L.
      destruct (Z.ltb_spec (Z.of_N c - 87) radix); [|discriminate].
      intro X. injection X as <-. lia.
    + destruct ((65 <=? c) && (c <=? 90)) eqn:U; [|discriminate].
      apply andb_true_iff in U. rewrite !N.leb_le in U.
      destruct (Z.ltb_spec (Z.of_N c - 55) radix); [|discriminate].
      intro X. injection X as <-. lia.
Qed.

Lemma parse_digits_bound (radix : Z) (s : jsstring) :
  (1 <= radix)%Z ->
  forall acc count, (0 <= acc)%Z ->
  (0 <= fst (parse_digits radix acc count s)
   < (acc + 1) * radix ^ Z.of_nat (length s))%Z.
Proof.
  intro R. induction s as [|c r IH]; intros acc count A.
  - simpl. lia.
  - cbn [parse_digits length]. rewrite Nat2Z.inj_succ, Z.pow_succ_r by lia.
    assert (1 <= radix ^ Z.of_nat (length r))%Z as PW.
    { change 1%Z with (Z.succ 0). apply Z.le_succ_l, Z.pow_pos_nonneg; lia. }
    destruct (digit_value radix c) as [d|] eqn:D.
    + apply digit_value_bounds in D.
      assert (0 <= acc * radix + d)%Z as A' by nia.
      specialize (IH (acc * radix + d)%Z (S count) A'). nia.
    + simpl. nia.
Qed.

Lemma trimStart_length (s : jsstring) : (length (trimStart s) <= length s)%nat.
Proof.
  induction s as [|c r IH]; simpl; [lia|]. destruct (is_white_space c); simpl; lia.
Qed.

(** A text of at most 15 code units is read exactly: its number is below
    2^53. *)
Lemma parseInt_short (s : jsstring) :
  (length s <= 15)%nat -> exists n, parseInt s = Some n.
Proof.
  intro L. unfold parseInt. pose proof (trimStart_length s) as T.
  set (s1 := trimStart s) in *.
  assert (forall (neg : bool) radix s3,
            (radix = 10%Z \/ (radix = 16%Z /\ (length s3 <= 13)%nat)) ->
            (length s3 <= 15)%nat ->
            exists n,
              (let (v, count) := parse_digits radix 0 0 s3 in
               match count with
               | O => Some NaN
               | S _ =>
                   if (v <=? max_safe_integer)%Z
                   then Some (Num (if neg then (- v)%Z else v))
                   else None
               end) = Some n) as K.
  { intros neg radix s3 RD L3.
    assert (1 <= radix)%Z as R1 by (destruct RD as [->|[-> _]]; lia).
    pose proof (parse_digits_bound radix s3 R1 0%Z O (Z.le_refl 0)) as B.
    destruct (parse_digits radix 0 0 s3) as [v count]. cbn [fst] in B.
    destruct count; [eauto|].
    assert (v <= max_safe_integer)%Z as M.
    { unfold max_safe_integer. destruct RD as [->|[-> L13]].
      - assert (10 ^ Z.of_nat (length s3) <= 10 ^ 15)%Z
          by (apply Z.pow_le_mono_r; lia).
        change (10 ^ 15)%Z with 1000000000000000%Z in *. lia.
      - assert (16 ^ Z.of_nat (length s3) <= 16 ^ 13)%Z
          by (apply Z.pow_le_mono_r; lia).
        change (16 ^ 13)%Z with 4503599627370496%Z in *. lia. }
    apply Z.leb_le in M. rewrite M. eauto. }
  assert (forall (neg : bool) s2, (length s2 <= 15)%nat ->
            exists n,
              (let (radix, s3) :=
                 match s2 with
                 | z :: x :: r =>
                     if (z =? 48) && ((x =? 120) || (x =? 88)) then (16%Z, r) else (10%Z, s2)
                 | _ => (10%Z, s2)
                 end in
               let (v, count) := parse_digits radix 0 0 s3 in
               match count with
               | O => Some NaN
               | S _ =>
                   if (v <=? max_safe_integer)%Z
                   then Some (Num (if neg then (- v)%Z else v))
                   else None
               end) = Some n) as K2.
  { intros neg s2 L2. destruct s2 as [|z [|x r]]; try (apply K; [now left | exact L2]).
    destruct ((z =? 48) && ((x =? 120) || (x =? 88))).
    - apply K; [right; split; [reflexivity|] |]; simpl in L2; lia.
    - apply K; [now left | exact L2]. }
  destruct s1 as [|c r].
  - exact (K2 false [] (Nat.le_0_l 15)).
  - simpl in T.
    assert (length r <= 15)%nat as LR by lia.
    assert (length (c :: r) <= 15)%nat as LC by (simpl; lia).
    destruct (c =? 45); [exact (K2 true r LR)|].
    destruct (c =? 43); [exact (K2 false r LR) | exact (K2 false (c :: r) LC)].
Qed.

(** The request says what the address says.  When the page parameter is
    absent or has at most 15 code units (its number is then exact), and the
    values of [safe], [lang] and [engine] are made of unreserved characters
    (as the values the pages write are), the query string of the request
    parses to the query, the safe-search setting, the page read by
    [parseInt] and printed in decimal ([NaN] when it is no number), the
    language and the engine of the address, in this order and with nothing
    else. *)
Theorem request_parameters_read_back (search : jsstring) :
  (forall p, get (Results.urlParams search) (js "page") = Some p -> (length p <= 15)%nat) ->
  forallb uri_unescaped (Results.safeSearch search) = true ->
  forallb uri_unescaped (Results.language search) = true ->
  forallb uri_unescaped (Results.engine search) = true ->
  exists pg encoded query_string,
    Results.page search = ret pg
    /\ Results.encodedQuery search = ret encoded
    /\ Results.url search encoded pg
       = js "https://unmappedstack.pythonanywhere.com/api/search" ++ js "?" ++ query_string
    /\ new_URLSearchParams (js "?" ++ query_string)
       = [(js "q", nullable_toString (Results.query search));
          (js "safe", Results.safeSearch search);
          (js "page", number_toString pg);
          (js "language", Results.language search);
          (js "engine", Results.engine search)].
Proof.
  intros PL S L G.
  assert (exists pg, Results.page search = ret pg) as [pg P].
  { unfold Results.page.
    destruct (parseInt_short (or_else (get (Results.urlParams search) (js "page")) (js "0")))
      as [n ->]; [|eauto].
    destruct (get (Results.urlParams search) (js "page")) as [[|c r]|] eqn:Q;
      cbn [or_else]; try (simpl; lia).
    exact (PL _ eq_refl). }
  exists pg. destruct (encodedQuery_defined search) as (encoded & U & E).
  assert (is_well_formed (nullable_toString (Results.query search)) = true) as W.
  { destruct (Results.query search) as [q|] eqn:Q; [|reflexivity].
    exact (get_is_well_formed _ _ _ Q). }
  destruct (form_decode_component _ _ W U) as [DQ SQ].
  destruct (plain_component _ S) as [DS SS].
  destruct (plain_component _ L) as [DL SL].
  destruct (plain_component _ G) as [DG SG].
  destruct (plain_component _ (number_toString_plain pg)) as [DP SP].
  set (segments := [js "q" ++ 61 :: encoded;
                    js "safe" ++ 61 :: Results.safeSearch search;
                    js "page" ++ 61 :: number_toString pg;
                    js "language" ++ 61 :: Results.language search;
                    js "engine" ++ 61 :: Results.engine search]).
  assert (Forall (fun seg => Forall (fun c => c <> 38) seg /\ Forall (fun c => c < 128) seg)
            segments) as OK.
  { repeat (constructor; [apply pair_text_ok; [repeat constructor | assumption]|]).
    constructor. }
  exists encoded, (join [38] segments). split; [exact P|]. split; [exact E|].
  split.
  { unfold Results.url, segments. reflexivity. }
  change (new_URLSearchParams (js "?" ++ join [38] segments))
    with (flat_map
            (fun seq =>
               match seq with
               | [] => []
               | _ :: _ =>
                   let (name, value) := split_first 61 seq in
                   [(form_decode name, form_decode value)]
               end)
            (split_on 38 (utf8_bytes (join [38] segments)))).
  rewrite utf8_bytes_ascii.
  2:{ apply join_ascii; [lia|]. eapply Forall_impl; [|exact OK]. now intros seg [_ A]. }
  rewrite split_on_join.
  2:{ discriminate. }
  2:{ eapply Forall_impl; [|exact OK]. now intros seg [A _]. }
  unfold segments. cbn [flat_map].
  rewrite (parse_pair (js "q") encoded _ ltac:(discriminate) ltac:(repeat constructor)
             eq_refl DQ).
  rewrite (parse_pair (js "safe") _ _ ltac:(discriminate) ltac:(repeat constructor)
             eq_refl DS).
  rewrite (parse_pair (js "page") _ _ ltac:(discriminate) ltac:(repeat constructor)
             eq_refl DP).
  rewrite (parse_pair (js "language") _ _ ltac:(discriminate) ltac:(repeat constructor)
             eq_refl DL).
  rewrite (parse_pair (js "engine") _ _ ltac:(discriminate) ltac:(repeat constructor)
             eq_refl DG).
  reflexivity.
Qed.

Lemma request_parameters_read_back_witness :
  Results.page (js "?q=tom+%26+jerry&page=2&lang=fr-FR") = ret (Num 2)
  /\ Results.encodedQuery (js "?q=tom+%26+jerry&page=2&lang=fr-FR")
     = ret (js "tom%20%26%20jerry")
  /\ Results.url (js "?q=tom+%26+jerry&page=2&lang=fr-FR") (js "tom%20%26%20jerry") (Num 2)
     = js "https://unmappedstack.pythonanywhere.com/api/search" ++ js "?"
       ++ js "q=tom%20%26%20jerry&safe=strict&page=2&language=fr-FR&engine=duckduckgo"
  /\ new_URLSearchParams
       (js "?"
        ++ js "q=tom%20%26%20jerry&safe=strict&page=2&language=fr-FR&engine=duckduckgo")
     = [(js "q", js "tom & jerry");
        (js "safe", js "strict");
        (js "page", js "2");
        (js "language", js "fr-FR");
        (js "engine", js "duckduckgo")].
Proof.
  destruct (request_parameters_read_back (js "?q=tom+%26+jerry&page=2&lang=fr-FR"))
    as (pg & encoded & query_string & P & E & U & R).
  - intros p H. vm_compute in H. injection H as <-. simpl. lia.
  - reflexivity.
  - reflexivity.
  - reflexivity.
  - vm_compute in P. injection P as <-.
    vm_compute in E. injection E as <-.
    change (js "https://unmappedstack.pythonanywhere.com/api/search" ++ js "?" ++ query_string)
      with (js "https://unmappedstack.pythonanywhere.com/api/search?" ++ query_string) in U.
    change (Results.url (js "?q=tom+%26+jerry&page=2&lang=fr-FR")
              [116; 111; 109; 37; 50; 48; 37; 50; 54; 37; 50; 48; 106; 101; 114; 114; 121]
              (Num 2))
      with (js "https://unmappedstack.pythonanywhere.com/api/search?"
            ++ js "q=tom%20%26%20jerry&safe=strict&page=2&language=fr-FR&engine=duckduckgo")
      in U.
    apply app_inv_head in U. subst query_string.
    split; [reflexivity|]. split; [reflexivity|]. split; [reflexivity|]. exact R.
Defined.
